(** * CCTV-Guardian: the structured logger of [src/utils/logger.py]

    A shallow embedding of the logging module of CCTV-Guardian and of the
    parts of the Python runtime it drives (str, dict, round, json.dumps,
    datetime, os.path, the file system, and the logging package with its
    TimedRotatingFileHandler), followed by the properties of the module
    stated in its specification.

    Conventions.  A Python str is modelled by the bytes of its UTF-8
    encoding; an int by [Z]; a float by a primitive binary64 [float].
    Calls that can raise return a [res]; calls that read or change the
    process (clock, heap, file system, logging registry) run in the state
    monad [M] over [world]. *)

From Stdlib Require Import ZArith String Ascii List Floats Lia DecimalString.
From stdpp Require Import gmap strings list sorting.

Set Warnings "-register-all,-inexact-float".
Local Open Scope Z_scope.

(* Let [simpl] compute string concatenation on a constructor. *)
Arguments String.append !_ _ : simpl nomatch.

(** ** Python builtins *)

Module Py.

(** The exceptions the embedded code can raise.  [ReferenceError] stands
    for the use of an object reference that is not in the heap, which no
    Python program can produce. *)
Inductive exn : Type :=
  | AttributeError
  | TypeError
  | ValueError
  | OverflowError
  | FileNotFoundError
  | FileExistsError
  | NotADirectoryError
  | IsADirectoryError
  | ReferenceError.

(** Result of a call that may raise. *)
Inductive res (A : Type) : Type :=
  | Ok (a : A)
  | Raise (e : exn).
Arguments Ok {A} a.
Arguments Raise {A} e.

(** A Python object as far as this program can tell objects apart: the JSON
    scalars, lists and string-keyed dicts in insertion order, and [VObj] for
    any other object (a set, bytes, an instance of a user class), which
    json.dumps refuses and which has no [split] method. *)
Inductive value : Type :=
  | VNone
  | VBool (b : bool)
  | VInt (z : Z)
  | VFloat (f : float)
  | VStr (s : string)
  | VList (l : list value)
  | VDict (d : list (string * value))
  | VObj (tag : nat).

(** A dict with string keys, in insertion order. *)
Abbreviation dict := (list (string * value)).

(** *** str *)

(** The double quote character. *)
Definition dquote : ascii := "034"%char.

(** [s.split(sep)] for a one-character separator. *)
Fixpoint split (sep : ascii) (s : string) : list string :=
  match s with
  | EmptyString => [EmptyString]
  | String a s' =>
      if Ascii.eqb a sep then EmptyString :: split sep s'
      else match split sep s' with
           | h :: t => String a h :: t
           | [] => [String a EmptyString]
           end
  end.

(** [sep.join(l)]. *)
Fixpoint join (sep : string) (l : list string) : string :=
  match l with
  | [] => ""
  | [x] => x
  | x :: t => x +:+ sep +:+ join sep t
  end.

(** [c in s] for a character. *)
Fixpoint contains (c : ascii) (s : string) : bool :=
  match s with
  | EmptyString => false
  | String a s' => Ascii.eqb a c || contains c s'
  end.


(** [s.startswith(p)]. *)
Definition startswith (p s : string) : bool := String.prefix p s.

(** [s.endswith(c)] for a character. *)
Fixpoint endswith_char (c : ascii) (s : string) : bool :=
  match s with
  | EmptyString => false
  | String a EmptyString => Ascii.eqb a c
  | String _ s' => endswith_char c s'
  end.

(** [s[:k]] and [s[k:]] for [0 <= k]. *)
Fixpoint string_take (k : nat) (s : string) : string :=
  match k, s with
  | S k', String a s' => String a (string_take k' s')
  | _, _ => ""
  end.

Fixpoint string_drop (k : nat) (s : string) : string :=
  match k, s with
  | S k', String _ s' => string_drop k' s'
  | _, _ => s
  end.

(** [s.rstrip(c)] for a character. *)
Fixpoint rstrip (c : ascii) (s : string) : string :=
  match s with
  | EmptyString => ""
  | String a s' =>
      match rstrip c s' with
      | EmptyString => if Ascii.eqb a c then "" else String a ""
      | r => String a r
      end
  end.

(** [(s[:i], s[i:])] for [i = s.rfind(c) + 1]. *)
Fixpoint rpartition (c : ascii) (s : string) : string * string :=
  match s with
  | EmptyString => ("", "")
  | String a s' =>
      if contains c s' then
        let '(h, t) := rpartition c s' in (String a h, t)
      else if Ascii.eqb a c then (String a "", s')
      else ("", String a s')
  end.

(** [s.upper()].  Besides the ASCII letters, the two characters outside
    ASCII whose upper case is an ASCII letter are mapped: dotless i (U+0131,
    bytes 196 177) to I and long s (U+017F, bytes 197 191) to S; other
    bytes outside ASCII are kept, which is enough to compare the result
    with an ASCII name that has no SS, FF, FI, FL or ST in it. *)
Definition upper_ascii (a : ascii) : ascii :=
  let n := nat_of_ascii a in
  if ((97 <=? n) && (n <=? 122))%nat then ascii_of_nat (n - 32) else a.

Fixpoint upper (s : string) : string :=
  match s with
  | EmptyString => ""
  | String a (String b s' as rest) =>
      if Ascii.eqb a "196"%char && Ascii.eqb b "177"%char then String "I" (upper s')
      else if Ascii.eqb a "197"%char && Ascii.eqb b "191"%char then String "S" (upper s')
      else String (upper_ascii a) (upper rest)
  | String a rest => String (upper_ascii a) (upper rest)
  end.

(** *** dict *)

(** [d.get(k)]. *)
Fixpoint dict_get (k : string) (d : dict) : option value :=
  match d with
  | [] => None
  | (k', v) :: t => if String.eqb k' k then Some v else dict_get k t
  end.

(** [k in d]. *)
Definition dict_mem (k : string) (d : dict) : bool :=
  match dict_get k d with Some _ => true | None => false end.

(** [d[k] = v]: an existing key keeps its place, a new one goes last. *)
Fixpoint dict_set (k : string) (v : value) (d : dict) : dict :=
  match d with
  | [] => [(k, v)]
  | (k', v') :: t =>
      if String.eqb k' k then (k', v) :: t else (k', v') :: dict_set k v t
  end.

(** [del d[k]] for a key that is in [d]. *)
Fixpoint dict_del (k : string) (d : dict) : dict :=
  match d with
  | [] => []
  | (k', v') :: t =>
      if String.eqb k' k then t else (k', v') :: dict_del k t
  end.

(** [d.update(e)], also the dict display [{**d, **e}]. *)
Definition dict_update (d e : dict) : dict :=
  fold_left (fun acc kv => dict_set (fst kv) (snd kv) acc) e d.

(** The keys of [d], in order. *)
Definition dict_keys (d : dict) : list string := map fst d.

(** *** int and float *)

(** [int.__repr__]: decimal digits, with a minus sign for negatives. *)
Definition int_repr (z : Z) : string := NilZero.string_of_int (Z.to_int z).

(** [n] written with at least [width] digits, zero padded ("%0<width>d",
    [n] not negative). *)
Fixpoint zeros (k : nat) : string :=
  match k with O => "" | S k' => String "0" (zeros k') end.

Definition zero_pad (width : nat) (n : Z) : string :=
  let s := int_repr n in
  zeros (width - String.length s) +:+ s.

(** The quotient [n / d] rounded to the nearest integer, ties to even
    ([0 <= n], [0 < d]). *)
Definition round_half_even (n d : Z) : Z :=
  let q := n / d in
  match Z.compare (2 * (n mod d)) d with
  | Lt => q
  | Gt => q + 1
  | Eq => if Z.even q then q else q + 1
  end.

(** The binary64 number nearest to [n / d], ties to even, with sign [s]
    ([0 <= n], [0 < d]): what strtod returns for a decimal literal. *)
Definition nearest_double (s : bool) (n d : Z) : spec_float :=
  if n =? 0 then S754_zero s else
  let k := Z.log2 n - Z.log2 d in
  let below := if k >=? 0 then n <? d * 2 ^ k else n * 2 ^ (- k) <? d in
  let lg := if below then k - 1 else k in
  let e := Z.max (lg - 52) (-1074) in
  let m := if e >=? 0 then round_half_even n (d * 2 ^ e)
           else round_half_even (n * 2 ^ (- e)) d in
  if m =? 0 then S754_zero s else
  let '(m', e') := if m =? 2 ^ 53 then (2 ^ 52, e + 1) else (m, e) in
  if e' >? 971 then S754_infinity s else S754_finite s (Z.to_pos m') e'.

Definition pow10 (k : Z) : Z := 10 ^ k.

(** [round(x, ndigits)] on a float (CPython's float.__round__: the exact
    value of [x] is rounded to [ndigits] decimals, ties to even, and the
    decimal result is read back as a double). *)
Definition round (x : float) (ndigits : Z) : res float :=
  match Prim2SF x with
  | S754_finite s m e =>
      if ndigits >? 323 then Ok x
      else if ndigits <? -308 then Ok (0 * x)%float
      else
        let n2 := if e >=? 0 then Zpos m * 2 ^ e else Zpos m in
        let d2 := if e >=? 0 then 1 else 2 ^ (- e) in
        let q := if ndigits >=? 0 then round_half_even (n2 * pow10 ndigits) d2
                 else round_half_even n2 (d2 * pow10 (- ndigits)) in
        let r := if ndigits >=? 0 then nearest_double s q (pow10 ndigits)
                 else nearest_double s (q * pow10 (- ndigits)) 1 in
        match r with
        | S754_infinity _ => Raise OverflowError
        | _ => Ok (SF2Prim r)
        end
  | _ => Ok x
  end.

(** *** float.__repr__ *)

(** [n / d < 10 ^ t]. *)
Definition lt_pow10 (n d t : Z) : bool :=
  if t >=? 0 then n <? d * pow10 t else n * pow10 (- t) <? d.

(** The position of the decimal point: the least [t] with [n / d < 10 ^ t]. *)
Definition decimal_point (n d : Z) : Z :=
  let t0 := ((Z.log2 n - Z.log2 d) * 30103) / 100000 in
  match List.find (lt_pow10 n d) [t0 - 1; t0; t0 + 1; t0 + 2] with
  | Some t => t
  | None => t0 + 3
  end.

(** Does the decimal [c * 10 ^ p] read back as the double [m * 2 ^ e]? *)
Definition reads_back (m : positive) (e : Z) (c p : Z) : bool :=
  let r := if p >=? 0 then nearest_double false (c * pow10 p) 1
           else nearest_double false c (pow10 (- p)) in
  match r with
  | S754_finite _ m' e' => Pos.eqb m m' && (e =? e')
  | _ => false
  end.

(** The shortest decimal that reads back as [m * 2 ^ e], tried with
    [k], [k + 1], ... significant digits; of two candidates of one length the
    one nearer to the exact value. The result is [(c, p)] for [c * 10 ^ p]. *)
Fixpoint shortest (fuel : nat) (m : positive) (e : Z) (n d t : Z) (k : Z) : Z * Z :=
  let p := t - k in
  let lo := if p >=? 0 then n / (d * pow10 p) else (n * pow10 (- p)) / d in
  let hi := lo + 1 in
  (* is n/d nearer to lo*10^p than to hi*10^p?  2n/d ? (2 lo + 1) 10^p *)
  let side := if p >=? 0 then Z.compare (2 * n) ((2 * lo + 1) * pow10 p * d)
              else Z.compare (2 * n * pow10 (- p)) ((2 * lo + 1) * d) in
  let first := match side with
               | Lt => lo | Gt => hi | Eq => if Z.even lo then lo else hi
               end in
  let second := if first =? lo then hi else lo in
  if reads_back m e first p then (first, p)
  else if reads_back m e second p then (second, p)
  else match fuel with
       | O => (first, p)
       | S fuel' => shortest fuel' m e n d t (k + 1)
       end.

Fixpoint strip_zeros (fuel : nat) (c p : Z) : Z * Z :=
  match fuel with
  | O => (c, p)
  | S fuel' => if (c mod 10 =? 0) && negb (c =? 0) then strip_zeros fuel' (c / 10) (p + 1)
               else (c, p)
  end.

(** The text of a positive finite double from its digits and decimal point,
    as float.__repr__ lays it out. *)
Definition repr_layout (digits : string) (decpt : Z) : string :=
  let nd := Z.of_nat (String.length digits) in
  if (decpt <=? -4) || (decpt >? 16) then
    let ex := decpt - 1 in
    let mant := if nd =? 1 then digits
                else string_take 1 digits +:+ "." +:+ string_drop 1 digits in
    mant +:+ "e" +:+ (if ex <? 0 then "-" else "+") +:+ zero_pad 2 (Z.abs ex)
  else if decpt <=? 0 then
    "0." +:+ zeros (Z.to_nat (- decpt)) +:+ digits
  else if decpt >=? nd then
    digits +:+ zeros (Z.to_nat (decpt - nd)) +:+ ".0"
  else
    string_take (Z.to_nat decpt) digits +:+ "." +:+ string_drop (Z.to_nat decpt) digits.

Definition float_repr (x : float) : string :=
  match Prim2SF x with
  | S754_zero s => if s then "-0.0" else "0.0"
  | S754_infinity s => if s then "-inf" else "inf"
  | S754_nan => "nan"
  | S754_finite s m e =>
      let n := if e >=? 0 then Zpos m * 2 ^ e else Zpos m in
      let d := if e >=? 0 then 1 else 2 ^ (- e) in
      let t := decimal_point n d in
      let '(c, p) := shortest 16 m e n d t 1 in
      let '(c, p) := strip_zeros 17 c p in
      let digits := int_repr c in
      (if s then "-" else "") +:+ repr_layout digits (p + Z.of_nat (String.length digits))
  end.

(** [str(z)] for an int: the decimal digits, refused with ValueError
    beyond 4300 digits (sys.get_int_max_str_digits() of Python 3.11). *)
Definition int_str (z : Z) : res string :=
  if (N.of_nat (String.length (int_repr (Z.abs z))) <=? 4300)%N
  then Ok (int_repr z) else Raise ValueError.

(** [str(v)], as an f-string formats a value.  The text of a list, of a dict
    or of a foreign object is the interpreter's repr of it, taken from
    [other]. *)
Definition str (other : value -> string) (v : value) : res string :=
  match v with
  | VNone => Ok "None"
  | VBool b => Ok (if b then "True" else "False")
  | VInt z => int_str z
  | VFloat f => Ok (float_repr f)
  | VStr s => Ok s
  | _ => Ok (other v)
  end.

(** *** json.dumps(obj, ensure_ascii=False) *)

Definition hex_digit (n : nat) : ascii :=
  match String.get n "0123456789abcdef" with Some c => c | None => "0"%char end.

(** One character of a str inside a JSON string literal
    (json.encoder.encode_basestring). *)
Definition escape_char (c : ascii) : string :=
  let n := nat_of_ascii c in
  if Ascii.eqb c dquote then String "\" (String dquote "")
  else if Ascii.eqb c "\"%char then "\\"
  else if Ascii.eqb c "010"%char then "\n"
  else if Ascii.eqb c "013"%char then "\r"
  else if Ascii.eqb c "009"%char then "\t"
  else if Ascii.eqb c "008"%char then "\b"
  else if Ascii.eqb c "012"%char then "\f"
  else if (n <? 32)%nat then
    "\u00" +:+ String (hex_digit (n / 16)) (String (hex_digit (n mod 16)) "")
  else String c "".

Fixpoint escape (s : string) : string :=
  match s with
  | EmptyString => ""
  | String c s' => escape_char c +:+ escape s'
  end.

Definition encode_basestring (s : string) : string :=
  String dquote (escape s +:+ String dquote "").

(** json.encoder's floatstr. *)
Definition floatstr (f : float) : string :=
  match Prim2SF f with
  | S754_nan => "NaN"
  | S754_infinity s => if s then "-Infinity" else "Infinity"
  | _ => float_repr f
  end.

(** The JSON text of [v]; TypeError on an object json cannot encode. *)
Fixpoint json_dumps (v : value) : res string :=
  match v with
  | VNone => Ok "null"
  | VBool b => Ok (if b then "true" else "false")
  | VInt z => int_str z
  | VFloat f => Ok (floatstr f)
  | VStr s => Ok (encode_basestring s)
  | VList l =>
      let items :=
        (fix items (l : list value) : res (list string) :=
           match l with
           | [] => Ok []
           | x :: t =>
               match json_dumps x with
               | Raise e => Raise e
               | Ok sx =>
                   match items t with
                   | Raise e => Raise e
                   | Ok st => Ok (sx :: st)
                   end
               end
           end) l in
      match items with
      | Raise e => Raise e
      | Ok parts => Ok ("[" +:+ join ", " parts +:+ "]")
      end
  | VDict d =>
      let items :=
        (fix items (d : dict) : res (list string) :=
           match d with
           | [] => Ok []
           | (k, x) :: t =>
               match json_dumps x with
               | Raise e => Raise e
               | Ok sx =>
                   match items t with
                   | Raise e => Raise e
                   | Ok st => Ok ((encode_basestring k +:+ ": " +:+ sx) :: st)
                   end
               end
           end) d in
      match items with
      | Raise e => Raise e
      | Ok parts => Ok ("{" +:+ join ", " parts +:+ "}")
      end
  | VObj _ => Raise TypeError
  end.

(** *** datetime and time *)

Record datetime : Type := {
  year : Z; month : Z; day : Z;
  hour : Z; minute : Z; second : Z; microsecond : Z
}.

Definition _DI400Y : Z := 146097.
Definition _DI100Y : Z := 36524.
Definition _DI4Y : Z := 1461.

(** Days before the first of month [m] in a common year, and the length of
    month [m] (index 0 unused). *)
Definition _DAYS_BEFORE_MONTH (m : Z) : Z :=
  nth (Z.to_nat m) [0; 0; 31; 59; 90; 120; 151; 181; 212; 243; 273; 304; 334] 0.
Definition _DAYS_IN_MONTH (m : Z) : Z :=
  nth (Z.to_nat m) [0; 31; 28; 31; 30; 31; 30; 31; 31; 30; 31; 30; 31] 0.

(** datetime._ord2ymd: the proleptic Gregorian date of an ordinal, where
    ordinal 1 is 0001-01-01. *)
Definition _ord2ymd (n : Z) : Z * Z * Z :=
  let n := n - 1 in
  let n400 := n / _DI400Y in let n := n mod _DI400Y in
  let y := n400 * 400 + 1 in
  let n100 := n / _DI100Y in let n := n mod _DI100Y in
  let n4 := n / _DI4Y in let n := n mod _DI4Y in
  let n1 := n / 365 in let n := n mod 365 in
  let y := y + n100 * 100 + n4 * 4 + n1 in
  if (n1 =? 4) || (n100 =? 4) then (y - 1, 12, 31)
  else
    let leapyear := (n1 =? 3) && (negb (n4 =? 24) || (n100 =? 3)) in
    let m := Z.shiftr (n + 50) 5 in
    let preceding := _DAYS_BEFORE_MONTH m + (if (m >? 2) && leapyear then 1 else 0) in
    if preceding >? n then
      let m := m - 1 in
      let preceding := preceding - (_DAYS_IN_MONTH m + (if (m =? 2) && leapyear then 1 else 0)) in
      (y, m, n - preceding + 1)
    else (y, m, n - preceding + 1).

(** The ordinal of 1970-01-01. *)
Definition EPOCH_ORDINAL : Z := 719163.

(** datetime.utcfromtimestamp for a clock reading in microseconds since the
    epoch: ValueError outside the years 1 to 9999. *)
Definition utcfromtimestamp (us : Z) : res datetime :=
  let secs := us / 1000000 in
  let days := secs / 86400 in
  let rem := secs mod 86400 in
  let '(y, m, d) := _ord2ymd (days + EPOCH_ORDINAL) in
  if (1 <=? y) && (y <=? 9999) then
    Ok {| year := y; month := m; day := d;
          hour := rem / 3600; minute := (rem mod 3600) / 60; second := rem mod 60;
          microsecond := us mod 1000000 |}
  else Raise ValueError.

(** [dt.isoformat()] of a naive datetime. *)
Definition isoformat (dt : datetime) : string :=
  zero_pad 4 (year dt) +:+ "-" +:+ zero_pad 2 (month dt) +:+ "-" +:+ zero_pad 2 (day dt)
  +:+ "T" +:+ zero_pad 2 (hour dt) +:+ ":" +:+ zero_pad 2 (minute dt) +:+ ":"
  +:+ zero_pad 2 (second dt)
  +:+ (if microsecond dt =? 0 then "" else "." +:+ zero_pad 6 (microsecond dt)).

(** A time.struct_time, the fields this program reads: the date and the
    daylight saving flag. *)
Record struct_time : Type := { tm_year : Z; tm_mon : Z; tm_mday : Z; tm_isdst : bool }.

(** time.localtime(t) in a zone that is [offset] seconds east of UTC at [t],
    with daylight saving flag [dst]. *)
Definition localtime (zone : Z -> Z * bool) (t : Z) : struct_time :=
  let '(offset, dst) := zone t in
  let '(y, m, d) := _ord2ymd ((t + offset) / 86400 + EPOCH_ORDINAL) in
  {| tm_year := y; tm_mon := m; tm_mday := d; tm_isdst := dst |}.

(** time.strftime of the format %Y-%m-%d (glibc: the year is not padded). *)
Definition strftime_ymd (t : struct_time) : string :=
  int_repr (tm_year t) +:+ "-" +:+ zero_pad 2 (tm_mon t) +:+ "-" +:+ zero_pad 2 (tm_mday t).

(** *** os.path (posixpath) *)

Definition isabs (p : string) : bool := startswith "/" p.

(** os.path.join(a, b). *)
Definition path_join (a b : string) : string :=
  if startswith "/" b then b
  else if String.eqb a "" || endswith_char "/" a then a +:+ b
  else a +:+ "/" +:+ b.

(** os.path.normpath. *)
Definition normpath (path : string) : string :=
  if String.eqb path "" then "." else
  let initial_slashes : nat :=
    if startswith "/" path then
      if startswith "//" path && negb (startswith "///" path) then 2%nat else 1%nat
    else 0%nat in
  let step (new_comps : list string) (comp : string) : list string :=
    if String.eqb comp "" || String.eqb comp "." then new_comps
    else if negb (String.eqb comp "..")
            || ((initial_slashes =? 0)%nat && match new_comps with [] => true | _ => false end)
            || match new_comps with top :: _ => String.eqb top ".." | [] => false end
         then comp :: new_comps
         else match new_comps with _ :: rest => rest | [] => [] end in
  let comps := rev (fold_left step (split "/" path) []) in
  let p := string_take initial_slashes "//" +:+ join "/" comps in
  if String.eqb p "" then "." else p.

(** os.path.abspath in the working directory [cwd]. *)
Definition abspath (cwd path : string) : string :=
  normpath (if isabs path then path else path_join cwd path).

(** os.path.split. *)
Definition path_split (p : string) : string * string :=
  let '(head, tail) := rpartition "/" p in
  let head := if String.eqb (rstrip "/" head) "" then head else rstrip "/" head in
  (head, tail).

(** os.path.splitext of a file name without directory part: the extension
    starts at the last dot, unless only dots come before it. *)
Fixpoint all_dots (s : string) : bool :=
  match s with
  | EmptyString => true
  | String a s' => Ascii.eqb a "." && all_dots s'
  end.

Definition splitext (p : string) : string * string :=
  let '(head, ext) := rpartition "." p in
  (* head ends with the last dot, if there is one *)
  if String.eqb head "" || all_dots head then (p, "")
  else (string_take (String.length head - 1) head,
        String "." ext).

End Py.

Import Py.

(** ** The process: clock, heap, file system, logging objects *)

Module Sys.

(** A regular file: its bytes and its modification time in seconds. *)
Record file : Type := { f_data : string; f_mtime : Z }.

(** What the logging package prints on sys.stderr: the traceback of an
    exception caught while emitting, or the message of a record that found
    no handler. *)
Inductive stderr_event : Type :=
  | LoggingError (e : exn)
  | LastResort (msg : string).

(** The formatter classes of this program (handler.formatter). *)
Inductive formatter : Type := JsonFormatter.

(** A logging.handlers.TimedRotatingFileHandler. *)
Record handler : Type := {
  h_baseFilename : string;
  h_when : string;
  h_interval : Z;
  h_backupCount : Z;
  h_rolloverAt : Z;
  h_stream : option nat;
  h_level : Z;
  h_formatter : option formatter
}.

(** A logging.Logger: its level and the handlers attached to it. *)
Record logger : Type := { l_level : Z; l_handlers : list nat }.

(** A logging.LogRecord, with the [extra_data] attribute the facade sets: a
    reference to a dict in the heap. *)
Record LogRecord : Type := {
  r_name : string;
  r_levelno : Z;
  r_levelname : string;
  r_msg : string;
  r_created : Z;
  r_extra_data : option nat
}.

(** The state of the process.
    - [w_clock], [w_ticks]: the successive readings of the system clock, in
      microseconds since the epoch, and how many were taken so far;
    - [w_zone]: the local time zone (offset east of UTC and daylight saving
      flag at an instant in seconds);
    - [w_repr]: the interpreter's repr of lists, dicts and foreign objects;
    - [w_cwd]: the working directory;
    - [w_dirs], [w_names], [w_inodes]: the directories and the regular files
      by absolute normalised path (there are no symbolic links), and the
      files themselves by inode;
    - [w_streams]: the open file objects, each on an inode;
    - [w_heap]: the dict objects by identity;
    - [w_loggers]: logging's registry of loggers by name, the root logger
      under "root";
    - [w_handlers]: the handler objects by identity;
    - [w_stderr]: what was written to sys.stderr. *)
Record world : Type := {
  w_clock : nat -> Z;
  w_ticks : nat;
  w_zone : Z -> Z * bool;
  w_repr : value -> string;
  w_cwd : string;
  w_dirs : gset string;
  w_names : gmap string nat;
  w_inodes : gmap nat file;
  w_streams : gmap nat nat;
  w_heap : gmap nat dict;
  w_loggers : gmap string logger;
  w_handlers : gmap nat handler;
  w_stderr : list stderr_event
}.

Definition set_ticks (x : nat) (w : world) : world :=
  {| w_clock := w_clock w; w_ticks := x; w_zone := w_zone w; w_repr := w_repr w;
     w_cwd := w_cwd w; w_dirs := w_dirs w; w_names := w_names w;
     w_inodes := w_inodes w; w_streams := w_streams w; w_heap := w_heap w;
     w_loggers := w_loggers w; w_handlers := w_handlers w; w_stderr := w_stderr w |}.

Definition set_dirs (x : gset string) (w : world) : world :=
  {| w_clock := w_clock w; w_ticks := w_ticks w; w_zone := w_zone w; w_repr := w_repr w;
     w_cwd := w_cwd w; w_dirs := x; w_names := w_names w;
     w_inodes := w_inodes w; w_streams := w_streams w; w_heap := w_heap w;
     w_loggers := w_loggers w; w_handlers := w_handlers w; w_stderr := w_stderr w |}.

Definition set_names (x : gmap string nat) (w : world) : world :=
  {| w_clock := w_clock w; w_ticks := w_ticks w; w_zone := w_zone w; w_repr := w_repr w;
     w_cwd := w_cwd w; w_dirs := w_dirs w; w_names := x;
     w_inodes := w_inodes w; w_streams := w_streams w; w_heap := w_heap w;
     w_loggers := w_loggers w; w_handlers := w_handlers w; w_stderr := w_stderr w |}.

Definition set_inodes (x : gmap nat file) (w : world) : world :=
  {| w_clock := w_clock w; w_ticks := w_ticks w; w_zone := w_zone w; w_repr := w_repr w;
     w_cwd := w_cwd w; w_dirs := w_dirs w; w_names := w_names w;
     w_inodes := x; w_streams := w_streams w; w_heap := w_heap w;
     w_loggers := w_loggers w; w_handlers := w_handlers w; w_stderr := w_stderr w |}.

Definition set_streams (x : gmap nat nat) (w : world) : world :=
  {| w_clock := w_clock w; w_ticks := w_ticks w; w_zone := w_zone w; w_repr := w_repr w;
     w_cwd := w_cwd w; w_dirs := w_dirs w; w_names := w_names w;
     w_inodes := w_inodes w; w_streams := x; w_heap := w_heap w;
     w_loggers := w_loggers w; w_handlers := w_handlers w; w_stderr := w_stderr w |}.

Definition set_heap (x : gmap nat dict) (w : world) : world :=
  {| w_clock := w_clock w; w_ticks := w_ticks w; w_zone := w_zone w; w_repr := w_repr w;
     w_cwd := w_cwd w; w_dirs := w_dirs w; w_names := w_names w;
     w_inodes := w_inodes w; w_streams := w_streams w; w_heap := x;
     w_loggers := w_loggers w; w_handlers := w_handlers w; w_stderr := w_stderr w |}.

Definition set_loggers (x : gmap string logger) (w : world) : world :=
  {| w_clock := w_clock w; w_ticks := w_ticks w; w_zone := w_zone w; w_repr := w_repr w;
     w_cwd := w_cwd w; w_dirs := w_dirs w; w_names := w_names w;
     w_inodes := w_inodes w; w_streams := w_streams w; w_heap := w_heap w;
     w_loggers := x; w_handlers := w_handlers w; w_stderr := w_stderr w |}.

Definition set_handlers (x : gmap nat handler) (w : world) : world :=
  {| w_clock := w_clock w; w_ticks := w_ticks w; w_zone := w_zone w; w_repr := w_repr w;
     w_cwd := w_cwd w; w_dirs := w_dirs w; w_names := w_names w;
     w_inodes := w_inodes w; w_streams := w_streams w; w_heap := w_heap w;
     w_loggers := w_loggers w; w_handlers := x; w_stderr := w_stderr w |}.

Definition set_stderr (x : list stderr_event) (w : world) : world :=
  {| w_clock := w_clock w; w_ticks := w_ticks w; w_zone := w_zone w; w_repr := w_repr w;
     w_cwd := w_cwd w; w_dirs := w_dirs w; w_names := w_names w;
     w_inodes := w_inodes w; w_streams := w_streams w; w_heap := w_heap w;
     w_loggers := w_loggers w; w_handlers := w_handlers w; w_stderr := x |}.

(** *** The monad of calls *)

Definition M (A : Type) : Type := world -> res A * world.

#[export] Instance M_ret : MRet M := fun A a w => (Ok a, w).

#[export] Instance M_bind : MBind M := fun A B f m w =>
  match m w with
  | (Ok a, w') => f a w'
  | (Raise e, w') => (Raise e, w')
  end.

Definition raise {A : Type} (e : exn) : M A := fun w => (Raise e, w).

(** [try: m except Exception as e: h e]. *)
Definition try_except {A : Type} (m : M A) (h : exn -> M A) : M A := fun w =>
  match m w with
  | (Ok a, w') => (Ok a, w')
  | (Raise e, w') => h e w'
  end.

Definition gets {A : Type} (f : world -> A) : M A := fun w => (Ok (f w), w).
Definition modify (f : world -> world) : M unit := fun w => (Ok tt, f w).
Definition lift {A : Type} (r : res A) : M A := fun w => (r, w).

(** [for x in l: f x]. *)
Fixpoint for_each {A : Type} (f : A -> M unit) (l : list A) : M unit :=
  match l with
  | [] => mret tt
  | x :: t => f x ;; for_each f t
  end.

(** *** time *)

(** One reading of the clock, in microseconds. *)
Definition time_us : M Z := fun w =>
  (Ok (w_clock w (w_ticks w)), set_ticks (S (w_ticks w)) w).

(** [int(time.time())]. *)
Definition int_time : M Z := us ← time_us; mret (Z.quot us 1000000).

(** The time the file system stamps a file with: the clock, not advanced. *)
Definition fs_now (w : world) : Z := w_clock w (w_ticks w) / 1000000.

(** *** The heap of dicts *)

Definition alloc (d : dict) : M nat := fun w =>
  let l := fresh (dom (w_heap w)) in
  (Ok l, set_heap (<[l := d]> (w_heap w)) w).

Definition deref (l : nat) : M dict := fun w =>
  match w_heap w !! l with
  | Some d => (Ok d, w)
  | None => (Raise ReferenceError, w)
  end.

Definition store (l : nat) (d : dict) : M unit :=
  modify (fun w => set_heap (<[l := d]> (w_heap w)) w).

(** *** os *)

(** [p] and the directories above it. *)
Fixpoint ancestors (fuel : nat) (p : string) : list string :=
  match fuel with
  | O => [p]
  | S fuel' =>
      let head := fst (path_split p) in
      if String.eqb head p || String.eqb head "" then [p]
      else p :: ancestors fuel' head
  end.

Definition is_file (w : world) (p : string) : bool :=
  bool_decide (is_Some (w_names w !! p)).
Definition is_dir (w : world) (p : string) : bool :=
  bool_decide (p ∈ w_dirs w).

(** os.path.exists and os.path.isfile. *)
Definition path_exists (p : string) : M bool :=
  gets (fun w => is_file w p || is_dir w p).
Definition path_isfile (p : string) : M bool := gets (fun w => is_file w p).

(** os.makedirs(name, exist_ok=True): the directory and the missing ones
    above it are made; it is an error when the name is empty or when a
    regular file stands where a directory is needed. *)
Definition makedirs (name : string) : M unit := fun w =>
  if String.eqb name "" then (Raise FileNotFoundError, w) else
  let p := abspath (w_cwd w) name in
  let chain := ancestors (String.length p) p in
  if is_file w p then (Raise FileExistsError, w)
  else if existsb (is_file w) chain then (Raise NotADirectoryError, w)
  else (Ok tt, set_dirs (list_to_set chain ∪ w_dirs w) w).

(** open(p, 'a', encoding='utf-8'): the file is created when it is not
    there; the result is a new file object. *)
Definition open_append (p : string) : M nat := fun w =>
  if is_dir w p then (Raise IsADirectoryError, w)
  else if is_file w (fst (path_split p)) then (Raise NotADirectoryError, w)
  else if negb (is_dir w (fst (path_split p))) then (Raise FileNotFoundError, w)
  else
    let sid := fresh (dom (w_streams w)) in
    match w_names w !! p with
    | Some ino => (Ok sid, set_streams (<[sid := ino]> (w_streams w)) w)
    | None =>
        let ino := fresh (dom (w_inodes w)) in
        (Ok sid,
         set_streams (<[sid := ino]> (w_streams w))
           (set_inodes (<[ino := {| f_data := ""; f_mtime := fs_now w |}]> (w_inodes w))
              (set_names (<[p := ino]> (w_names w)) w)))
    end.

(** [stream.write(text)] followed by a flush. *)
Definition write (sid : nat) (text : string) : M unit := fun w =>
  match w_streams w !! sid with
  | None => (Raise ValueError, w)
  | Some ino =>
      let old := match w_inodes w !! ino with
                 | Some f => f_data f
                 | None => ""
                 end in
      (Ok tt,
       set_inodes (<[ino := {| f_data := old +:+ text; f_mtime := fs_now w |}]> (w_inodes w)) w)
  end.

(** [stream.close()]. *)
Definition close (sid : nat) : M unit :=
  modify (fun w => set_streams (delete sid (w_streams w)) w).

(** os.stat(p)[ST_MTIME] of a regular file. *)
Definition stat_mtime (p : string) : M Z := fun w =>
  match w_names w !! p with
  | Some ino =>
      (Ok match w_inodes w !! ino with Some f => f_mtime f | None => 0 end, w)
  | None => (Raise FileNotFoundError, w)
  end.

(** os.remove(p). *)
Definition remove (p : string) : M unit := fun w =>
  if is_file w p then (Ok tt, set_names (delete p (w_names w)) w)
  else if is_dir w p then (Raise IsADirectoryError, w)
  else (Raise FileNotFoundError, w).

(** os.rename(src, dst) of a regular file. *)
Definition rename (src dst : string) : M unit := fun w =>
  match w_names w !! src with
  | None => (Raise FileNotFoundError, w)
  | Some ino =>
      if is_dir w dst then (Raise IsADirectoryError, w)
      else if negb (is_dir w (fst (path_split dst))) then (Raise FileNotFoundError, w)
      else (Ok tt, set_names (<[dst := ino]> (delete src (w_names w))) w)
  end.

(** os.listdir(d): the names of the files and directories right under [d]. *)
Definition entries_under (w : world) (d : string) : list string :=
  omap (fun p => let '(head, tail) := path_split p in
                 if String.eqb head d && negb (String.eqb tail "") then Some tail else None)
       (map fst (map_to_list (w_names w)) ++ elements (w_dirs w)).

Definition listdir (d : string) : M (list string) := fun w =>
  if is_dir w d then (Ok (entries_under w d), w) else (Raise FileNotFoundError, w).

(** A write to sys.stderr. *)
Definition stderr_write (ev : stderr_event) : M unit :=
  modify (fun w => set_stderr (w_stderr w ++ [ev]) w).

End Sys.

Import Sys.

(** ** The logging package (Python 3.11), as this program drives it *)

Module Logging.

Definition INFO : Z := 20.
Definition WARNING : Z := 30.

(** The name of the root logger in the registry. *)
Definition root : string := "root".

(** logging._nameToLevel. *)
Definition _nameToLevel (name : string) : option Z :=
  if String.eqb name "CRITICAL" || String.eqb name "FATAL" then Some 50
  else if String.eqb name "ERROR" then Some 40
  else if String.eqb name "WARNING" || String.eqb name "WARN" then Some 30
  else if String.eqb name "INFO" then Some 20
  else if String.eqb name "DEBUG" then Some 10
  else if String.eqb name "NOTSET" then Some 0
  else None.

(** logging.getLevelName of a number. *)
Definition getLevelName (level : Z) : string :=
  if level =? 50 then "CRITICAL"
  else if level =? 40 then "ERROR"
  else if level =? 30 then "WARNING"
  else if level =? 20 then "INFO"
  else if level =? 10 then "DEBUG"
  else if level =? 0 then "NOTSET"
  else "Level " +:+ int_repr level.

(** [getattr(logging, name)] for a name that [upper] returns: the level
    constants are ints, BASIC_FORMAT is a str and _STYLES a dict of tuples;
    the module has no other attribute spelled without lower case letters. *)
Definition getattr_logging (name : string) : res value :=
  match _nameToLevel name with
  | Some n => Ok (VInt n)
  | None =>
      if String.eqb name "BASIC_FORMAT" then Ok (VStr "%(levelname)s:%(name)s:%(message)s")
      else if String.eqb name "_STYLES" then Ok (VObj 0)
      else Raise AttributeError
  end.

(** logging._checkLevel. *)
Definition _checkLevel (level : value) : res Z :=
  match level with
  | VInt n => Ok n
  | VStr s => match _nameToLevel s with Some n => Ok n | None => Raise ValueError end
  | _ => Raise TypeError
  end.

(** *** The registry of loggers *)

(** logging.getLogger(name): the root logger for an empty name or the name
    of the root, else the logger registered under the name, made on first
    use with level NOTSET and no handler.  A logger is referred to by its
    key in the registry. *)
Definition getLogger (name : string) : M string := fun w =>
  let key := if String.eqb name "" || String.eqb name root then root else name in
  match w_loggers w !! key with
  | Some _ => (Ok key, w)
  | None =>
      let lg := {| l_level := if String.eqb key root then WARNING else 0;
                   l_handlers := [] |} in
      (Ok key, set_loggers (<[key := lg]> (w_loggers w)) w)
  end.

Definition the_logger (w : world) (key : string) : logger :=
  match w_loggers w !! key with
  | Some lg => lg
  | None => {| l_level := if String.eqb key root then WARNING else 0; l_handlers := [] |}
  end.

(** [logger.setLevel(level)]. *)
Definition setLevel (key : string) (level : value) : M unit :=
  n ← lift (_checkLevel level);
  modify (fun w =>
    set_loggers (<[key := {| l_level := n; l_handlers := l_handlers (the_logger w key) |}]>
                   (w_loggers w)) w).

(** [logger.handlers.clear()]: the handlers are taken off the logger; they
    are not closed. *)
Definition handlers_clear (key : string) : M unit :=
  modify (fun w =>
    set_loggers (<[key := {| l_level := l_level (the_logger w key); l_handlers := [] |}]>
                   (w_loggers w)) w).

(** [logger.addHandler(hdlr)]. *)
Definition addHandler (key : string) (hid : nat) : M unit :=
  modify (fun w =>
    let lg := the_logger w key in
    if bool_decide (hid ∈ l_handlers lg) then w
    else set_loggers (<[key := {| l_level := l_level lg;
                                  l_handlers := l_handlers lg ++ [hid] |}]>
                        (w_loggers w)) w).

(** [s.rfind(c, 0, bound)], counting positions from [i]. *)
Fixpoint rfind_upto (c : ascii) (s : string) (i bound : nat) : option nat :=
  match s with
  | EmptyString => None
  | String a s' =>
      if (i <? bound)%nat then
        match rfind_upto c s' (S i) bound with
        | Some j => Some j
        | None => if Ascii.eqb a c then Some i else None
        end
      else None
  end.

(** The names above a dotted logger name, nearest first, as
    Manager._fixupParents walks them. *)
Fixpoint names_above (fuel : nat) (name : string) (at_dot : option nat) : list string :=
  match fuel, at_dot with
  | S fuel', Some i =>
      if (0 <? i)%nat
      then string_take i name :: names_above fuel' name (rfind_upto "." name 0 (i - 1))
      else []
  | _, _ => []
  end.

(** The loggers a record handed to [key] passes through: the logger, the
    loggers registered under the names above it, and the root logger (every
    logger propagates). *)
Definition lineage (w : world) (key : string) : list string :=
  if String.eqb key root then [root]
  else
    key :: filter (fun n => is_Some (w_loggers w !! n))
             (names_above (String.length key) key
                (rfind_upto "." key 0 (String.length key)))
        ++ [root].

(** *** LogRecord *)

(** [logger.makeRecord(name, level, "", 0, msg, (), None)]. *)
Definition makeRecord (name : string) (level : Z) (msg : string) : M LogRecord :=
  ct ← time_us;
  mret {| r_name := name; r_levelno := level; r_levelname := getLevelName level;
          r_msg := msg; r_created := ct; r_extra_data := None |}.

(** [record.getMessage()] of a record without arguments. *)
Definition getMessage (record : LogRecord) : string := r_msg record.

(** [record.extra_data = ref]. *)
Definition set_extra_data (record : LogRecord) (ref : nat) : LogRecord :=
  {| r_name := r_name record; r_levelno := r_levelno record;
     r_levelname := r_levelname record; r_msg := r_msg record;
     r_created := r_created record; r_extra_data := Some ref |}.

(** *** TimedRotatingFileHandler *)

Definition with_stream (s : option nat) (h : handler) : handler :=
  {| h_baseFilename := h_baseFilename h; h_when := h_when h; h_interval := h_interval h;
     h_backupCount := h_backupCount h; h_rolloverAt := h_rolloverAt h; h_stream := s;
     h_level := h_level h; h_formatter := h_formatter h |}.

Definition with_rolloverAt (t : Z) (h : handler) : handler :=
  {| h_baseFilename := h_baseFilename h; h_when := h_when h; h_interval := h_interval h;
     h_backupCount := h_backupCount h; h_rolloverAt := t; h_stream := h_stream h;
     h_level := h_level h; h_formatter := h_formatter h |}.

Definition with_formatter (f : formatter) (h : handler) : handler :=
  {| h_baseFilename := h_baseFilename h; h_when := h_when h; h_interval := h_interval h;
     h_backupCount := h_backupCount h; h_rolloverAt := h_rolloverAt h;
     h_stream := h_stream h; h_level := h_level h; h_formatter := Some f |}.

Definition get_handler (hid : nat) : M handler := fun w =>
  match w_handlers w !! hid with
  | Some h => (Ok h, w)
  | None => (Raise ReferenceError, w)
  end.

Definition update_handler (hid : nat) (f : handler -> handler) : M unit :=
  modify (fun w => set_handlers (alter f hid (w_handlers w)) w).

(** A new handler object. *)
Definition new_handler (h : handler) : M nat := fun w =>
  let hid := fresh (dom (w_handlers w)) in
  (Ok hid, set_handlers (<[hid := h]> (w_handlers w)) w).

(** [handler.setFormatter(fmt)]. *)
Definition setFormatter (hid : nat) (f : formatter) : M unit :=
  update_handler hid (with_formatter f).

(** TimedRotatingFileHandler.computeRollover when [when] is neither
    MIDNIGHT nor a week day. *)
Definition computeRollover (h : handler) (currentTime : Z) : Z :=
  currentTime + h_interval h.

(** [TimedRotatingFileHandler(filename, when="D", interval, backupCount,
    encoding="utf-8")]: the file is opened for appending at once, the
    interval is counted in days, and the first rollover is due one interval
    after the last modification of the file. *)
Definition TimedRotatingFileHandler_D (filename : string) (interval backupCount : Z) : M nat :=
  cwd ← gets w_cwd;
  let base := abspath cwd filename in
  sid ← open_append base;
  ex ← path_exists base;
  t ← (if (ex : bool) then stat_mtime base else int_time);
  let h := {| h_baseFilename := base; h_when := "D";
              h_interval := 60 * 60 * 24 * interval;
              h_backupCount := backupCount; h_rolloverAt := 0;
              h_stream := Some sid; h_level := 0; h_formatter := None |} in
  new_handler (with_rolloverAt (computeRollover h t) h).

(** TimedRotatingFileHandler.shouldRollover. *)
Definition shouldRollover (hid : nat) : M bool :=
  t ← int_time;
  h ← get_handler hid;
  if t >=? h_rolloverAt h then
    ex ← path_exists (h_baseFilename h);
    isf ← path_isfile (h_baseFilename h);
    if (ex : bool) && negb isf then
      update_handler hid (with_rolloverAt (computeRollover h t)) ;; mret false
    else mret true
  else mret false.

Definition is_digit (a : ascii) : bool :=
  let n := nat_of_ascii a in ((48 <=? n) && (n <=? 57))%nat.

Definition is_word (a : ascii) : bool :=
  let n := nat_of_ascii a in
  (((48 <=? n) && (n <=? 57)) || ((65 <=? n) && (n <=? 90))
   || ((97 <=? n) && (n <=? 122)) || (n =? 95))%nat.

(** A match of d{4}-d{2}-d{2} at the start of [s]; the rest of [s]. *)
Definition match_date (s : string) : option string :=
  match s with
  | String y1 (String y2 (String y3 (String y4 (String s1 (String m1 (String m2
      (String s2 (String d1 (String d2 rest))))))))) =>
      if forallb is_digit [y1; y2; y3; y4; m1; m2; d1; d2]
         && Ascii.eqb s1 "-" && Ascii.eqb s2 "-"
      then Some rest else None
  | _ => None
  end.

(** The end of the subject, or the newline that ends it (the anchor $). *)
Definition at_end (s : string) : bool :=
  String.eqb s "" || String.eqb s (String "010"%char "").

(** [extMatch.match(part)] for the pattern of daily files,
    ^d{4}-d{2}-d{2}(.w+)?$ with ASCII classes.  The group, when it is
    taken, is the longest run of word characters after a dot. *)
Definition extMatch (part : string) : bool :=
  match match_date part with
  | None => false
  | Some rest =>
      at_end rest ||
      match rest with
      | String dot (String a tail) =>
          Ascii.eqb dot "." && is_word a &&
          (fix run (s : string) : bool :=
             at_end s ||
             match s with
             | String b s' => is_word b && run s'
             | EmptyString => false
             end) tail
      | _ => false
      end
  end.

(** TimedRotatingFileHandler.getFilesToDelete (no namer is set). *)
Definition getFilesToDelete (h : handler) : M (list string) :=
  let '(dirName, baseName) := path_split (h_baseFilename h) in
  fileNames ← listdir dirName;
  let '(n, e) := splitext baseName in
  let prefix := n +:+ "." in
  let plen := String.length prefix in
  let result :=
    omap (fun fileName =>
            if negb (startswith baseName fileName) then None
            else if String.eqb (string_take plen fileName) prefix
                    && existsb extMatch (split "." (string_drop plen fileName))
                 then Some (path_join dirName fileName)
                 else None)
         fileNames in
  if (Z.of_nat (length result) <? h_backupCount h) then mret []
  else mret (take (Z.to_nat (Z.of_nat (length result) - h_backupCount h))
                  (merge_sort String.le result)).

(** TimedRotatingFileHandler.doRollover for a handler that is not in UTC and
    whose interval is positive (the loop that skips missed intervals then
    has nothing to do).  The live path is taken to be a regular file or
    absent: [rename] raises for a directory, which os.rename would move. *)
Definition doRollover (hid : nat) : M unit :=
  h ← get_handler hid;
  match h_stream h with
  | Some s => close s ;; update_handler hid (with_stream None)
  | None => mret tt
  end ;;
  currentTime ← int_time;
  zone ← gets w_zone;
  let dstNow := tm_isdst (localtime zone currentTime) in
  let t := h_rolloverAt h - h_interval h in
  let timeTuple := localtime zone t in
  let dstThen := tm_isdst timeTuple in
  let timeTuple :=
    if Bool.eqb dstNow dstThen then timeTuple
    else localtime zone (t + (if dstNow then 3600 else -3600)) in
  let dfn := h_baseFilename h +:+ "." +:+ strftime_ymd timeTuple in
  ex ← path_exists dfn;
  (if (ex : bool) then remove dfn else mret tt) ;;
  ex ← path_exists (h_baseFilename h);
  (if (ex : bool) then rename (h_baseFilename h) dfn else mret tt) ;;
  (if h_backupCount h >? 0 then
     files ← getFilesToDelete h; for_each remove files
   else mret tt) ;;
  s ← open_append (h_baseFilename h);
  update_handler hid (with_stream (Some s)) ;;
  update_handler hid (with_rolloverAt (computeRollover h currentTime)).

Section Emit.

(** The format method of the formatter classes, defined by the program. *)
Variable Formatter_format : formatter -> LogRecord -> M string.

(** Handler.format: the handler's formatter, or the default one, which
    gives the message. *)
Definition Handler_format (h : handler) (record : LogRecord) : M string :=
  match h_formatter h with
  | Some f => Formatter_format f record
  | None => mret (getMessage record)
  end.

(** Handler.handleError: the traceback goes to sys.stderr and the
    exception is dropped. *)
Definition handleError (e : exn) : M unit := stderr_write (LoggingError e).

(** StreamHandler.emit. *)
Definition StreamHandler_emit (hid : nat) (s : nat) (record : LogRecord) : M unit :=
  try_except
    (h ← get_handler hid;
     msg ← Handler_format h record;
     write s (msg +:+ String "010"%char ""))
    handleError.

(** FileHandler.emit (the mode is 'a'). *)
Definition FileHandler_emit (hid : nat) (record : LogRecord) : M unit :=
  h ← get_handler hid;
  s ← match h_stream h with
      | Some s => mret s
      | None =>
          s ← open_append (h_baseFilename h);
          update_handler hid (with_stream (Some s)) ;; mret s
      end;
  StreamHandler_emit hid s record.

(** BaseRotatingHandler.emit. *)
Definition emit (hid : nat) (record : LogRecord) : M unit :=
  try_except
    (b ← shouldRollover hid;
     (if (b : bool) then doRollover hid else mret tt) ;;
     FileHandler_emit hid record)
    handleError.

(** Logger.callHandlers: every handler of the loggers in the lineage whose
    level admits the record; a record that found no handler at all goes to
    the handler of last resort, which prints warnings and above. *)
Definition callHandlers (key : string) (record : LogRecord) : M unit :=
  hs ← gets (fun w => concat (map (fun n => l_handlers (the_logger w n)) (lineage w key)));
  for_each (fun hid =>
              h ← get_handler hid;
              if r_levelno record >=? h_level h then emit hid record else mret tt)
           hs ;;
  if (length hs =? 0)%nat then
    if r_levelno record >=? WARNING then stderr_write (LastResort (getMessage record))
    else mret tt
  else mret tt.

(** Logger.handle: the logger is enabled and has no filter. *)
Definition handle (key : string) (record : LogRecord) : M unit :=
  callHandlers key record.

End Emit.

End Logging.

(** ** The module under verification: src/utils/logger.py *)

Module Logger.

Import Logging.

(** [JsonFormatter.format]. *)
Definition JsonFormatter_format (record : LogRecord) : M string :=
  us ← time_us;
  now ← lift (utcfromtimestamp us);
  let log_entry : dict :=
    [("timestamp", VStr (isoformat now +:+ "Z"));
     ("level", VStr (r_levelname record));
     ("message", VStr (getMessage record))] in
  log_entry ← match r_extra_data record with
              | Some ref => extra_data ← deref ref; mret (dict_update log_entry extra_data)
              | None => mret log_entry
              end;
  lift (json_dumps (VDict log_entry)).

(** The format method of a formatter object. *)
Definition Formatter_format (f : formatter) : LogRecord -> M string :=
  match f with
  | JsonFormatter => JsonFormatter_format
  end.

(** [create_logger(name, log_dir, level)]; the logger returned is referred
    to by its key in the registry. *)
Definition create_logger (name log_dir level : string) : M string :=
  makedirs log_dir ;;
  logger ← getLogger name;
  lv ← lift (getattr_logging (upper level));
  setLevel logger lv ;;
  handlers_clear logger ;;
  handler ← TimedRotatingFileHandler_D (path_join log_dir (name +:+ ".jsonl")) 1 14;
  setFormatter handler JsonFormatter ;;
  addHandler logger handler ;;
  mret logger.

(** An instance of [CCTVLogger]. *)
Record CCTVLogger : Type := {
  log_dir : string;
  event_logger : string;
  threat_logger : string
}.

(** [CCTVLogger.__init__]. *)
Definition CCTVLogger_init (log_dir level : string) : M CCTVLogger :=
  event_logger ← create_logger "events" log_dir level;
  threat_logger ← create_logger "threats" log_dir level;
  mret {| log_dir := log_dir; event_logger := event_logger;
          threat_logger := threat_logger |}.

(** [CCTVLogger._mask_ip]: calling [split] on anything but a str raises
    AttributeError. *)
Definition _mask_ip (ip : value) : res value :=
  match ip with
  | VStr s =>
      let parts := split "." s in
      if (length parts =? 4)%nat then
        match parts with
        | p0 :: p1 :: p2 :: _ =>
            Ok (VStr (p0 +:+ "." +:+ p1 +:+ "." +:+ p2 +:+ ".xxx"))
        | _ => Ok (VStr "unknown")
        end
      else Ok (VStr "unknown")
  | _ => Raise AttributeError
  end.

(** Binding of keyword arguments: a keyword that names a positional
    parameter of the method is refused with TypeError. *)
Definition bind_kwargs (params : list string) (kwargs : dict) : M unit :=
  if existsb (fun k => existsb (String.eqb k) params) (dict_keys kwargs)
  then raise TypeError else mret tt.

(** [CCTVLogger.log_network_event]. *)
Definition log_network_event (self : CCTVLogger)
    (event_type src_ip dst_ip : string) (port : Z) (protocol : string)
    (kwargs : dict) : M unit :=
  bind_kwargs ["self"; "event_type"; "src_ip"; "dst_ip"; "port"; "protocol"] kwargs ;;
  src ← lift (_mask_ip (VStr src_ip));
  dst ← lift (_mask_ip (VStr dst_ip));
  extra_data ← alloc (dict_update
    [("category", VStr "network");
     ("event_type", VStr event_type);
     ("src_ip", src);
     ("dst_ip", dst);
     ("port", VInt port);
     ("protocol", VStr protocol)] kwargs);
  record ← makeRecord (event_logger self) INFO ("NETWORK: " +:+ event_type);
  let record := set_extra_data record extra_data in
  handle Formatter_format (event_logger self) record.

(** [CCTVLogger.log_api_request]. *)
Definition log_api_request (self : CCTVLogger)
    (method endpoint src_ip : string) (status_code : Z) (response_time_ms : float)
    (kwargs : dict) : M unit :=
  bind_kwargs ["self"; "method"; "endpoint"; "src_ip"; "status_code"; "response_time_ms"]
    kwargs ;;
  src ← lift (_mask_ip (VStr src_ip));
  rounded ← lift (round response_time_ms 2);
  extra_data ← alloc (dict_update
    [("category", VStr "api");
     ("method", VStr method);
     ("endpoint", VStr endpoint);
     ("src_ip", src);
     ("status_code", VInt status_code);
     ("response_time_ms", VFloat rounded)] kwargs);
  record ← makeRecord (event_logger self) INFO
             ("API: " +:+ method +:+ " " +:+ endpoint);
  let record := set_extra_data record extra_data in
  handle Formatter_format (event_logger self) record.

(** [CCTVLogger.log_threat]; [threat] is a reference to the caller's dict. *)
Definition log_threat (self : CCTVLogger) (category : string) (threat : nat) : M unit :=
  d ← deref threat;
  threat_data ← alloc (dict_update [("category", VStr category)] d);
  td ← deref threat_data;
  (if dict_mem "src_ip" td then
     masked ← lift (_mask_ip (default VNone (dict_get "src_ip" td)));
     store threat_data (dict_set "src_ip_masked" masked td) ;;
     td ← deref threat_data;
     store threat_data (dict_del "src_ip" td)
   else mret tt) ;;
  d ← deref threat;
  repr ← gets w_repr;
  threat_type ← lift (str repr (default (VStr "UNKNOWN") (dict_get "threat_type" d)));
  record ← makeRecord (threat_logger self) WARNING ("THREAT: " +:+ threat_type);
  let record := set_extra_data record threat_data in
  handle Formatter_format (threat_logger self) record.

End Logger.

Import Logging Logger.

(** ** Vocabulary of the statements *)

(** A string made of exactly four dot-separated segments. *)
Definition dotted_quad (ip a b c d : string) : Prop :=
  contains "." a = false /\ contains "." b = false /\
  contains "." c = false /\ contains "." d = false /\
  ip = a +:+ "." +:+ b +:+ "." +:+ c +:+ "." +:+ d.




(** The bytes of the file with inode [ino]. *)
Definition data (w : world) (ino : nat) : string :=
  match w_inodes w !! ino with
  | Some f => f_data f
  | None => ""
  end.

(** The text of some lines, each ended by a line feed. *)
Definition lines_text (lines : list string) : string :=
  fold_right (fun l acc => l +:+ String "010"%char acc) "" lines.

(** Between [w] and [w'] files were only appended to, and what was appended
    to a file is a sequence of whole lines that satisfy [P]. *)
Definition appended (P : string -> Prop) (w w' : world) : Prop :=
  forall ino, exists lines,
    data w' ino = data w ino +:+ lines_text lines /\ Forall P lines.

(** The dict [JsonFormatter.format] serialises for a record of level name
    [lv] and message [msg] whose extra data is [E], when the clock reads
    [now]. *)
Definition log_entry_of (now : datetime) (lv msg : string) (E : dict) : dict :=
  dict_update
    [("timestamp", VStr (isoformat now +:+ "Z"));
     ("level", VStr lv);
     ("message", VStr msg)] E.

(** [line] is the JSON text of such a dict, for a reading of the clock
    [clk] numbered from [lo] up to, not including, [hi]. *)
Definition formatted (clk : nat -> Z) (lo hi : nat) (lv msg : string) (E : dict)
    (line : string) : Prop :=
  exists n now,
    (lo <= n < hi)%nat /\ utcfromtimestamp (clk n) = Ok now /\
    json_dumps (VDict (log_entry_of now lv msg E)) = Ok line.

(** A step of the process that leaves the clock, the heap and the loggers
    as they are, and keeps every handler and its formatter. *)
Definition kept (w w' : world) : Prop :=
  w_clock w' = w_clock w /\ w_heap w' = w_heap w /\ w_loggers w' = w_loggers w /\
  (w_ticks w <= w_ticks w')%nat /\
  (forall hid h, w_handlers w !! hid = Some h ->
     exists h', w_handlers w' !! hid = Some h' /\ h_formatter h' = h_formatter h).

(** Such a step that, besides, writes to no file. *)
Definition quiet (w w' : world) : Prop :=
  kept w w' /\ forall ino, data w' ino = data w ino.

(** Every call of [m] ends in a world related to the one it started in, and
    keeps the invariant [I]. *)
Definition steps (I : world -> Prop) (R : world -> world -> Prop) {A : Type} (m : M A) : Prop :=
  forall w r w', I w -> m w = (r, w') -> I w' /\ R w w'.

(** Every handler attached to a logger exists and formats with
    JsonFormatter (so it is in every world [create_logger] leaves). *)
Definition handlers_ok (w : world) : Prop :=
  forall key lg hid,
    w_loggers w !! key = Some lg -> In hid (l_handlers lg) ->
    exists h, w_handlers w !! hid = Some h /\ h_formatter h = Some JsonFormatter.

(** While the record whose extra data is the dict [E] at [ref] is handed to
    the handlers in [S]: the clock is [clk], the dict is where it was, and
    the handlers in [S] exist and format with JsonFormatter. *)
Definition emit_inv (clk : nat -> Z) (ref : nat) (E : dict) (S : nat -> Prop)
    (w : world) : Prop :=
  w_clock w = clk /\ w_heap w !! ref = Some E /\
  forall hid, S hid ->
    exists h, w_handlers w !! hid = Some h /\ h_formatter h = Some JsonFormatter.

(** What handing the record over does: the clock was read some more times,
    and every line appended to a file is the record formatted at one of
    these readings. *)
Definition emit_rel (clk : nat -> Z) (lv msg : string) (E : dict) (w w' : world) : Prop :=
  kept w w' /\
  appended (formatted clk (w_ticks w) (w_ticks w') lv msg E) w w'.

(** The handlers attached to some logger of [w]. *)
Definition attached (w : world) (hid : nat) : Prop :=
  exists key lg, w_loggers w !! key = Some lg /\ In hid (l_handlers lg).

(** *** The facade, call by call *)

(** A call of one of the three logging methods of [CCTVLogger]. *)
Inductive call : Type :=
  | NetworkEvent (event_type src_ip dst_ip : string) (port : Z) (protocol : string)
      (kwargs : dict)
  | ApiRequest (method endpoint src_ip : string) (status_code : Z)
      (response_time_ms : float) (kwargs : dict)
  | Threat (category : string) (threat : nat).

Definition run_call (self : CCTVLogger) (c : call) : M unit :=
  match c with
  | NetworkEvent event_type src_ip dst_ip port protocol kwargs =>
      log_network_event self event_type src_ip dst_ip port protocol kwargs
  | ApiRequest method endpoint src_ip status_code response_time_ms kwargs =>
      log_api_request self method endpoint src_ip status_code response_time_ms kwargs
  | Threat category threat => log_threat self category threat
  end.

(** The extra data each method attaches to its record, as a function of the
    arguments (for a threat, of the caller's dict [d]). *)
Definition network_record (event_type src_ip dst_ip : string) (port : Z)
    (protocol : string) (kwargs : dict) : res dict :=
  if existsb (fun k => existsb (String.eqb k)
                ["self"; "event_type"; "src_ip"; "dst_ip"; "port"; "protocol"])
       (dict_keys kwargs)
  then Raise TypeError
  else
    match _mask_ip (VStr src_ip) with
    | Raise e => Raise e
    | Ok src =>
        match _mask_ip (VStr dst_ip) with
        | Raise e => Raise e
        | Ok dst =>
            Ok (dict_update
                  [("category", VStr "network"); ("event_type", VStr event_type);
                   ("src_ip", src); ("dst_ip", dst); ("port", VInt port);
                   ("protocol", VStr protocol)] kwargs)
        end
    end.

Definition api_record (method endpoint src_ip : string) (status_code : Z)
    (response_time_ms : float) (kwargs : dict) : res dict :=
  if existsb (fun k => existsb (String.eqb k)
                ["self"; "method"; "endpoint"; "src_ip"; "status_code"; "response_time_ms"])
       (dict_keys kwargs)
  then Raise TypeError
  else
    match _mask_ip (VStr src_ip) with
    | Raise e => Raise e
    | Ok src =>
        match round response_time_ms 2 with
        | Raise e => Raise e
        | Ok rounded =>
            Ok (dict_update
                  [("category", VStr "api"); ("method", VStr method);
                   ("endpoint", VStr endpoint); ("src_ip", src);
                   ("status_code", VInt status_code);
                   ("response_time_ms", VFloat rounded)] kwargs)
        end
    end.

Definition threat_record (category : string) (d : dict) : res dict :=
  let td := dict_update [("category", VStr category)] d in
  if dict_mem "src_ip" td then
    match _mask_ip (default VNone (dict_get "src_ip" td)) with
    | Raise e => Raise e
    | Ok masked => Ok (dict_del "src_ip" (dict_set "src_ip_masked" masked td))
    end
  else Ok td.

Definition call_fields (w : world) (c : call) : res dict :=
  match c with
  | NetworkEvent event_type src_ip dst_ip port protocol kwargs =>
      network_record event_type src_ip dst_ip port protocol kwargs
  | ApiRequest method endpoint src_ip status_code response_time_ms kwargs =>
      api_record method endpoint src_ip status_code response_time_ms kwargs
  | Threat category threat =>
      match w_heap w !! threat with
      | Some d => threat_record category d
      | None => Raise ReferenceError
      end
  end.

(** The message of the record. *)
Definition call_message (w : world) (c : call) : res string :=
  match c with
  | NetworkEvent event_type _ _ _ _ _ => Ok ("NETWORK: " +:+ event_type)
  | ApiRequest method endpoint _ _ _ _ => Ok ("API: " +:+ method +:+ " " +:+ endpoint)
  | Threat _ threat =>
      match w_heap w !! threat with
      | Some d =>
          match str (w_repr w) (default (VStr "UNKNOWN") (dict_get "threat_type" d)) with
          | Ok t => Ok ("THREAT: " +:+ t)
          | Raise e => Raise e
          end
      | None => Raise ReferenceError
      end
  end.

(** The level name of the record. *)
Definition call_level (c : call) : string :=
  match c with
  | Threat _ _ => "WARNING"
  | _ => "INFO"
  end.

(** What a call of the facade does, from the world [w] it starts in: the
    handlers stay in order, the clock, the loggers and the dicts that were
    in the heap are untouched, and
    - when the arguments are refused, the masker fails on a threat's src_ip
      or the message cannot be formatted, the exception reaches the caller
      and no file is written to;
    - otherwise the call returns normally and every line appended to a file
      is the record, formatted by [JsonFormatter.format] at a reading of the
      clock taken during the call. *)
Definition call_outcome (c : call) (w : world) (r : res unit) (w' : world) : Prop :=
  handlers_ok w' /\ w_clock w' = w_clock w /\ (w_ticks w <= w_ticks w')%nat /\
  w_loggers w' = w_loggers w /\
  (forall l x, w_heap w !! l = Some x -> w_heap w' !! l = Some x) /\
  match call_fields w c with
  | Raise e => r = Raise e /\ forall ino, data w' ino = data w ino
  | Ok E =>
      match call_message w c with
      | Raise e => r = Raise e /\ forall ino, data w' ino = data w ino
      | Ok msg =>
          r = Ok tt /\
          appended (formatted (w_clock w) (w_ticks w) (w_ticks w') (call_level c) msg E)
            w w'
      end
  end.

(** [w1] is [w] with more dicts in the heap. *)
Definition heap_grown (w w1 : world) : Prop :=
  w_clock w1 = w_clock w /\ w_ticks w1 = w_ticks w /\ w_loggers w1 = w_loggers w /\
  w_handlers w1 = w_handlers w /\ w_inodes w1 = w_inodes w /\ w_repr w1 = w_repr w /\
  forall l x, w_heap w !! l = Some x -> w_heap w1 !! l = Some x.

(** The key under which [logging.getLogger(name)] keeps the logger. *)
Definition logger_key (name : string) : string :=
  if String.eqb name "" || String.eqb name root then root else name.

(** The file a channel appends to. *)
Definition channel_file (w : world) (log_dir name : string) : string :=
  abspath (w_cwd w) (path_join log_dir (name +:+ ".jsonl")).

(** What a successful [create_logger(name, log_dir, level)] does to the
    logging objects: the logger registered under the name's key now has
    exactly one handler; the handler is a new object, open through a new
    file object on the channel's file, set for daily rotation with 14
    backups and formatting with JsonFormatter.  Handlers and file objects
    that existed stay as they were. *)
Definition created (name log_dir : string) (w : world) (key : string) (w' : world) : Prop :=
  key = logger_key name /\
  exists hid h sid ino lvl,
    w_handlers w !! hid = None /\
    w_handlers w' = <[hid := h]> (w_handlers w) /\
    w_loggers w' = <[key := {| l_level := lvl; l_handlers := [hid] |}]> (w_loggers w) /\
    h_baseFilename h = channel_file w log_dir name /\
    h_when h = "D" /\ h_interval h = 86400 /\ h_backupCount h = 14 /\
    h_level h = 0 /\ h_formatter h = Some JsonFormatter /\ h_stream h = Some sid /\
    w_streams w !! sid = None /\
    w_streams w' = <[sid := ino]> (w_streams w) /\
    w_names w' !! h_baseFilename h = Some ino.

(** The loggers registered under other keys. *)
Definition others_same (key : string) (w w' : world) : Prop :=
  forall k, k <> key -> w_loggers w' !! k = w_loggers w !! k.

(** *** A process to run the examples in *)

(** A fresh process in /app: nothing logged yet, the clock at
    2024-01-01T00:00:00Z and one millisecond further at each reading, the
    zone UTC, and one dict in the heap, the threat of the specification's
    example. *)
Definition init_world : world :=
  {| w_clock := fun n => 1704067200000000 + 1000 * Z.of_nat n;
     w_ticks := 0;
     w_zone := fun _ => (0, false);
     w_repr := fun _ => "<object>";
     w_cwd := "/app";
     w_dirs := {[ "/"; "/app" ]};
     w_names := ∅;
     w_inodes := ∅;
     w_streams := ∅;
     w_heap := {[ 7%nat := [("threat_type", VStr "PORT_SCAN"); ("severity", VStr "HIGH");
                            ("src_ip", VStr "10.0.0.5"); ("ports_scanned", VInt 15)] ]};
     w_loggers := ∅;
     w_handlers := ∅;
     w_stderr := [] |}.

(** [CCTVLogger()] in that process. *)
Definition demo_self : CCTVLogger :=
  {| log_dir := "./data/logs"; event_logger := "events"; threat_logger := "threats" |}.

Definition demo_world : world :=
  snd (CCTVLogger_init "./data/logs" "INFO" init_world).

(** The text of a record: its JSON object and a line feed. *)
Definition record_text (entry : dict) : string :=
  match json_dumps (VDict entry) with
  | Ok line => line +:+ String "010"%char ""
  | Raise _ => ""
  end.

(** [line] is the JSON text of a record stamped at reading [n] of the
    clock: its timestamp is that reading in ISO 8601 form followed by Z,
    unless the fields [E] have a timestamp key of their own, whose value
    then stands in its place. *)
Definition stamped (clk : nat -> Z) (n : nat) (E : dict) (line : string) : Prop :=
  exists now entry,
    utcfromtimestamp (clk n) = Ok now /\
    json_dumps (VDict entry) = Ok line /\
    dict_get "timestamp" entry =
      Some (default (VStr (isoformat now +:+ "Z")) (dict_get "timestamp" E)).

(** A threat whose mapping has a category, and one whose mapping has a
    timestamp, in the example process. *)
Definition malware_world : world :=
  set_heap {[ 8%nat := [("category", VStr "malware")] ]} demo_world.

Definition yesterday_world : world :=
  set_heap {[ 8%nat := [("timestamp", VStr "yesterday")] ]} demo_world.

(** *** Rotated files *)

(** Is [fileName] the name of a rotated file of the handler [h], as
    getFilesToDelete decides it? *)
Definition rotated_name (h : handler) (fileName : string) : bool :=
  let baseName := snd (path_split (h_baseFilename h)) in
  let prefix := fst (splitext baseName) +:+ "." in
  startswith baseName fileName
  && String.eqb (string_take (String.length prefix) fileName) prefix
  && existsb extMatch (split "." (string_drop (String.length prefix) fileName)).

(** The rotated files of [h] kept in its directory. *)
Definition retained (h : handler) (w : world) : list string :=
  filter (fun f => rotated_name h f = true)
    (entries_under w (fst (path_split (h_baseFilename h)))).

(** The example process with a clock that advances one day, less a second,
    at every reading. *)
Definition daily_world : world :=
  {| w_clock := fun n => 1704067200000000 + 86399000000 * Z.of_nat n;
     w_ticks := w_ticks demo_world;
     w_zone := w_zone demo_world;
     w_repr := w_repr demo_world;
     w_cwd := w_cwd demo_world;
     w_dirs := w_dirs demo_world;
     w_names := w_names demo_world;
     w_inodes := w_inodes demo_world;
     w_streams := w_streams demo_world;
     w_heap := w_heap demo_world;
     w_loggers := w_loggers demo_world;
     w_handlers := w_handlers demo_world;
     w_stderr := [] |}.

(** The same call of the facade made [n] times. *)
Fixpoint repeat_call (self : CCTVLogger) (c : call) (n : nat) : M unit :=
  match n with
  | O => mret tt
  | S n' => run_call self c ;; repeat_call self c n'
  end.

(** The name under which a path is listed in the directory [d], if it is an
    entry of [d]. *)
Definition entry_of (d p : string) : option string :=
  let '(head, tail) := path_split p in
  if String.eqb head d && negb (String.eqb tail "") then Some tail else None.

(** The name under which the path [p] is one of the rotated files of the
    handler [h], if it is one, and what the path counts for among them. *)
Definition rotated_entry (h : handler) (p : string) : list string :=
  match entry_of (fst (path_split (h_baseFilename h))) p with
  | Some f => if rotated_name h f then [f] else []
  | None => []
  end.


(** The paths of the rotated files of [h] kept in its directory. *)
Definition retained_paths (h : handler) (w : world) : list string :=
  map (path_join (fst (path_split (h_baseFilename h)))) (retained h w).


(** A path made of the handler's directory and the name of a rotated file. *)
Definition rotated_path (h : handler) (p : string) : Prop :=
  exists f, p = path_join (fst (path_split (h_baseFilename h))) f /\
            rotated_name h f = true /\ contains "/" f = false /\ f <> "".

(** A connection seen on the network, logged through the facade. *)
Definition example_event : call :=
  NetworkEvent "connection" "192.168.1.100" "10.0.0.1" 443 "TCP" [].

(** *** The calls, part by part *)



(** The logger a call hands its record to, and the level of the record. *)
Definition call_logger (self : CCTVLogger) (c : call) : string :=
  match c with
  | Threat _ _ => threat_logger self
  | _ => event_logger self
  end.

Definition call_levelno (c : call) : Z :=
  match c with
  | Threat _ _ => WARNING
  | _ => INFO
  end.

(** The handlers a record handed to the logger [key] is passed to, as
    callHandlers collects them. *)
Definition handlers_of (w : world) (key : string) : list nat :=
  concat (map (fun n => l_handlers (the_logger w n)) (lineage w key)).

(** The example process with, in the heap, a threat whose source address
    is a number, and one that has other addresses and texts of its own. *)
Definition numeric_world : world :=
  set_heap {[ 8%nat := [("threat_type", VStr "PORT_SCAN"); ("src_ip", VInt 167772165)] ]}
    demo_world.

Definition verbose_world : world :=
  set_heap {[ 8%nat := [("dst_ip", VStr "192.168.1.10"); ("src_ip", VStr "10.0.0.5");
                        ("threat_type", VInt 7)] ]}
    demo_world.

(** *** The steps of create_logger *)

(** The time of last modification [os.stat] reports for the path [p]. *)
Definition mtime (w : world) (p : string) : Z :=
  match w_names w !! p with
  | Some ino => match w_inodes w !! ino with Some f => f_mtime f | None => 0 end
  | None => 0
  end.

(** The logger [key] with level [n] and the handlers [hs]. *)
Definition with_logger (key : string) (n : Z) (hs : list nat) (w : world) : world :=
  set_loggers (<[key := {| l_level := n; l_handlers := hs |}]> (w_loggers w)) w.

(** The handler [create_logger] makes for the file [base], open through the
    file object [sid] and due for its first rollover at [due]. *)
Definition daily_handler (base : string) (sid : nat) (due : Z) : handler :=
  {| h_baseFilename := base; h_when := "D"; h_interval := 86400; h_backupCount := 14;
     h_rolloverAt := due; h_stream := Some sid; h_level := 0;
     h_formatter := Some JsonFormatter |}.

(** What [create_logger(name, log_dir, level)] comes to, step by step: the
    directory is made, then the logger is looked up and registered, then
    the level is looked up, then the logger is given the level and loses
    its handlers, then the file is opened, and at last the new handler is
    attached. *)
Definition create_logger_steps (name log_dir level : string) (w : world)
    : res string * world :=
  let key := logger_key name in
  let base := channel_file w log_dir name in
  match makedirs log_dir w with
  | (Raise e, _) => (Raise e, w)
  | (Ok _, w1) =>
      let w2 := snd (getLogger name w1) in
      match getattr_logging (upper level) with
      | Raise e => (Raise e, w2)
      | Ok v =>
          match _checkLevel v with
          | Raise e => (Raise e, w2)
          | Ok n =>
              let w4 := with_logger key n [] w1 in
              match open_append base w4 with
              | (Raise e, _) => (Raise e, w4)
              | (Ok sid, w5) =>
                  let hid := fresh (dom (w_handlers w)) in
                  (Ok key,
                   with_logger key n [hid]
                     (set_handlers
                        (<[hid := daily_handler base sid (mtime w5 base + 86400)]>
                           (w_handlers w)) w5))
              end
          end
      end
  end.

(** *** What a call writes *)


(** The JSON text of a value json can encode. *)
Definition json_text (v : value) : string :=
  match json_dumps v with
  | Ok line => line
  | Raise _ => ""
  end.

(** The example process after the events logger lost its handler. *)
Definition detached_world : world := with_logger "events" 20 [] demo_world.

(** *** Rollover *)

(** The path [doRollover] moves the live file of the handler [h] to, when
    it reads the clock in [w]: the path of the live file followed by the
    date, in local time, of the start of the period that ends. *)
Definition rollover_path (h : handler) (w : world) : string :=
  let currentTime := Z.quot (w_clock w (w_ticks w)) 1000000 in
  let dstNow := tm_isdst (localtime (w_zone w) currentTime) in
  let t := h_rolloverAt h - h_interval h in
  let timeTuple := localtime (w_zone w) t in
  let dstThen := tm_isdst timeTuple in
  let timeTuple :=
    if Bool.eqb dstNow dstThen then timeTuple
    else localtime (w_zone w) (t + (if dstNow then 3600 else -3600)) in
  h_baseFilename h +:+ "." +:+ strftime_ymd timeTuple.

(** * Properties *)

(** ** Strings *)

Lemma append_nil_r (s : string) : s +:+ "" = s.
Proof. induction s as [|a s IH]; [reflexivity|]. cbn [String.append]. f_equal. exact IH. Qed.

Lemma append_assoc (a b c : string) : (a +:+ b) +:+ c = a +:+ (b +:+ c).
Proof. induction a as [|x a IH]; [reflexivity|]. cbn [String.append]. f_equal. exact IH. Qed.



(** ** Splitting on a separator *)

Section Split.

Variable sep : ascii.

Lemma split_nonempty s : split sep s <> [].
Proof.
  destruct s as [|a s]; simpl; [discriminate|].
  destruct (Ascii.eqb a sep); [discriminate|].
  destruct (split sep s); discriminate.
Qed.

(** A segment followed by the separator is split off as it is. *)
Lemma split_app a rest :
  contains sep a = false ->
  split sep (a +:+ String sep rest) = a :: split sep rest.
Proof.
  induction a as [|c a IH]; intros Hfree.
  - simpl. rewrite Ascii.eqb_refl. reflexivity.
  - simpl in Hfree. apply orb_false_iff in Hfree as [Hc Ha].
    cbn [String.append]. simpl. rewrite Hc, (IH Ha). reflexivity.
Qed.

Lemma split_free a : contains sep a = false -> split sep a = [a].
Proof.
  induction a as [|c a IH]; intros Hfree; [reflexivity|].
  simpl in Hfree. apply orb_false_iff in Hfree as [Hc Ha].
  simpl. rewrite Hc, (IH Ha). reflexivity.
Qed.

(** The segments have no separator in them, and joining them with the
    separator gives the string back. *)
Lemma split_segments_free s : Forall (fun p => contains sep p = false) (split sep s).
Proof.
  induction s as [|a s IH]; simpl.
  - constructor; [reflexivity|constructor].
  - destruct (Ascii.eqb a sep) eqn:Ha.
    + constructor; [reflexivity|exact IH].
    + destruct (split sep s) as [|h t]; inversion IH; subst.
      * constructor; [simpl; rewrite Ha; reflexivity|constructor].
      * constructor; [simpl; rewrite Ha; assumption|assumption].
Qed.

Lemma join_split s : join (String sep "") (split sep s) = s.
Proof.
  induction s as [|a s IH]; [reflexivity|].
  simpl. destruct (Ascii.eqb a sep) eqn:Ha.
  - apply Ascii.eqb_eq in Ha. subst a.
    destruct (split sep s) as [|h t] eqn:E; [destruct (split_nonempty s E)|].
    change (join (String sep "") ("" :: h :: t))
      with (String sep (join (String sep "") (h :: t))).
    rewrite IH. reflexivity.
  - destruct (split sep s) as [|h t] eqn:E; [destruct (split_nonempty s E)|].
    destruct t as [|h' t].
    + simpl in *. rewrite IH. reflexivity.
    + change (join (String sep "") (String a h :: h' :: t))
        with (String a (join (String sep "") (h :: h' :: t))).
      rewrite IH. reflexivity.
Qed.

End Split.

(** ** The IP masker *)

Lemma split_dotted_quad ip a b c d :
  dotted_quad ip a b c d -> split "." ip = [a; b; c; d].
Proof.
  intros (Ha & Hb & Hc & Hd & ->).
  change (a +:+ "." +:+ b +:+ "." +:+ c +:+ "." +:+ d)
    with (a +:+ String "." (b +:+ String "." (c +:+ String "." d))).
  rewrite !split_app by assumption.
  rewrite split_free by assumption. reflexivity.
Qed.

Lemma split_four_dotted_quad ip a b c d :
  split "." ip = [a; b; c; d] -> dotted_quad ip a b c d.
Proof.
  intros E.
  pose proof (split_segments_free "." ip) as F. rewrite E in F.
  pose proof (join_split "." ip) as J. rewrite E in J.
  apply Forall_cons_iff in F as [Ha F]. apply Forall_cons_iff in F as [Hb F].
  apply Forall_cons_iff in F as [Hc F]. apply Forall_cons_iff in F as [Hd _].
  unfold dotted_quad. simpl in J. auto.
Qed.

(** The masker always answers a str with a str. *)
Lemma mask_ip_str (s : string) : exists out, _mask_ip (VStr s) = Ok (VStr out).
Proof.
  unfold _mask_ip. destruct (length (split "." s) =? 4)%nat; [|eauto].
  destruct (split "." s) as [|p0 [|p1 [|p2 ?]]]; eauto.
Qed.

(** C2: on every string the masker returns normally; a string of exactly
    four dot-separated segments a.b.c.d is mapped to a.b.c.xxx, and every
    other string to the literal unknown. *)
Theorem mask_ip_spec (ip : string) :
  (exists out, _mask_ip (VStr ip) = Ok (VStr out)) /\
  (forall a b c d, dotted_quad ip a b c d ->
     _mask_ip (VStr ip) = Ok (VStr (a +:+ "." +:+ b +:+ "." +:+ c +:+ ".xxx"))) /\
  ((forall a b c d, ~ dotted_quad ip a b c d) ->
     _mask_ip (VStr ip) = Ok (VStr "unknown")).
Proof.
  split; [|split].
  - apply mask_ip_str.
  - intros a b c d Hq. unfold _mask_ip.
    rewrite (split_dotted_quad _ _ _ _ _ Hq). reflexivity.
  - intros Hnot. unfold _mask_ip.
    destruct (split "." ip) as [|p0 [|p1 [|p2 [|p3 [|p4 t]]]]] eqn:E; try reflexivity.
    destruct (Hnot p0 p1 p2 p3). apply split_four_dotted_quad. exact E.
Qed.

(** The masker on the address of the specification's example, and on a
    string that is no dotted quad. *)
Lemma mask_ip_spec_witness :
  _mask_ip (VStr "192.168.1.100") = Ok (VStr "192.168.1.xxx") /\
  _mask_ip (VStr "fe80::1") = Ok (VStr "unknown").
Proof.
  split.
  - apply (proj1 (proj2 (mask_ip_spec "192.168.1.100")) "192" "168" "1" "100").
    repeat split; reflexivity.
  - apply (proj2 (proj2 (mask_ip_spec "fe80::1"))).
    intros a b c d Hq. apply split_dotted_quad in Hq. discriminate Hq.
Defined.

(** ** Dicts *)

Lemma eqb_neq_false (a b : string) : a <> b -> String.eqb a b = false.
Proof. intros H. apply String.eqb_neq. exact H. Qed.


Lemma dict_get_keys k (d : dict) : In k (dict_keys d) <-> exists v, dict_get k d = Some v.
Proof.
  induction d as [|[k' v'] d IH]; simpl.
  - split; [tauto|intros [v [=]]].
  - destruct (String.eqb k' k) eqn:E.
    + apply String.eqb_eq in E. subst. split; eauto.
    + apply String.eqb_neq in E. rewrite <- IH. split; [|tauto].
      intros [H|H]; [contradiction|exact H].
Qed.

Lemma dict_get_None k (d : dict) : dict_get k d = None <-> ~ In k (dict_keys d).
Proof.
  rewrite dict_get_keys. destruct (dict_get k d).
  - split; [discriminate|]. intros H. destruct H. eauto.
  - split; [|reflexivity]. intros _ [v [=]].
Qed.

Lemma dict_mem_keys k (d : dict) : dict_mem k d = true <-> In k (dict_keys d).
Proof.
  unfold dict_mem. rewrite dict_get_keys. destruct (dict_get k d).
  - split; eauto.
  - split; [discriminate|intros [v [=]]].
Qed.

Lemma dict_get_set k k' v (d : dict) :
  dict_get k' (dict_set k v d) = if String.eqb k k' then Some v else dict_get k' d.
Proof.
  induction d as [|[k0 v0] d IH]; simpl.
  - reflexivity.
  - destruct (String.eqb k0 k) eqn:E0; simpl.
    + apply String.eqb_eq in E0. subst k0.
      destruct (String.eqb k k'); reflexivity.
    + destruct (String.eqb k0 k') eqn:E1; [|exact IH].
      apply String.eqb_eq in E1. subst k0. now rewrite String.eqb_sym, E0.
Qed.

Lemma dict_keys_set k v (d : dict) :
  dict_keys (dict_set k v d) =
  if dict_mem k d then dict_keys d else dict_keys d ++ [k].
Proof.
  unfold dict_mem. induction d as [|[k0 v0] d IH]; simpl; [reflexivity|].
  destruct (String.eqb k0 k) eqn:E0; simpl; [reflexivity|].
  rewrite IH. now destruct (dict_get k d).
Qed.

Lemma dict_keys_set_In k k' v (d : dict) :
  In k' (dict_keys (dict_set k v d)) <-> k' = k \/ In k' (dict_keys d).
Proof.
  rewrite dict_keys_set. destruct (dict_mem k d) eqn:E.
  - apply dict_mem_keys in E. split; [tauto|]. intros [->|H]; assumption.
  - rewrite in_app_iff. simpl. split; [intros [H|[H|[]]]|intros [H|H]]; auto.
Qed.

Lemma dict_set_NoDup k v (d : dict) :
  List.NoDup (dict_keys d) -> List.NoDup (dict_keys (dict_set k v d)).
Proof.
  intros H. rewrite dict_keys_set. destruct (dict_mem k d) eqn:E; [exact H|].
  assert (~ In k (dict_keys d)) as Hk.
  { intros Hin. apply dict_mem_keys in Hin. congruence. }
  rewrite <- (rev_involutive (dict_keys d ++ [k])). apply List.NoDup_rev.
  rewrite rev_app_distr. simpl. constructor.
  - rewrite <- in_rev. exact Hk.
  - apply List.NoDup_rev. exact H.
Qed.

Lemma dict_get_update k (d e : dict) :
  List.NoDup (dict_keys e) ->
  dict_get k (dict_update d e) =
  match dict_get k e with Some v => Some v | None => dict_get k d end.
Proof.
  unfold dict_update. revert d.
  induction e as [|[k0 v0] e IH]; intros d Hnd; simpl; [reflexivity|].
  inversion Hnd as [|? ? Hnot Hnd']; subst.
  rewrite (IH _ Hnd'), dict_get_set.
  destruct (String.eqb k0 k) eqn:E.
  - apply String.eqb_eq in E. subst k0.
    apply dict_get_None in Hnot. now rewrite Hnot.
  - reflexivity.
Qed.

Lemma dict_keys_update_In k (d e : dict) :
  In k (dict_keys (dict_update d e)) <-> In k (dict_keys d) \/ In k (dict_keys e).
Proof.
  unfold dict_update. revert d.
  induction e as [|[k0 v0] e IH]; intros d; simpl; [tauto|].
  rewrite IH, dict_keys_set_In. intuition (subst; auto).
Qed.

Lemma dict_update_NoDup (d e : dict) :
  List.NoDup (dict_keys d) -> List.NoDup (dict_keys (dict_update d e)).
Proof.
  unfold dict_update. revert d.
  induction e as [|[k0 v0] e IH]; intros d H; simpl; [exact H|].
  apply IH. apply dict_set_NoDup. exact H.
Qed.

Lemma dict_get_del k k' (d : dict) :
  List.NoDup (dict_keys d) ->
  dict_get k' (dict_del k d) = if String.eqb k k' then None else dict_get k' d.
Proof.
  induction d as [|[k0 v0] d IH]; intros Hnd; simpl.
  - now destruct (String.eqb k k').
  - inversion Hnd as [|? ? Hnot Hnd']; subst.
    destruct (String.eqb k0 k) eqn:E0.
    + apply String.eqb_eq in E0. subst k0.
      destruct (String.eqb k k') eqn:E1; [|reflexivity].
      apply String.eqb_eq in E1. subst k'. now apply dict_get_None.
    + simpl. destruct (String.eqb k0 k') eqn:E1.
      * apply String.eqb_eq in E1. subst k0. now rewrite String.eqb_sym, E0.
      * exact (IH Hnd').
Qed.

Lemma dict_keys_del_In k k' (d : dict) :
  List.NoDup (dict_keys d) ->
  In k' (dict_keys (dict_del k d)) <-> k' <> k /\ In k' (dict_keys d).
Proof.
  intros Hnd. rewrite !dict_get_keys, dict_get_del by exact Hnd.
  destruct (String.eqb k k') eqn:E.
  - apply String.eqb_eq in E. subst. split; [intros [v [=]]|intros [H _]; congruence].
  - apply String.eqb_neq in E. split; [intros H; split; [congruence|exact H]|tauto].
Qed.

Lemma dict_del_NoDup k (d : dict) :
  List.NoDup (dict_keys d) -> List.NoDup (dict_keys (dict_del k d)).
Proof.
  induction d as [|[k0 v0] d IH]; intros Hnd; simpl; [exact Hnd|].
  inversion Hnd as [|? ? Hnot Hnd']; subst.
  destruct (String.eqb k0 k) eqn:E0; [exact Hnd'|].
  simpl. constructor; [|exact (IH Hnd')].
  intros Hin. apply (dict_keys_del_In k k0 d Hnd') in Hin. tauto.
Qed.

(** ** The text json.dumps writes has no control character *)


















(** Induction on values through lists and dicts. *)
Section ValueInd.

Variable P : value -> Prop.
Hypothesis HNone : P VNone.
Hypothesis HBool : forall b, P (VBool b).
Hypothesis HInt : forall z, P (VInt z).
Hypothesis HFloat : forall f, P (VFloat f).
Hypothesis HStr : forall s, P (VStr s).
Hypothesis HList : forall l, Forall P l -> P (VList l).
Hypothesis HDict : forall d : dict, Forall (fun kv => P (snd kv)) d -> P (VDict d).
Hypothesis HObj : forall n, P (VObj n).


End ValueInd.






(** ** Calls in the state monad *)

Lemma bind_unfold {A B : Type} (m : M A) (f : A -> M B) (w : world) :
  (m ≫= f) w =
  match m w with
  | (Ok a, w') => f a w'
  | (Raise e, w') => (Raise e, w')
  end.
Proof. reflexivity. Qed.

Lemma bind_Ok_inv {A B : Type} (m : M A) (f : A -> M B) w b w' :
  (m ≫= f) w = (Ok b, w') ->
  exists a w1, m w = (Ok a, w1) /\ f a w1 = (Ok b, w').
Proof.
  rewrite bind_unfold. destruct (m w) as [[a|e] w1]; [eauto|discriminate].
Qed.

Section Steps.

Variable I : world -> Prop.
Variable R : world -> world -> Prop.
Hypothesis R_refl : forall w, R w w.
Hypothesis R_trans : forall w1 w2 w3, R w1 w2 -> R w2 w3 -> R w1 w3.

Lemma steps_ret {A : Type} (a : A) : steps I R (mret a).
Proof. intros w r w' HI [= <- <-]. auto. Qed.

Lemma steps_raise {A : Type} (e : exn) : steps I R (raise (A := A) e).
Proof. intros w r w' HI [= <- <-]. auto. Qed.

Lemma steps_lift {A : Type} (x : res A) : steps I R (lift x).
Proof. intros w r w' HI [= <- <-]. auto. Qed.

Lemma steps_gets {A : Type} (f : world -> A) : steps I R (gets f).
Proof. intros w r w' HI [= <- <-]. auto. Qed.

Lemma steps_bind {A B : Type} (m : M A) (f : A -> M B) :
  steps I R m -> (forall a, steps I R (f a)) -> steps I R (m ≫= f).
Proof.
  intros Hm Hf w r w' HI. rewrite bind_unfold.
  destruct (m w) as [[a|e] w1] eqn:E.
  - intros H. destruct (Hm _ _ _ HI E) as [HI1 H1].
    destruct (Hf a _ _ _ HI1 H) as [HI2 H2]. eauto.
  - intros [= <- <-]. exact (Hm _ _ _ HI E).
Qed.

Lemma steps_try {A : Type} (m : M A) (h : exn -> M A) :
  steps I R m -> (forall e, steps I R (h e)) -> steps I R (try_except m h).
Proof.
  intros Hm Hh w r w' HI. unfold try_except.
  destruct (m w) as [[a|e] w1] eqn:E.
  - intros [= <- <-]. exact (Hm _ _ _ HI E).
  - intros H. destruct (Hm _ _ _ HI E) as [HI1 H1].
    destruct (Hh e _ _ _ HI1 H) as [HI2 H2]. eauto.
Qed.

Lemma steps_for_each {A : Type} (f : A -> M unit) (l : list A) :
  (forall x, In x l -> steps I R (f x)) -> steps I R (for_each f l).
Proof.
  induction l as [|x t IH]; intros H; simpl.
  - apply steps_ret.
  - apply steps_bind; [apply H; now left|].
    intros _. apply IH. intros y Hy. apply H. now right.
Qed.

End Steps.

(** *** Quiet steps *)

Lemma kept_refl w : kept w w.
Proof.
  split; [reflexivity|]. split; [reflexivity|]. split; [reflexivity|].
  split; [lia|]. eauto.
Qed.

Lemma kept_trans w1 w2 w3 : kept w1 w2 -> kept w2 w3 -> kept w1 w3.
Proof.
  intros (C1 & H1 & L1 & T1 & F1) (C2 & H2 & L2 & T2 & F2).
  split; [congruence|]. split; [congruence|]. split; [congruence|].
  split; [lia|].
  intros hid h Hh. destruct (F1 _ _ Hh) as (h1 & Hh1 & E1).
  destruct (F2 _ _ Hh1) as (h2 & Hh2 & E2). exists h2. split; congruence.
Qed.

Lemma kept_ticks w w' : kept w w' -> (w_ticks w <= w_ticks w')%nat.
Proof. intros (_ & _ & _ & T & _). exact T. Qed.

Lemma quiet_refl w : quiet w w.
Proof. split; [apply kept_refl|reflexivity]. Qed.

Lemma quiet_trans w1 w2 w3 : quiet w1 w2 -> quiet w2 w3 -> quiet w1 w3.
Proof.
  intros [K1 D1] [K2 D2]. split; [eapply kept_trans; eauto|].
  intros ino. now rewrite D2.
Qed.

(** A call all of whose steps are quiet. *)
Abbreviation silent m := (steps (fun _ => True) quiet m).

Lemma silent_intro {A : Type} (m : M A) :
  (forall w r w', m w = (r, w') -> quiet w w') -> silent m.
Proof. intros H w r w' _ E. split; [exact Logic.I|exact (H _ _ _ E)]. Qed.

Lemma silent_quiet {A : Type} (m : M A) w r w' : silent m -> m w = (r, w') -> quiet w w'.
Proof. intros H E. exact (proj2 (H _ _ _ Logic.I E)). Qed.

Lemma silent_bind {A B : Type} (m : M A) (f : A -> M B) :
  silent m -> (forall a, silent (f a)) -> silent (m ≫= f).
Proof. apply steps_bind. exact quiet_trans. Qed.

Lemma silent_ret {A : Type} (a : A) : silent (mret a).
Proof. apply steps_ret. exact quiet_refl. Qed.

Lemma silent_raise {A : Type} (e : exn) : silent (raise (A := A) e).
Proof. apply steps_raise. exact quiet_refl. Qed.

Lemma silent_lift {A : Type} (x : res A) : silent (lift x).
Proof. apply steps_lift. exact quiet_refl. Qed.

Lemma silent_gets {A : Type} (f : world -> A) : silent (gets f).
Proof. apply steps_gets. exact quiet_refl. Qed.

Lemma silent_for_each {A : Type} (f : A -> M unit) (l : list A) :
  (forall x, silent (f x)) -> silent (for_each f l).
Proof.
  intros H. apply steps_for_each; [exact quiet_refl|exact quiet_trans|auto].
Qed.

Lemma silent_if {A : Type} (b : bool) (m1 m2 : M A) :
  silent m1 -> silent m2 -> silent (if b then m1 else m2).
Proof. now destruct b. Qed.

(** The primitive operations that write to no file are quiet. *)

Lemma quiet_same_but w w' :
  w_clock w' = w_clock w -> w_heap w' = w_heap w -> w_loggers w' = w_loggers w ->
  (w_ticks w <= w_ticks w')%nat -> w_inodes w' = w_inodes w ->
  w_handlers w' = w_handlers w -> quiet w w'.
Proof.
  intros C H L T N F. unfold quiet, kept, data. rewrite N, F.
  split; [|reflexivity].
  split; [exact C|]. split; [exact H|]. split; [exact L|].
  split; [exact T|]. eauto.
Qed.

Lemma silent_time_us : silent time_us.
Proof.
  apply silent_intro. intros w r w' [= <- <-].
  apply quiet_same_but; simpl; auto.
Qed.

Lemma silent_int_time : silent int_time.
Proof. apply silent_bind; [exact silent_time_us|intros; apply silent_ret]. Qed.

Lemma silent_makedirs name : silent (makedirs name).
Proof.
  apply silent_intro. intros w r w'. unfold makedirs.
  repeat match goal with |- context [if ?c then _ else _] => destruct c end;
    intros [= <- <-]; apply quiet_same_but; simpl; auto.
Qed.

Lemma silent_path_exists p : silent (path_exists p).
Proof. apply silent_gets. Qed.

Lemma silent_path_isfile p : silent (path_isfile p).
Proof. apply silent_gets. Qed.

Lemma silent_close sid : silent (close sid).
Proof.
  apply silent_intro. intros w r w' [= <- <-]. apply quiet_same_but; simpl; auto.
Qed.

Lemma silent_stat_mtime p : silent (stat_mtime p).
Proof.
  apply silent_intro. intros w r w'. unfold stat_mtime.
  destruct (w_names w !! p); intros [= <- <-]; apply quiet_refl.
Qed.

Lemma silent_remove p : silent (remove p).
Proof.
  apply silent_intro. intros w r w'. unfold remove.
  repeat match goal with |- context [if ?c then _ else _] => destruct c end;
    intros [= <- <-]; apply quiet_same_but; simpl; auto.
Qed.

Lemma silent_rename src dst : silent (rename src dst).
Proof.
  apply silent_intro. intros w r w'. unfold rename.
  destruct (w_names w !! src); [|intros [= <- <-]; apply quiet_refl].
  repeat match goal with |- context [if ?c then _ else _] => destruct c end;
    intros [= <- <-]; apply quiet_same_but; simpl; auto.
Qed.

Lemma silent_listdir d : silent (listdir d).
Proof.
  apply silent_intro. intros w r w'. unfold listdir.
  destruct (is_dir w d); intros [= <- <-]; apply quiet_refl.
Qed.

Lemma silent_stderr_write ev : silent (stderr_write ev).
Proof.
  apply silent_intro. intros w r w' [= <- <-]. apply quiet_same_but; simpl; auto.
Qed.

Lemma silent_open_append p : silent (open_append p).
Proof.
  apply silent_intro. intros w r w'. unfold open_append.
  repeat match goal with |- context [if ?c then _ else _] => destruct c end;
    try (intros [= <- <-]; apply quiet_refl).
  destruct (w_names w !! p).
  - intros [= <- <-]. apply quiet_same_but; simpl; auto.
  - intros [= <- <-]. split; [split; [|split; [|split; [|split]]]; simpl; eauto|].
    unfold data. simpl.
    intros ino. destruct (decide (ino = fresh (dom (w_inodes w)))) as [->|Hne].
    + rewrite lookup_insert_eq.
      assert (w_inodes w !! fresh (dom (w_inodes w)) = None) as ->; [|reflexivity].
      apply not_elem_of_dom. apply is_fresh.
    + now rewrite lookup_insert_ne.
Qed.

Lemma silent_get_handler hid : silent (get_handler hid).
Proof.
  apply silent_intro. intros w r w'. unfold get_handler.
  destruct (w_handlers w !! hid); intros [= <- <-]; apply quiet_refl.
Qed.

Lemma silent_update_handler hid f :
  (forall h, h_formatter (f h) = h_formatter h) -> silent (update_handler hid f).
Proof.
  intros Hf. apply silent_intro. intros w r w' [= <- <-].
  split; [|reflexivity].
  split; [reflexivity|]. split; [reflexivity|]. split; [reflexivity|].
  split; [simpl; lia|]. simpl.
  intros hid' h Hh. destruct (decide (hid' = hid)) as [->|Hne].
  - exists (f h). rewrite lookup_alter_eq, Hh. split; [reflexivity|apply Hf].
  - exists h. rewrite lookup_alter_ne by congruence. auto.
Qed.

(** ** The handlers *)

Create HintDb silent.

#[local] Hint Resolve silent_ret silent_raise silent_lift silent_gets silent_time_us
  silent_int_time silent_makedirs silent_path_exists silent_path_isfile silent_close
  silent_stat_mtime silent_remove silent_rename silent_listdir silent_stderr_write
  silent_open_append silent_get_handler : silent.

Ltac silent_step :=
  match goal with
  | |- steps _ quiet (_ ≫= _) => apply silent_bind; [|intros ?]
  | |- steps _ quiet (if ?b then _ else _) => destruct b
  | |- steps _ quiet (match ?x with _ => _ end) => destruct x
  | |- steps _ quiet (update_handler _ _) =>
      apply silent_update_handler; intros []; reflexivity
  | |- steps _ quiet (for_each _ _) => apply silent_for_each; intros ?
  | |- steps _ quiet _ => solve [auto with silent]
  end.

Lemma silent_shouldRollover hid : silent (shouldRollover hid).
Proof. unfold shouldRollover. repeat silent_step. Qed.

Lemma silent_getFilesToDelete h : silent (getFilesToDelete h).
Proof. unfold getFilesToDelete. repeat silent_step. Qed.

Lemma silent_doRollover hid : silent (doRollover hid).
Proof.
  unfold doRollover. repeat silent_step. apply silent_getFilesToDelete.
Qed.

Lemma silent_handleError e : silent (handleError e).
Proof. apply silent_stderr_write. Qed.

#[local] Hint Resolve silent_shouldRollover silent_doRollover silent_handleError : silent.

Lemma lines_text_app l1 l2 : lines_text (l1 ++ l2) = lines_text l1 +:+ lines_text l2.
Proof.
  induction l1 as [|x l1 IH]; [reflexivity|].
  simpl. rewrite IH. change (String "010"%char (lines_text l1 +:+ lines_text l2))
    with (String "010"%char (lines_text l1) +:+ lines_text l2).
  now rewrite append_assoc.
Qed.

Lemma formatted_mono clk lo hi lo' hi' lv msg E line :
  (lo' <= lo)%nat -> (hi <= hi')%nat ->
  formatted clk lo hi lv msg E line -> formatted clk lo' hi' lv msg E line.
Proof. intros Hl Hh (n & now & Hn & H). exists n, now. split; [lia|exact H]. Qed.

Section Emission.

Variable clk : nat -> Z.
Variable ref : nat.
Variable E : dict.
Variable S : nat -> Prop.
Variable record : LogRecord.
Hypothesis Href : r_extra_data record = Some ref.

Let Inv := emit_inv clk ref E S.
Let Rel := emit_rel clk (r_levelname record) (r_msg record) E.

Lemma emit_rel_refl w : Rel w w.
Proof.
  split; [apply kept_refl|]. intros ino. exists []. simpl. now rewrite append_nil_r.
Qed.

Lemma emit_rel_trans w1 w2 w3 : Rel w1 w2 -> Rel w2 w3 -> Rel w1 w3.
Proof.
  intros [K1 A1] [K2 A2]. split; [eapply kept_trans; eauto|].
  pose proof (kept_ticks _ _ K1) as T1. pose proof (kept_ticks _ _ K2) as T2.
  intros ino.
  destruct (A1 ino) as (l1 & D1 & F1). destruct (A2 ino) as (l2 & D2 & F2).
  exists (l1 ++ l2). split.
  - now rewrite D2, D1, lines_text_app, append_assoc.
  - apply Forall_app. split.
    + eapply Forall_impl; [exact F1|]. intros line. apply formatted_mono; lia.
    + eapply Forall_impl; [exact F2|]. intros line. apply formatted_mono; lia.
Qed.

Lemma quiet_emit w w' : Inv w -> quiet w w' -> Inv w' /\ Rel w w'.
Proof.
  intros (C & H & F) [K D]. pose proof K as (C' & H' & L' & T' & F'). split.
  - split; [congruence|]. split; [congruence|].
    intros hid Hs. destruct (F hid Hs) as (h & Hh & Hf).
    destruct (F' _ _ Hh) as (h' & Hh' & Hf'). exists h'. split; congruence.
  - split; [exact K|]. intros ino. exists []. simpl.
    now rewrite append_nil_r, D.
Qed.

Lemma silent_emits {A : Type} (m : M A) : silent m -> steps Inv Rel m.
Proof.
  intros Hm w r w' HI Hrun. apply quiet_emit; [exact HI|].
  exact (silent_quiet _ _ _ _ Hm Hrun).
Qed.

(** The formatter reads the clock once and changes nothing else; the text
    it returns is the record formatted at that reading. *)
Lemma format_spec w r w' :
  Inv w -> JsonFormatter_format record w = (r, w') ->
  w' = set_ticks (Datatypes.S (w_ticks w)) w /\
  forall line, r = Ok line ->
    formatted clk (w_ticks w) (w_ticks w') (r_levelname record) (r_msg record) E line.
Proof.
  intros (C & H & F). unfold JsonFormatter_format.
  rewrite bind_unfold. cbn [time_us].
  rewrite bind_unfold. unfold lift at 1.
  destruct (utcfromtimestamp (w_clock w (w_ticks w))) as [now|e] eqn:Enow.
  - rewrite Href. rewrite bind_unfold. rewrite bind_unfold.
    unfold deref. simpl. rewrite H. unfold mret, M_ret, lift.
    intros [= <- <-]. split; [reflexivity|].
    intros line Hl. exists (w_ticks w), now. simpl. split; [lia|].
    split; [congruence|]. exact Hl.
  - intros [= <- <-]. split; [reflexivity|]. discriminate.
Qed.

Lemma quiet_set_ticks w n : (w_ticks w <= n)%nat -> quiet w (set_ticks n w).
Proof. intros H. apply quiet_same_but; simpl; auto. Qed.

Lemma emits_StreamHandler_emit hid s :
  S hid -> steps Inv Rel (StreamHandler_emit Formatter_format hid s record).
Proof.
  intros Hs w r w' HI. unfold StreamHandler_emit, try_except.
  rewrite bind_unfold. unfold get_handler at 1.
  destruct HI as (C & H & F). destruct (F hid Hs) as (h & Hh & Hf).
  rewrite Hh. rewrite bind_unfold. unfold Handler_format. rewrite Hf.
  cbn [Formatter_format].
  destruct (JsonFormatter_format record w) as [[line|e] w1] eqn:Efmt.
  - destruct (format_spec _ _ _ (conj C (conj H F)) Efmt) as [-> Hline].
    specialize (Hline line eq_refl). simpl in Hline.
    unfold write. simpl.
    destruct (w_streams w !! s) as [ino|].
    + intros [= <- <-]. split.
      * split; [exact C|]. split; [exact H|]. exact F.
      * split.
        { split; [reflexivity|]. split; [reflexivity|]. split; [reflexivity|].
          split; [simpl; lia|]. simpl. eauto. }
        intros ino'. simpl. unfold data. simpl.
        destruct (decide (ino' = ino)) as [->|Hne].
        -- exists [line]. rewrite lookup_insert_eq. simpl.
           split; [reflexivity|]. constructor; [exact Hline|constructor].
        -- exists []. rewrite lookup_insert_ne by congruence. simpl.
           now rewrite append_nil_r.
    + intros Hrun.
      assert (Inv (set_ticks (Datatypes.S (w_ticks w)) w)) as HI1.
      { split; [exact C|]. split; [exact H|]. exact F. }
      destruct (silent_emits _ (silent_handleError ValueError) _ _ _ HI1 Hrun) as [HI2 HR2].
      split; [exact HI2|].
      eapply emit_rel_trans; [|exact HR2].
      apply quiet_emit; [split; [exact C|split; [exact H|exact F]]|].
      apply quiet_set_ticks. lia.
  - destruct (format_spec _ _ _ (conj C (conj H F)) Efmt) as [-> _].
    intros Hrun.
    assert (Inv (set_ticks (Datatypes.S (w_ticks w)) w)) as HI1.
    { split; [exact C|]. split; [exact H|]. exact F. }
    destruct (silent_emits _ (silent_handleError e) _ _ _ HI1 Hrun) as [HI2 HR2].
    split; [exact HI2|].
    eapply emit_rel_trans; [|exact HR2].
    apply quiet_emit; [split; [exact C|split; [exact H|exact F]]|].
    apply quiet_set_ticks. lia.
Qed.

Lemma emits_bind {A B : Type} (m : M A) (f : A -> M B) :
  steps Inv Rel m -> (forall a, steps Inv Rel (f a)) -> steps Inv Rel (m ≫= f).
Proof. apply steps_bind. exact emit_rel_trans. Qed.

Lemma emits_FileHandler_emit hid :
  S hid -> steps Inv Rel (FileHandler_emit Formatter_format hid record).
Proof.
  intros Hs. unfold FileHandler_emit.
  apply emits_bind; [apply silent_emits; auto with silent|]. intros h.
  apply emits_bind; [|intros s; now apply emits_StreamHandler_emit].
  apply silent_emits. repeat silent_step.
Qed.

Lemma emits_emit hid : S hid -> steps Inv Rel (emit Formatter_format hid record).
Proof.
  intros Hs. unfold emit.
  apply steps_try; [exact emit_rel_trans| |intros e; apply silent_emits; auto with silent].
  apply emits_bind; [apply silent_emits; auto with silent|]. intros b.
  apply emits_bind; [apply silent_emits; repeat silent_step|]. intros _.
  now apply emits_FileHandler_emit.
Qed.

(** Emitting never raises: what goes wrong is reported on stderr. *)
Lemma emit_returns hid w : exists w', emit Formatter_format hid record w = (Ok tt, w').
Proof.
  unfold emit, try_except.
  destruct ((b ← shouldRollover hid;
             (if b : bool then doRollover hid else mret ()) ;;
             FileHandler_emit Formatter_format hid record) w) as [[[]|e] w1]; eauto.
Qed.

Lemma emits_callHandlers key w r w' :
  Inv w -> (forall hid, attached w hid -> S hid) ->
  callHandlers Formatter_format key record w = (r, w') ->
  r = Ok tt /\ Inv w' /\ Rel w w'.
Proof.
  intros HI Hatt. unfold callHandlers. rewrite bind_unfold. unfold gets at 1.
  set (hs := concat _).
  assert (forall hid, In hid hs -> S hid) as Hhs.
  { intros hid Hin. apply Hatt. subst hs. apply in_concat in Hin as (l & Hl & Hin).
    apply in_map_iff in Hl as (n & <- & _). unfold the_logger in Hin.
    destruct (w_loggers w !! n) as [lg|] eqn:En; [|destruct Hin].
    exists n, lg. auto. }
  clearbody hs. rewrite bind_unfold.
  assert (forall w0 r0 w1, Inv w0 ->
    for_each (fun hid => h ← get_handler hid;
                if r_levelno record >=? h_level h
                then emit Formatter_format hid record else mret ()) hs w0 = (r0, w1) ->
    r0 = Ok tt /\ Inv w1 /\ Rel w0 w1) as Hloop.
  { clear w r w' HI Hatt. induction hs as [|hid hs IH]; intros w0 r0 w1 HI0; simpl.
    - intros [= <- <-]. split; [reflexivity|]. split; [exact HI0|apply emit_rel_refl].
    - rewrite !bind_unfold. unfold get_handler at 1.
      destruct HI0 as (C & H & F).
      destruct (F hid (Hhs hid (or_introl eq_refl))) as (h & Hh & Hf). rewrite Hh.
      destruct (r_levelno record >=? h_level h).
      + destruct (emit_returns hid w0) as [w2 Hem]. rewrite Hem.
        destruct (emits_emit hid (Hhs hid (or_introl eq_refl)) _ _ _
                    (conj C (conj H F)) Hem) as [HI2 HR2].
        intros Hrest. destruct (IH (fun x Hx => Hhs x (or_intror Hx)) _ _ _ HI2 Hrest)
          as (-> & HI3 & HR3).
        split; [reflexivity|]. split; [exact HI3|]. eapply emit_rel_trans; eauto.
      + unfold mret at 1, M_ret at 1. intros Hrest.
        exact (IH (fun x Hx => Hhs x (or_intror Hx)) _ _ _ (conj C (conj H F)) Hrest). }
  destruct (for_each _ hs w) as [[[]|e] w1] eqn:Eloop.
  - destruct (Hloop _ _ _ HI Eloop) as (_ & HI1 & HR1).
    destruct (length hs =? 0)%nat.
    + destruct (r_levelno record >=? WARNING).
      * intros Hrun. pose proof Hrun as Hr. unfold stderr_write, modify in Hr.
        injection Hr as <- _.
        destruct (silent_emits _ (silent_stderr_write _) _ _ _ HI1 Hrun) as [HI2 HR2].
        split; [reflexivity|]. split; [exact HI2|]. eapply emit_rel_trans; eauto.
      * intros [= <- <-]. auto.
    + intros [= <- <-]. auto.
  - destruct (Hloop _ _ _ HI Eloop) as (Hr & _). discriminate Hr.
Qed.

End Emission.

(** Handing a record over to a logger never raises, and every line that
    reaches a file is the record formatted by [JsonFormatter.format] at a
    reading of the clock taken meanwhile. *)
Lemma handle_appends key record ref E w r w' :
  handlers_ok w -> r_extra_data record = Some ref -> w_heap w !! ref = Some E ->
  handle Formatter_format key record w = (r, w') ->
  r = Ok tt /\ emit_inv (w_clock w) ref E (attached w) w' /\
  emit_rel (w_clock w) (r_levelname record) (r_msg record) E w w'.
Proof.
  intros Hok Href Hheap Hrun. unfold handle in Hrun.
  assert (emit_inv (w_clock w) ref E (attached w) w) as HI.
  { split; [reflexivity|]. split; [exact Hheap|].
    intros hid (key' & lg & Hlg & Hin). exact (Hok _ _ _ Hlg Hin). }
  destruct (emits_callHandlers (w_clock w) ref E (attached w) record Href key w r w'
              HI (fun _ H => H) Hrun) as (Hr & HI' & HR).
  split; [exact Hr|]. split; [exact HI'|exact HR].
Qed.

(** The handlers stay in order across such a step. *)
Lemma kept_handlers_ok w w' : kept w w' -> handlers_ok w -> handlers_ok w'.
Proof.
  intros (_ & _ & L & _ & F) Hok key lg hid Hlg Hin. rewrite L in Hlg.
  destruct (Hok _ _ _ Hlg Hin) as (h & Hh & Hf).
  destruct (F _ _ Hh) as (h' & Hh' & Hf'). exists h'. split; congruence.
Qed.
(** ** The facade *)

Lemma handlers_ok_same w w' :
  w_loggers w' = w_loggers w -> w_handlers w' = w_handlers w ->
  handlers_ok w -> handlers_ok w'.
Proof. intros L F Hok key lg hid. rewrite L, F. apply Hok. Qed.

(** Making the record and handing it to the logger. *)
Lemma emit_record key lvl msg ref E w1 r w' :
  handlers_ok w1 -> w_heap w1 !! ref = Some E ->
  (record ← makeRecord key lvl msg;
   handle Formatter_format key (set_extra_data record ref)) w1 = (r, w') ->
  r = Ok tt /\ kept w1 w' /\
  appended (formatted (w_clock w1) (w_ticks w1) (w_ticks w') (getLevelName lvl) msg E) w1 w'.
Proof.
  intros Hok Hheap. rewrite bind_unfold. unfold makeRecord.
  rewrite bind_unfold. cbn [time_us]. unfold mret at 1, M_ret at 1.
  intros Hrun.
  apply handle_appends with (ref := ref) (E := E) in Hrun;
    [|exact (handlers_ok_same _ _ eq_refl eq_refl Hok)|reflexivity|exact Hheap].
  destruct Hrun as (-> & _ & K & A). simpl in K, A.
  split; [reflexivity|]. split.
  - eapply kept_trans; [|exact K].
    split; [reflexivity|]. split; [reflexivity|]. split; [reflexivity|].
    split; [simpl; lia|]. simpl. eauto.
  - intros ino. destruct (A ino) as (lines & D & F). exists lines.
    split; [exact D|]. eapply Forall_impl; [exact F|].
    intros line. apply formatted_mono; lia.
Qed.

(** A dict put in the heap at a fresh place leaves the rest of the process
    as it was. *)
Lemma fresh_heap_keeps (w : world) l x :
  w_heap w !! l = Some x -> l <> fresh (dom (w_heap w)).
Proof.
  intros H ->. apply (is_fresh (dom (w_heap w))). apply elem_of_dom. eauto.
Qed.

Lemma heap_grown_refl w : heap_grown w w.
Proof. repeat split; auto. Qed.

Lemma heap_grown_insert w w1 d :
  heap_grown w w1 ->
  heap_grown w (set_heap (<[fresh (dom (w_heap w)) := d]> (w_heap w1)) w1).
Proof.
  intros (C & T & L & F & N & P & H). repeat split; simpl; auto.
  intros l x Hl. rewrite lookup_insert_ne; [auto|].
  intros <-. exact (fresh_heap_keeps _ _ _ Hl eq_refl).
Qed.

Lemma call_outcome_raise c w w1 e :
  handlers_ok w -> heap_grown w w1 ->
  match call_fields w c with
  | Raise e' => e' = e
  | Ok _ => call_message w c = Raise e
  end ->
  call_outcome c w (Raise e) w1.
Proof.
  intros Hok (C & T & L & F & N & P & H) Hc.
  split; [exact (handlers_ok_same _ _ L F Hok)|].
  split; [exact C|]. split; [lia|]. split; [exact L|]. split; [exact H|].
  assert (forall ino, data w1 ino = data w ino) as D.
  { intros ino. unfold data. now rewrite N. }
  destruct (call_fields w c); [rewrite Hc|subst]; auto.
Qed.

Lemma call_outcome_emit c key lvl w w1 r w' ref E msg :
  handlers_ok w -> heap_grown w w1 -> w_heap w1 !! ref = Some E ->
  call_fields w c = Ok E -> call_message w c = Ok msg ->
  getLevelName lvl = call_level c ->
  (record ← makeRecord key lvl msg;
   handle Formatter_format key (set_extra_data record ref)) w1 = (r, w') ->
  call_outcome c w r w'.
Proof.
  intros Hok (C & T & L & F & N & P & H) Href Hf Hm Hl Hrun.
  apply emit_record with (E := E) in Hrun;
    [|exact (handlers_ok_same _ _ L F Hok)|exact Href].
  destruct Hrun as (-> & K & A).
  pose proof K as (C' & H' & L' & T' & F').
  split; [exact (kept_handlers_ok _ _ K (handlers_ok_same _ _ L F Hok))|].
  split; [congruence|]. split; [lia|]. split; [congruence|].
  split; [intros l x Hx; rewrite H'; auto|].
  rewrite Hf, Hm. split; [reflexivity|].
  intros ino. destruct (A ino) as (lines & D & Fl). exists lines.
  split; [unfold data in *; rewrite N in D; exact D|].
  rewrite <- C, <- T, <- Hl. exact Fl.
Qed.

(** The three methods. *)

Lemma log_network_event_outcome self event_type src_ip dst_ip port protocol kwargs w r w' :
  handlers_ok w ->
  log_network_event self event_type src_ip dst_ip port protocol kwargs w = (r, w') ->
  call_outcome (NetworkEvent event_type src_ip dst_ip port protocol kwargs) w r w'.
Proof.
  intros Hok. unfold log_network_event.
  rewrite bind_unfold. unfold bind_kwargs.
  destruct (existsb _ (dict_keys kwargs)) eqn:Ek.
  - intros [= <- <-]. apply call_outcome_raise; [exact Hok|apply heap_grown_refl|].
    simpl. unfold network_record. now rewrite Ek.
  - unfold mret at 1, M_ret at 1.
    destruct (mask_ip_str src_ip) as [src Hsrc]. destruct (mask_ip_str dst_ip) as [dst Hdst].
    rewrite bind_unfold. unfold lift at 1. rewrite Hsrc.
    rewrite bind_unfold. unfold lift at 1. rewrite Hdst.
    rewrite bind_unfold. unfold alloc at 1. intros Hrun.
    eapply call_outcome_emit with (lvl := INFO); [exact Hok| | | | | |exact Hrun].
    + apply heap_grown_insert, heap_grown_refl.
    + simpl. apply lookup_insert_eq.
    + simpl. unfold network_record. now rewrite Ek, Hsrc, Hdst.
    + reflexivity.
    + reflexivity.
Qed.

Lemma log_api_request_outcome self method endpoint src_ip status_code response_time_ms
    kwargs w r w' :
  handlers_ok w ->
  log_api_request self method endpoint src_ip status_code response_time_ms kwargs w
    = (r, w') ->
  call_outcome (ApiRequest method endpoint src_ip status_code response_time_ms kwargs)
    w r w'.
Proof.
  intros Hok. unfold log_api_request.
  rewrite bind_unfold. unfold bind_kwargs.
  destruct (existsb _ (dict_keys kwargs)) eqn:Ek.
  - intros [= <- <-]. apply call_outcome_raise; [exact Hok|apply heap_grown_refl|].
    simpl. unfold api_record. now rewrite Ek.
  - unfold mret at 1, M_ret at 1.
    destruct (mask_ip_str src_ip) as [src Hsrc].
    rewrite bind_unfold. unfold lift at 1. rewrite Hsrc.
    rewrite bind_unfold. unfold lift at 1.
    destruct (round response_time_ms 2) as [rounded|e] eqn:Er.
    + rewrite bind_unfold. unfold alloc at 1. intros Hrun.
      eapply call_outcome_emit with (lvl := INFO); [exact Hok| | | | | |exact Hrun].
      * apply heap_grown_insert, heap_grown_refl.
      * simpl. apply lookup_insert_eq.
      * simpl. unfold api_record. now rewrite Ek, Hsrc, Er.
      * reflexivity.
      * reflexivity.
    + intros [= <- <-]. apply call_outcome_raise; [exact Hok|apply heap_grown_refl|].
      simpl. unfold api_record. now rewrite Ek, Hsrc, Er.
Qed.

Lemma log_threat_outcome self category threat w r w' :
  handlers_ok w ->
  log_threat self category threat w = (r, w') ->
  call_outcome (Threat category threat) w r w'.
Proof.
  intros Hok. unfold log_threat.
  rewrite bind_unfold. unfold deref at 1.
  destruct (w_heap w !! threat) as [d|] eqn:Hd.
  2:{ intros [= <- <-]. apply call_outcome_raise; [exact Hok|apply heap_grown_refl|].
      simpl. now rewrite Hd. }
  rewrite bind_unfold. unfold alloc at 1.
  rewrite bind_unfold. unfold deref at 1. cbn [w_heap set_heap].
  rewrite lookup_insert_eq.
  set (l := fresh (dom (w_heap w))).
  set (td := dict_update [("category", VStr category)] d).
  assert (threat <> l) as Hne by exact (fresh_heap_keeps _ _ _ Hd).
  rewrite bind_unfold.
  assert (forall w1 E (r0 : res unit) w0,
    heap_grown w w1 -> w_heap w1 !! l = Some E -> threat_record category d = Ok E ->
    (d0 ← deref threat;
     repr ← gets w_repr;
     threat_type ← lift (str repr (default (VStr "UNKNOWN") (dict_get "threat_type" d0)));
     record ← makeRecord (threat_logger self) WARNING ("THREAT: " +:+ threat_type);
     handle Formatter_format (threat_logger self) (set_extra_data record l)) w1
      = (r0, w0) ->
    call_outcome (Threat category threat) w r0 w0) as Hrest.
  { intros w1 E r0 w0 Hg Hl HE.
    rewrite bind_unfold. unfold deref at 1.
    pose proof Hg as (C & T & L & F & N & P & H). rewrite (H _ _ Hd).
    rewrite bind_unfold. unfold gets at 1.
    rewrite bind_unfold. unfold lift at 1. rewrite P.
    destruct (str (w_repr w) (default (VStr "UNKNOWN") (dict_get "threat_type" d)))
      as [t|e] eqn:Et.
    - intros Hrun.
      eapply call_outcome_emit with (lvl := WARNING);
        [exact Hok|exact Hg|exact Hl| | |reflexivity|exact Hrun].
      + simpl. now rewrite Hd.
      + simpl. now rewrite Hd, Et.
    - intros [= <- <-]. apply call_outcome_raise; [exact Hok|exact Hg|].
      simpl. rewrite Hd, HE, Et. reflexivity. }
  pose proof (heap_grown_insert w w td (heap_grown_refl w)) as Hg0. fold l in Hg0.
  destruct (dict_mem "src_ip" td) eqn:Emem.
  - rewrite bind_unfold. unfold lift at 1.
    destruct (_mask_ip (default VNone (dict_get "src_ip" td))) as [masked|e] eqn:Emask.
    + rewrite bind_unfold. unfold store at 1, modify at 1. cbn [w_heap set_heap].
      rewrite bind_unfold. unfold deref at 1. cbn [w_heap set_heap].
      rewrite lookup_insert_eq.
      unfold store at 1, modify at 1. cbn [w_heap set_heap].
      rewrite !insert_insert_eq.
      eapply Hrest.
      * destruct Hg0 as (C & T & L & F & N & P & H). repeat split; simpl; auto.
        intros l0 x Hx. rewrite lookup_insert_ne; [exact Hx|].
        intros <-. exact (fresh_heap_keeps _ _ _ Hx eq_refl).
      * simpl. apply lookup_insert_eq.
      * unfold threat_record. fold td. now rewrite Emem, Emask.
    + intros [= <- <-]. apply call_outcome_raise; [exact Hok|exact Hg0|].
      simpl. rewrite Hd. unfold threat_record. fold td. now rewrite Emem, Emask.
  - unfold mret at 1, M_ret at 1. eapply Hrest.
    + exact Hg0.
    + simpl. apply lookup_insert_eq.
    + unfold threat_record. fold td. now rewrite Emem.
Qed.

(** Every call of the facade on a world whose handlers are in order. *)
Lemma run_call_outcome self c w r w' :
  handlers_ok w -> run_call self c w = (r, w') -> call_outcome c w r w'.
Proof.
  destruct c; simpl.
  - apply log_network_event_outcome.
  - apply log_api_request_outcome.
  - apply log_threat_outcome.
Qed.

(** ** create_logger *)

Lemma getLogger_spec name w :
  getLogger name w =
  (Ok (logger_key name),
   match w_loggers w !! logger_key name with
   | Some _ => w
   | None =>
       set_loggers (<[logger_key name :=
                        {| l_level := if String.eqb (logger_key name) root then WARNING else 0;
                           l_handlers := [] |}]> (w_loggers w)) w
   end).
Proof.
  unfold getLogger, logger_key.
  destruct (w_loggers w !! _); reflexivity.
Qed.

Lemma makedirs_ok name w w' :
  makedirs name w = (Ok tt, w') ->
  w_loggers w' = w_loggers w /\ w_handlers w' = w_handlers w /\
  w_streams w' = w_streams w /\ w_names w' = w_names w /\ w_cwd w' = w_cwd w.
Proof.
  unfold makedirs.
  repeat match goal with |- context [if ?c then _ else _] => destruct c end;
    intros [= <-]; auto.
Qed.

Lemma open_append_ok p w sid w' :
  open_append p w = (Ok sid, w') ->
  w_loggers w' = w_loggers w /\ w_handlers w' = w_handlers w /\
  w_streams w !! sid = None /\
  exists ino, w_streams w' = <[sid := ino]> (w_streams w) /\ w_names w' !! p = Some ino.
Proof.
  unfold open_append.
  repeat match goal with |- context [if ?c then _ else _] => destruct c end;
    try discriminate.
  assert (w_streams w !! fresh (dom (w_streams w)) = None) as Hfresh.
  { apply not_elem_of_dom, is_fresh. }
  destruct (w_names w !! p) as [ino|] eqn:E; intros [= <- <-]; simpl.
  - repeat split; auto. exists ino. auto.
  - repeat split; auto. eexists. split; [reflexivity|]. apply lookup_insert_eq.
Qed.

Lemma others_same_trans key w1 w2 w3 :
  others_same key w1 w2 -> others_same key w2 w3 -> others_same key w1 w3.
Proof. intros H1 H2 k Hk. rewrite (H2 k Hk). exact (H1 k Hk). Qed.

Lemma others_same_eq key w w' : w_loggers w' = w_loggers w -> others_same key w w'.
Proof. intros H k _. now rewrite H. Qed.

Lemma others_same_insert key lg (w : world) :
  others_same key w (set_loggers (<[key := lg]> (w_loggers w)) w).
Proof. intros k Hk. simpl. now rewrite lookup_insert_ne. Qed.

(** What a successful call of [create_logger] leaves. *)
Lemma create_logger_ok name log_dir level w key w' :
  create_logger name log_dir level w = (Ok key, w') -> created name log_dir w key w'.
Proof.
  unfold create_logger. intros H.
  apply bind_Ok_inv in H as ([] & w1 & H1 & H).
  apply bind_Ok_inv in H as (key0 & w2 & H2 & H).
  apply bind_Ok_inv in H as (lv & w2' & H3 & H).
  apply bind_Ok_inv in H as ([] & w3 & H4 & H).
  apply bind_Ok_inv in H as ([] & w4 & H5 & H).
  apply bind_Ok_inv in H as (hid & w5 & H6 & H).
  apply bind_Ok_inv in H as ([] & w6 & H7 & H).
  apply bind_Ok_inv in H as ([] & w7 & H8 & H).
  injection H as <- <-.
  rewrite getLogger_spec in H2. injection H2 as <- Hw2.
  injection H3 as _ <-.
  unfold setLevel in H4. apply bind_Ok_inv in H4 as (n & w2' & Hn & H4).
  injection Hn as Hn <-. injection H4 as Hw3.
  injection H5 as Hw4.
  unfold TimedRotatingFileHandler_D in H6.
  apply bind_Ok_inv in H6 as (cwd & w4' & Hc & H6). injection Hc as <- <-.
  apply bind_Ok_inv in H6 as (sid & w4a & Hopen & H6).
  apply bind_Ok_inv in H6 as (ex & w4b & Hex & H6). injection Hex as <- <-.
  apply bind_Ok_inv in H6 as (t & w4c & Ht & H6).
  injection H6 as <- Hw5.
  injection H7 as Hw6. injection H8 as Hw7.
  set (key := logger_key name) in *.
  apply makedirs_ok in H1 as (L1 & F1 & S1 & N1 & C1).
  apply open_append_ok in Hopen as (L4 & F4 & Hsid & ino & S4 & N4).
  assert (w4c = w4a \/ w4c = set_ticks (S (w_ticks w4a)) w4a) as Hw4c.
  { destruct (_ || _).
    - unfold stat_mtime in Ht. destruct (w_names w4a !! _); injection Ht as _ <-; auto.
    - injection Ht as _ <-. auto. }
  assert (w_loggers w4c = w_loggers w4a /\ w_handlers w4c = w_handlers w4a /\
          w_streams w4c = w_streams w4a /\ w_names w4c = w_names w4a) as (L4c & F4c & S4c & N4c).
  { destruct Hw4c as [->| ->]; auto. }
  clear Ht Hw4c.
  (* the logger steps *)
  assert (w_handlers w2 = w_handlers w1 /\ w_streams w2 = w_streams w1 /\
          w_cwd w2 = w_cwd w1 /\ others_same key w1 w2) as (F2 & S2 & C2 & O2).
  { rewrite <- Hw2. destruct (w_loggers w1 !! key); simpl;
      (split; [reflexivity|]); (split; [reflexivity|]); (split; [reflexivity|]).
    - now apply others_same_eq.
    - apply others_same_insert. }
  assert (w_handlers w3 = w_handlers w2 /\ w_streams w3 = w_streams w2 /\
          w_cwd w3 = w_cwd w2 /\ others_same key w2 w3) as (F3 & S3 & C3 & O3).
  { rewrite <- Hw3. simpl.
    (split; [reflexivity|]); (split; [reflexivity|]); (split; [reflexivity|]).
    apply others_same_insert. }
  assert (w_handlers w4 = w_handlers w3 /\ w_streams w4 = w_streams w3 /\
          w_cwd w4 = w_cwd w3 /\ others_same key w3 w4 /\
          exists lvl, w_loggers w4 !! key = Some {| l_level := lvl; l_handlers := [] |})
    as (F4' & S4' & C4' & O4 & lvl & K4).
  { rewrite <- Hw4. simpl.
    (split; [reflexivity|]); (split; [reflexivity|]); (split; [reflexivity|]).
    split; [apply others_same_insert|].
    eexists. apply lookup_insert_eq. }
  assert (w_cwd w4 = w_cwd w) as Hcwd by congruence.
  rewrite Hcwd in *.
  set (base := abspath (w_cwd w) (path_join log_dir (name +:+ ".jsonl"))) in *.
  match type of Hw5 with
  | set_handlers (<[_ := ?x]> _) _ = _ => set (h0 := x) in *
  end.
  assert (w_handlers w4c = w_handlers w) as F5 by congruence.
  assert (w_handlers w6 = <[fresh (dom (w_handlers w)) := with_formatter JsonFormatter h0]>
                            (w_handlers w) /\
          w_loggers w6 = w_loggers w4 /\ w_streams w6 = w_streams w4a /\
          w_names w6 = w_names w4a) as (F6 & L6 & S6 & N6).
  { rewrite <- Hw6, <- Hw5. simpl. rewrite F5, alter_insert_eq.
    repeat split; congruence. }
  split; [reflexivity|].
  exists (fresh (dom (w_handlers w))), (with_formatter JsonFormatter h0), sid, ino, lvl.
  assert (the_logger w6 key = {| l_level := lvl; l_handlers := [] |}) as Hlg.
  { unfold the_logger. now rewrite L6, K4. }
  rewrite <- Hw7. unfold the_logger in Hlg |- *. rewrite Hlg. simpl.
  split; [apply not_elem_of_dom, is_fresh|].
  split; [exact F6|].
  split.
  { apply map_eq. intros k. destruct (decide (k = key)) as [->|Hk].
    - now rewrite !lookup_insert_eq, F5.
    - rewrite !lookup_insert_ne by congruence. rewrite L6.
      rewrite (O4 k Hk), (O3 k Hk), (O2 k Hk). now rewrite L1. }
  split; [reflexivity|]. split; [reflexivity|]. split; [reflexivity|].
  split; [reflexivity|]. split; [reflexivity|]. split; [reflexivity|].
  split; [reflexivity|].
  split; [congruence|].
  split; [rewrite S6, S4; congruence|].
  simpl. rewrite N6. exact N4.
Qed.

(** ** The example process *)

Lemma created_handlers_ok name log_dir w key w' :
  created name log_dir w key w' -> handlers_ok w -> handlers_ok w'.
Proof.
  intros (-> & hid & h & sid & ino & lvl & Hnew & F & L & _ & _ & _ & _ & _ & Hf & _) Hok.
  intros key lg hid' Hlg Hin. rewrite L in Hlg. rewrite F.
  destruct (decide (key = logger_key name)) as [->|Hk].
  - rewrite lookup_insert_eq in Hlg. injection Hlg as <-.
    destruct Hin as [<-|[]]. exists h. now rewrite lookup_insert_eq.
  - rewrite lookup_insert_ne in Hlg by congruence.
    destruct (Hok _ _ _ Hlg Hin) as (h' & Hh' & Hf').
    exists h'. split; [|exact Hf']. rewrite lookup_insert_ne; [exact Hh'|].
    intros <-. congruence.
Qed.

Lemma CCTVLogger_init_handlers_ok log_dir level w self w' :
  CCTVLogger_init log_dir level w = (Ok self, w') -> handlers_ok w -> handlers_ok w'.
Proof.
  unfold CCTVLogger_init. intros H Hok.
  apply bind_Ok_inv in H as (k1 & w1 & H1 & H).
  apply bind_Ok_inv in H as (k2 & w2 & H2 & H).
  injection H as _ <-.
  apply create_logger_ok in H1, H2.
  eauto using created_handlers_ok.
Qed.

Lemma handlers_ok_init : handlers_ok init_world.
Proof. intros key lg hid H. simpl in H. rewrite lookup_empty in H. discriminate. Qed.

Lemma demo_run :
  CCTVLogger_init "./data/logs" "INFO" init_world = (Ok demo_self, demo_world).
Proof.
  unfold demo_world.
  assert (fst (CCTVLogger_init "./data/logs" "INFO" init_world) = Ok demo_self) as H
    by (vm_compute; reflexivity).
  rewrite <- H. apply surjective_pairing.
Qed.

Lemma handlers_ok_demo : handlers_ok demo_world.
Proof. exact (CCTVLogger_init_handlers_ok _ _ _ _ _ demo_run handlers_ok_init). Qed.

(** ** Appended lines *)

Lemma appended_impl (P Q : string -> Prop) w w' :
  (forall line, P line -> Q line) -> appended P w w' -> appended Q w w'.
Proof.
  intros H A ino. destruct (A ino) as (lines & D & F). exists lines.
  split; [exact D|]. eapply Forall_impl; eauto.
Qed.

Lemma appended_none (P : string -> Prop) w w' :
  (forall ino, data w' ino = data w ino) -> appended P w w'.
Proof.
  intros D ino. exists []. simpl. rewrite append_nil_r. split; [apply D|constructor].
Qed.


(** What a call appends, read off its outcome. *)
Lemma call_outcome_appended c w r w' (P : string -> Prop) :
  call_outcome c w r w' ->
  (forall E msg line,
     call_fields w c = Ok E -> call_message w c = Ok msg ->
     formatted (w_clock w) (w_ticks w) (w_ticks w') (call_level c) msg E line -> P line) ->
  appended P w w'.
Proof.
  intros (_ & _ & _ & _ & _ & H) HP.
  destruct (call_fields w c) as [E|e]; [|now apply appended_none].
  destruct (call_message w c) as [msg|e]; [|now apply appended_none].
  destruct H as [_ A]. eapply appended_impl; [|exact A].
  intros line. now apply HP.
Qed.

(** ** Threats *)

Lemma threat_fields_keys category (d : dict) :
  List.NoDup (dict_keys d) ->
  List.NoDup (dict_keys (dict_update [("category", VStr category)] d)).
Proof.
  intros _. apply dict_update_NoDup. simpl. constructor; [tauto|constructor].
Qed.

Lemma log_entry_get k now lv msg (E : dict) :
  List.NoDup (dict_keys E) ->
  dict_get k (log_entry_of now lv msg E) =
  match dict_get k E with
  | Some v => Some v
  | None =>
      dict_get k [("timestamp", VStr (isoformat now +:+ "Z")); ("level", VStr lv);
                  ("message", VStr msg)]
  end.
Proof. intros H. unfold log_entry_of. now apply dict_get_update. Qed.

(** C1: when the threat mapping has a src_ip key, every record that
    log_threat persists is a JSON object without the key src_ip and with the
    key src_ip_masked, whose value is the masker applied to the mapping's
    src_ip value. *)
Theorem log_threat_masks_src_ip self category threat (d : dict) v w r w' :
  handlers_ok w -> w_heap w !! threat = Some d -> List.NoDup (dict_keys d) ->
  dict_get "src_ip" d = Some v ->
  log_threat self category threat w = (r, w') ->
  appended (fun line => exists entry masked,
              json_dumps (VDict entry) = Ok line /\
              dict_get "src_ip" entry = None /\
              _mask_ip v = Ok masked /\
              dict_get "src_ip_masked" entry = Some masked) w w'.
Proof.
  intros Hok Hd Hnd Hv Hrun.
  apply log_threat_outcome in Hrun; [|exact Hok].
  eapply call_outcome_appended; [exact Hrun|].
  intros E msg line HE _ (n & now & _ & _ & Hline).
  simpl in HE. rewrite Hd in HE. unfold threat_record in HE.
  set (td := dict_update [("category", VStr category)] d) in *.
  assert (List.NoDup (dict_keys td)) as Htd by now apply threat_fields_keys.
  assert (dict_get "src_ip" td = Some v) as Hget.
  { unfold td. rewrite dict_get_update by exact Hnd. now rewrite Hv. }
  unfold dict_mem in HE. rewrite Hget in HE. simpl in HE.
  destruct (_mask_ip v) as [masked|e] eqn:Em; [|discriminate].
  injection HE as <-.
  assert (List.NoDup (dict_keys (dict_set "src_ip_masked" masked td))) as Hset
    by now apply dict_set_NoDup.
  exists (log_entry_of now "WARNING" msg (dict_del "src_ip" (dict_set "src_ip_masked" masked td))),
    masked.
  split; [exact Hline|].
  rewrite !log_entry_get by now apply dict_del_NoDup.
  rewrite !dict_get_del by exact Hset. simpl.
  rewrite dict_get_set. simpl. auto.
Qed.

(** The threat of the specification's example, logged in the example
    process: the line in threats.jsonl. *)
Lemma log_threat_masks_src_ip_witness :
  appended (fun line => exists entry masked,
              json_dumps (VDict entry) = Ok line /\
              dict_get "src_ip" entry = None /\
              _mask_ip (VStr "10.0.0.5") = Ok masked /\
              dict_get "src_ip_masked" entry = Some masked)
    demo_world (snd (log_threat demo_self "network" 7 demo_world)) /\
  data (snd (log_threat demo_self "network" 7 demo_world)) 1 =
  record_text
    [("timestamp", VStr "2024-01-01T00:00:00.002000Z"); ("level", VStr "WARNING");
     ("message", VStr "THREAT: PORT_SCAN"); ("category", VStr "network");
     ("threat_type", VStr "PORT_SCAN"); ("severity", VStr "HIGH");
     ("ports_scanned", VInt 15); ("src_ip_masked", VStr "10.0.0.xxx")].
Proof.
  split.
  - apply (log_threat_masks_src_ip demo_self "network" 7
             [("threat_type", VStr "PORT_SCAN"); ("severity", VStr "HIGH");
              ("src_ip", VStr "10.0.0.5"); ("ports_scanned", VInt 15)]
             (VStr "10.0.0.5") demo_world
             (fst (log_threat demo_self "network" 7 demo_world))).
    + exact handlers_ok_demo.
    + vm_compute. reflexivity.
    + repeat (constructor; [simpl; intuition discriminate|]). constructor.
    + reflexivity.
    + apply surjective_pairing.
  - vm_compute. reflexivity.
Defined.

(** C9, as the code has it: every record that log_threat persists has all
    the keys of the threat mapping except src_ip; its category is the
    caller's category argument unless the mapping has a category key of its
    own, whose value is then the one persisted. *)
Theorem log_threat_record_keys self category threat (d : dict) w r w' :
  handlers_ok w -> w_heap w !! threat = Some d -> List.NoDup (dict_keys d) ->
  log_threat self category threat w = (r, w') ->
  appended (fun line => exists entry,
              json_dumps (VDict entry) = Ok line /\
              dict_get "category" entry
                = Some (default (VStr category) (dict_get "category" d)) /\
              forall k, In k (dict_keys d) -> k <> "src_ip" -> In k (dict_keys entry)) w w'.
Proof.
  intros Hok Hd Hnd Hrun.
  apply log_threat_outcome in Hrun; [|exact Hok].
  eapply call_outcome_appended; [exact Hrun|].
  intros E msg line HE _ (n & now & _ & _ & Hline).
  exists (log_entry_of now "WARNING" msg E). split; [exact Hline|].
  simpl in HE. rewrite Hd in HE. unfold threat_record in HE.
  set (td := dict_update [("category", VStr category)] d) in *.
  assert (List.NoDup (dict_keys td)) as Htd by now apply threat_fields_keys.
  assert (dict_get "category" td = Some (default (VStr category) (dict_get "category" d)))
    as Hcat.
  { unfold td. rewrite dict_get_update by exact Hnd. now destruct (dict_get "category" d). }
  assert (forall k, In k (dict_keys d) -> In k (dict_keys td)) as Hkeys.
  { intros k Hk. unfold td. apply dict_keys_update_In. now right. }
  assert (List.NoDup (dict_keys E) /\
          dict_get "category" E = Some (default (VStr category) (dict_get "category" d)) /\
          forall k, In k (dict_keys d) -> k <> "src_ip" -> In k (dict_keys E)) as (HndE & HcatE & HkE).
  { destruct (dict_mem "src_ip" td).
    - destruct (_mask_ip _) as [masked|]; [|discriminate]. injection HE as <-.
      assert (List.NoDup (dict_keys (dict_set "src_ip_masked" masked td))) as Hset
        by now apply dict_set_NoDup.
      split; [now apply dict_del_NoDup|]. split.
      + rewrite dict_get_del by exact Hset. simpl. rewrite dict_get_set. simpl. exact Hcat.
      + intros k Hk Hne. apply dict_keys_del_In; [exact Hset|].
        split; [exact Hne|]. apply dict_keys_set_In. right. auto.
    - injection HE as <-. auto. }
  split.
  - rewrite log_entry_get by exact HndE. now rewrite HcatE.
  - intros k Hk Hne. unfold log_entry_of. apply dict_keys_update_In. right. auto.
Qed.

Lemma handlers_ok_set_heap h w : handlers_ok w -> handlers_ok (set_heap h w).
Proof. exact (fun H => H). Qed.

Lemma handlers_ok_malware : handlers_ok malware_world.
Proof. unfold malware_world. apply handlers_ok_set_heap, handlers_ok_demo. Qed.

Lemma log_threat_record_keys_witness :
  appended (fun line => exists entry,
              json_dumps (VDict entry) = Ok line /\
              dict_get "category" entry = Some (VStr "malware") /\
              forall k, In k ["category"] -> k <> "src_ip" -> In k (dict_keys entry))
    malware_world (snd (log_threat demo_self "network" 8 malware_world)).
Proof.
  apply (log_threat_record_keys demo_self "network" 8 [("category", VStr "malware")]
           malware_world (fst (log_threat demo_self "network" 8 malware_world))).
  - exact handlers_ok_malware.
  - vm_compute. reflexivity.
  - repeat (constructor; [simpl; intuition discriminate|]). constructor.
  - apply surjective_pairing.
Defined.

(** C9 as stated fails: the record persisted for the category argument
    network carries the category of the mapping, malware. *)
Lemma log_threat_category_counterexample :
  fst (log_threat demo_self "network" 8 malware_world) = Ok tt /\
  data (snd (log_threat demo_self "network" 8 malware_world)) 1 =
  record_text
    [("timestamp", VStr "2024-01-01T00:00:00.002000Z"); ("level", VStr "WARNING");
     ("message", VStr "THREAT: UNKNOWN"); ("category", VStr "malware")].
Proof. vm_compute. split; reflexivity. Qed.

(** ** log_threat leaves the caller's dicts alone *)

Lemma heap_same_refl w : w_heap w = w_heap w.
Proof. reflexivity. Qed.

Lemma silent_heap {A : Type} (m : M A) :
  silent m -> steps (fun _ => True) (fun w w' => w_heap w' = w_heap w) m.
Proof.
  intros Hm w r w' _ Hrun. split; [exact Logic.I|].
  destruct (silent_quiet _ _ _ _ Hm Hrun) as [(_ & H & _) _]. exact H.
Qed.

Lemma heap_bind {A B : Type} (m : M A) (f : A -> M B) :
  steps (fun _ => True) (fun w w' => w_heap w' = w_heap w) m ->
  (forall a, steps (fun _ => True) (fun w w' => w_heap w' = w_heap w) (f a)) ->
  steps (fun _ => True) (fun w w' => w_heap w' = w_heap w) (m ≫= f).
Proof. apply steps_bind. intros w1 w2 w3 H1 H2. congruence. Qed.

Lemma silent_JsonFormatter_format record : silent (JsonFormatter_format record).
Proof.
  unfold JsonFormatter_format. repeat silent_step.
  apply silent_intro. intros w r w'. unfold deref.
  destruct (w_heap w !! _); intros [= <- <-]; apply quiet_refl.
Qed.

Lemma heap_handle key record :
  steps (fun _ => True) (fun w w' => w_heap w' = w_heap w)
    (handle Formatter_format key record).
Proof.
  assert (forall w1 w2 w3 : world,
            w_heap w2 = w_heap w1 -> w_heap w3 = w_heap w2 -> w_heap w3 = w_heap w1)
    as Htrans by (intros; congruence).
  unfold handle, callHandlers.
  apply heap_bind; [apply silent_heap, silent_gets|]. intros hs.
  apply heap_bind.
  - apply steps_for_each; [reflexivity|exact Htrans|]. intros hid _.
    apply heap_bind; [apply silent_heap, silent_get_handler|]. intros h.
    destruct (r_levelno record >=? h_level h); [|apply silent_heap, silent_ret].
    unfold emit. apply steps_try; [exact Htrans| |intros e; apply silent_heap; auto with silent].
    apply heap_bind; [apply silent_heap; auto with silent|]. intros b.
    apply heap_bind; [apply silent_heap; repeat silent_step|]. intros _.
    unfold FileHandler_emit.
    apply heap_bind; [apply silent_heap, silent_get_handler|]. intros h'.
    apply heap_bind; [apply silent_heap; repeat silent_step|]. intros s.
    unfold StreamHandler_emit.
    apply steps_try; [exact Htrans| |intros e; apply silent_heap; auto with silent].
    apply heap_bind; [apply silent_heap, silent_get_handler|]. intros h''.
    apply heap_bind.
    + apply silent_heap. unfold Handler_format.
      destruct (h_formatter h'') as [[]|]; [apply silent_JsonFormatter_format|apply silent_ret].
    + intros msg w r w' _. unfold write.
      destruct (w_streams w !! s); intros [= <- <-]; auto.
  - intros _. apply silent_heap. repeat silent_step.
Qed.

(** C10: log_threat does not change the caller's threat mapping, nor any
    other dict that was in the heap: the key src_ip is removed from, and
    src_ip_masked added to, a dict of its own. *)
Theorem log_threat_keeps_threat self category threat w r w' :
  log_threat self category threat w = (r, w') ->
  forall l (x : dict), w_heap w !! l = Some x -> w_heap w' !! l = Some x.
Proof.
  unfold log_threat. rewrite bind_unfold. unfold deref at 1.
  destruct (w_heap w !! threat) as [d|] eqn:Hd; [|intros [= <- <-]; auto].
  rewrite bind_unfold. unfold alloc at 1.
  set (l0 := fresh (dom (w_heap w))).
  assert (forall l x, w_heap w !! l = Some x -> l <> l0) as Hfresh
    by (intros l x Hx; exact (fresh_heap_keeps _ _ _ Hx)).
  assert (forall (E : dict) w1 (r0 : res unit) w0,
    w_heap w1 = <[l0 := E]> (w_heap w) ->
    (d0 ← deref threat;
     repr ← gets w_repr;
     threat_type ← lift (str repr (default (VStr "UNKNOWN") (dict_get "threat_type" d0)));
     record ← makeRecord (threat_logger self) WARNING ("THREAT: " +:+ threat_type);
     handle Formatter_format (threat_logger self) (set_extra_data record l0)) w1
      = (r0, w0) ->
    forall l x, w_heap w !! l = Some x -> w_heap w0 !! l = Some x) as Hrest.
  { intros E w1 r0 w0 Hw1 Hrun l x Hx.
    assert (w_heap w0 = w_heap w1) as ->.
    { revert Hrun. generalize w1 r0 w0. clear. intros w1 r0 w0 Hrun.
      refine (proj2 (_ w1 r0 w0 Logic.I Hrun)).
      assert (forall w1 w2 w3 : world,
                w_heap w2 = w_heap w1 -> w_heap w3 = w_heap w2 -> w_heap w3 = w_heap w1)
        as Htrans by (intros; congruence).
      apply heap_bind.
      { intros wa ra wb _. unfold deref.
        destruct (w_heap wa !! threat); intros [= <- <-]; auto. }
      intros d0. apply heap_bind; [apply silent_heap, silent_gets|]. intros repr.
      apply heap_bind; [apply silent_heap, silent_lift|]. intros t.
      apply heap_bind; [|intros record; apply heap_handle].
      apply silent_heap. unfold makeRecord. repeat silent_step. }
    rewrite Hw1, lookup_insert_ne; [exact Hx|].
    intros <-. exact (Hfresh _ _ Hx eq_refl). }
  rewrite bind_unfold. unfold deref at 1. cbn [w_heap set_heap].
  rewrite lookup_insert_eq. rewrite bind_unfold.
  destruct (dict_mem "src_ip" _).
  - rewrite bind_unfold. unfold lift at 1.
    destruct (_mask_ip _) as [masked|e].
    + rewrite bind_unfold. unfold store at 1, modify at 1. cbn [w_heap set_heap].
      rewrite bind_unfold. unfold deref at 1. cbn [w_heap set_heap].
      rewrite lookup_insert_eq.
      unfold store at 1, modify at 1. cbn [w_heap set_heap].
      rewrite !insert_insert_eq.
      apply Hrest with (E := dict_del "src_ip" (dict_set "src_ip_masked" masked
                               (dict_update [("category", VStr category)] d))).
      reflexivity.
    + intros [= <- <-] l x Hx. simpl. rewrite lookup_insert_ne; [exact Hx|].
      intros <-. exact (Hfresh _ _ Hx eq_refl).
  - unfold mret at 1, M_ret at 1.
    apply Hrest with (E := dict_update [("category", VStr category)] d). reflexivity.
Qed.

(** The threat of the example is in the heap as it was after it is logged. *)
Lemma log_threat_keeps_threat_witness :
  w_heap (snd (log_threat demo_self "network" 7 demo_world)) !! 7%nat =
  Some [("threat_type", VStr "PORT_SCAN"); ("severity", VStr "HIGH");
        ("src_ip", VStr "10.0.0.5"); ("ports_scanned", VInt 15)].
Proof.
  apply (log_threat_keeps_threat demo_self "network" 7 demo_world
           (fst (log_threat demo_self "network" 7 demo_world))).
  - apply surjective_pairing.
  - vm_compute. reflexivity.
Defined.
(** ** API requests *)

Lemma kwargs_not_param (params : list string) (kwargs : dict) p :
  existsb (fun k => existsb (String.eqb k) params) (dict_keys kwargs) = false ->
  In p params -> dict_get p kwargs = None.
Proof.
  intros H Hp. apply dict_get_None. intros Hin.
  assert (existsb (fun k => existsb (String.eqb k) params) (dict_keys kwargs) = true) as Ht.
  { apply existsb_exists. exists p. split; [exact Hin|].
    apply existsb_exists. exists p. split; [exact Hp|apply String.eqb_refl]. }
  congruence.
Qed.



(** ** The formatter *)




(** ** Values json cannot encode *)

Lemma call_fields_NoDup w c (E : dict) :
  call_fields w c = Ok E -> List.NoDup (dict_keys E).
Proof.
  destruct c as [event_type src_ip dst_ip port protocol kwargs
                |method endpoint src_ip status_code x kwargs|category threat]; simpl.
  - unfold network_record. destruct (existsb _ _); [discriminate|].
    destruct (_mask_ip (VStr src_ip)); [|discriminate].
    destruct (_mask_ip (VStr dst_ip)); [|discriminate].
    intros [= <-]. apply dict_update_NoDup. simpl.
    repeat (constructor; [simpl; intuition discriminate|]). constructor.
  - unfold api_record. destruct (existsb _ _); [discriminate|].
    destruct (_mask_ip (VStr src_ip)); [|discriminate].
    destruct (round x 2); [|discriminate].
    intros [= <-]. apply dict_update_NoDup. simpl.
    repeat (constructor; [simpl; intuition discriminate|]). constructor.
  - destruct (w_heap w !! threat) as [d|]; [|discriminate].
    unfold threat_record.
    assert (List.NoDup (dict_keys (dict_update [("category", VStr category)] d))) as Htd.
    { apply dict_update_NoDup. simpl. constructor; [tauto|constructor]. }
    destruct (dict_mem _ _); [|now intros [= <-]].
    destruct (_mask_ip _); [|discriminate].
    intros [= <-]. now apply dict_del_NoDup, dict_set_NoDup.
Qed.



(** ** Timestamps *)

Lemma formatted_stamped clk lo hi lv msg (E : dict) line :
  List.NoDup (dict_keys E) ->
  formatted clk lo hi lv msg E line ->
  exists n, (lo <= n < hi)%nat /\ stamped clk n E line.
Proof.
  intros Hnd (n & now & Hn & Hnow & Hline). exists n. split; [exact Hn|].
  exists now, (log_entry_of now lv msg E). split; [exact Hnow|]. split; [exact Hline|].
  rewrite log_entry_get by exact Hnd. now destruct (dict_get "timestamp" E).
Qed.

Lemma call_stamps self c w r w' :
  handlers_ok w -> run_call self c w = (r, w') ->
  appended (fun line => exists n E,
              (w_ticks w <= n < w_ticks w')%nat /\ call_fields w c = Ok E /\
              stamped (w_clock w) n E line) w w'.
Proof.
  intros Hok Hrun.
  eapply call_outcome_appended; [exact (run_call_outcome _ _ _ _ _ Hok Hrun)|].
  intros E msg line HE _ Hf.
  destruct (formatted_stamped _ _ _ _ _ _ _ (call_fields_NoDup _ _ _ HE) Hf) as (n & Hn & Hs).
  exists n, E. auto.
Qed.

(** C7, as the code has it: the timestamp of every record a call of the
    facade persists is a reading of the UTC clock taken during the call, in
    ISO 8601 form with a trailing Z, unless the fields of the record have a
    timestamp key, whose value is then persisted in its place; of two calls
    made one after the other, the readings of the first come before those
    of the second, so that their instants do not decrease when the clock
    does not. *)
Theorem timestamps_in_call_order self c1 c2 w r1 w1 r2 w2 :
  handlers_ok w ->
  run_call self c1 w = (r1, w1) -> run_call self c2 w1 = (r2, w2) ->
  appended (fun line => exists n E,
              (w_ticks w <= n < w_ticks w1)%nat /\ call_fields w c1 = Ok E /\
              stamped (w_clock w) n E line) w w1 /\
  appended (fun line => exists n E,
              (w_ticks w1 <= n < w_ticks w2)%nat /\ call_fields w1 c2 = Ok E /\
              stamped (w_clock w) n E line) w1 w2 /\
  forall n1 n2,
    (w_ticks w <= n1 < w_ticks w1)%nat -> (w_ticks w1 <= n2 < w_ticks w2)%nat ->
    (n1 < n2)%nat /\
    ((forall i j, (i <= j)%nat -> w_clock w i <= w_clock w j) ->
     w_clock w n1 <= w_clock w n2).
Proof.
  intros Hok H1 H2.
  pose proof (run_call_outcome _ _ _ _ _ Hok H1) as (Hok1 & C1 & _).
  split; [exact (call_stamps _ _ _ _ _ Hok H1)|].
  split; [rewrite <- C1; exact (call_stamps _ _ _ _ _ Hok1 H2)|].
  intros n1 n2 Hn1 Hn2. split; [lia|]. intros Hmono. apply Hmono. lia.
Qed.

(** The threat and the network event of the specification's examples, one
    after the other in the example process. *)
Lemma timestamps_in_call_order_witness :
  let c1 := Threat "network" 7 in
  let c2 := NetworkEvent "connection" "192.168.1.100" "192.168.1.10" 554 "TCP" [] in
  let w1 := snd (run_call demo_self c1 demo_world) in
  let w2 := snd (run_call demo_self c2 w1) in
  appended (fun line => exists n E,
              (w_ticks demo_world <= n < w_ticks w1)%nat /\
              call_fields demo_world c1 = Ok E /\
              stamped (w_clock demo_world) n E line) demo_world w1 /\
  appended (fun line => exists n E,
              (w_ticks w1 <= n < w_ticks w2)%nat /\ call_fields w1 c2 = Ok E /\
              stamped (w_clock demo_world) n E line) w1 w2 /\
  forall n1 n2,
    (w_ticks demo_world <= n1 < w_ticks w1)%nat -> (w_ticks w1 <= n2 < w_ticks w2)%nat ->
    (n1 < n2)%nat /\
    ((forall i j, (i <= j)%nat -> w_clock demo_world i <= w_clock demo_world j) ->
     w_clock demo_world n1 <= w_clock demo_world n2).
Proof.
  intros c1 c2 w1 w2.
  apply (timestamps_in_call_order demo_self c1 c2 demo_world
           (fst (run_call demo_self c1 demo_world)) w1
           (fst (run_call demo_self c2 w1)) w2).
  - exact handlers_ok_demo.
  - apply surjective_pairing.
  - apply surjective_pairing.
Defined.

(** C7 as stated fails: a threat whose mapping has a timestamp key is
    persisted with the caller's value as its timestamp. *)
Lemma caller_timestamp_counterexample :
  fst (log_threat demo_self "network" 8 yesterday_world) = Ok tt /\
  data (snd (log_threat demo_self "network" 8 yesterday_world)) 1 =
  record_text
    [("timestamp", VStr "yesterday"); ("level", VStr "WARNING");
     ("message", VStr "THREAT: UNKNOWN"); ("category", VStr "network")].
Proof. vm_compute. split; reflexivity. Qed.
(** ** The registry of channels *)



(** ** Paths *)

Lemma contains_app c (a b : string) : contains c (a +:+ b) = contains c a || contains c b.
Proof.
  induction a as [|x a IH]; [reflexivity|].
  simpl. rewrite IH. now rewrite orb_assoc.
Qed.

Lemma endswith_contains c (s : string) : endswith_char c s = true -> contains c s = true.
Proof.
  induction s as [|a s IH]; [discriminate|].
  simpl. destruct s as [|b s].
  - intros ->. reflexivity.
  - intros H. rewrite (IH H). apply orb_true_r.
Qed.

Lemma endswith_app_char c (s : string) : endswith_char c (s +:+ String c "") = true.
Proof.
  induction s as [|a s IH]; simpl; [apply Ascii.eqb_refl|].
  destruct (s +:+ String c "") eqn:E; [destruct s; discriminate|exact IH].
Qed.

(** The text after the last separator has no separator, and what comes
    before it is empty or ends with one. *)
Lemma rpartition_spec c (s : string) :
  s = fst (rpartition c s) +:+ snd (rpartition c s) /\
  contains c (snd (rpartition c s)) = false /\
  (fst (rpartition c s) = "" \/ endswith_char c (fst (rpartition c s)) = true).
Proof.
  induction s as [|a s (IH1 & IH2 & IH3)]; simpl; [auto|].
  destruct (contains c s) eqn:Ec.
  - destruct (rpartition c s) as [h t]. simpl in *.
    split; [now rewrite <- IH1|]. split; [exact IH2|].
    right. destruct IH3 as [->|IH3].
    + simpl in IH1. subst s. congruence.
    + destruct h; [discriminate|exact IH3].
  - destruct (Ascii.eqb a c) eqn:Ea; simpl.
    + split; [reflexivity|]. split; [exact Ec|]. right. exact Ea.
    + split; [reflexivity|]. split; [now rewrite Ea, Ec|]. now left.
Qed.

Lemma rpartition_cons c a (s : string) :
  rpartition c (String a s) =
  if contains c s then let '(h, t) := rpartition c s in (String a h, t)
  else if Ascii.eqb a c then (String a "", s) else ("", String a s).
Proof. reflexivity. Qed.

Lemma rpartition_app c (h t : string) :
  contains c t = false -> h = "" \/ endswith_char c h = true ->
  rpartition c (h +:+ t) = (h, t).
Proof.
  intros Ht. induction h as [|a h IH]; intros Hh.
  - simpl. destruct t as [|b t]; [reflexivity|].
    simpl in *. apply orb_false_iff in Ht as [Hb Ht]. now rewrite Ht, Hb.
  - destruct Hh as [Hh|Hh]; [discriminate|].
    change (String a h +:+ t) with (String a (h +:+ t)). rewrite rpartition_cons.
    destruct h as [|b h].
    + simpl in *. now rewrite Ht, Hh.
    + assert (endswith_char c (String b h) = true) as Hh' by exact Hh.
      rewrite contains_app, (endswith_contains _ _ Hh'). cbn [orb].
      now rewrite (IH (or_intror Hh')).
Qed.

Lemma rstrip_nil_iff c (s : string) :
  rstrip c s = "" -> s = "" \/ endswith_char c s = true.
Proof.
  induction s as [|a s IH]; [auto|].
  simpl. destruct (rstrip c s) eqn:E; [|discriminate].
  destruct (Ascii.eqb a c) eqn:Ea; [|discriminate].
  intros _. right. destruct (IH eq_refl) as [->|H]; [simpl; auto|].
  destruct s; [discriminate|exact H].
Qed.

Lemma endswith_rstrip c (s : string) : endswith_char c (rstrip c s) = false.
Proof.
  induction s as [|a s IH]; [reflexivity|].
  simpl. destruct (rstrip c s) as [|b r] eqn:E.
  - destruct (Ascii.eqb a c) eqn:Ea; simpl; [reflexivity|exact Ea].
  - exact IH.
Qed.

Lemma rstrip_fixed c (s : string) : endswith_char c s = false -> rstrip c s = s.
Proof.
  induction s as [|a s IH]; [reflexivity|].
  simpl. destruct s as [|b s].
  - simpl. now intros ->.
  - intros H. rewrite (IH H). reflexivity.
Qed.

Lemma rstrip_idem c (s : string) : rstrip c (rstrip c s) = rstrip c s.
Proof. apply rstrip_fixed, endswith_rstrip. Qed.

Lemma rstrip_app_char c (s : string) : rstrip c (s +:+ String c "") = rstrip c s.
Proof.
  induction s as [|a s IH]; simpl; [now rewrite Ascii.eqb_refl|].
  now rewrite IH.
Qed.

(** A directory name as [os.path.split] returns it: without trailing
    slashes, or made of slashes only. *)
Lemma path_split_head (p : string) :
  rstrip "/" (fst (path_split p)) = fst (path_split p) \/
  rstrip "/" (fst (path_split p)) = "".
Proof.
  unfold path_split. destruct (rpartition "/" p) as [head tail].
  destruct (String.eqb (rstrip "/" head) "") eqn:E; simpl.
  - right. now apply String.eqb_eq.
  - left. apply rstrip_idem.
Qed.

Lemma path_split_tail (p : string) : contains "/" (snd (path_split p)) = false.
Proof.
  unfold path_split. pose proof (rpartition_spec "/" p) as (_ & H & _).
  destruct (rpartition "/" p) as [head tail]. exact H.
Qed.

Lemma startswith_char c a (f : string) :
  startswith (String c "") (String a f) = Ascii.eqb c a.
Proof.
  unfold startswith.
  change (String.prefix (String c "") (String a f))
    with (if ascii_dec c a then String.prefix "" f else false).
  destruct (ascii_dec c a) as [->|n].
  - rewrite Ascii.eqb_refl. now destruct f.
  - symmetry. now apply Ascii.eqb_neq.
Qed.

(** Joining a directory name and a file name, then splitting, gives them
    back. *)
Lemma path_split_join (d f : string) :
  rstrip "/" d = d \/ rstrip "/" d = "" ->
  contains "/" f = false -> f <> "" ->
  path_split (path_join d f) = (d, f).
Proof.
  intros Hd Hf Hne. unfold path_join.
  assert (startswith "/" f = false) as ->.
  { destruct f as [|a f]; [congruence|]. simpl in Hf.
    apply orb_false_iff in Hf as [Ha _]. rewrite startswith_char.
    now rewrite Ascii.eqb_sym. }
  assert (forall h, h = "" \/ endswith_char "/" h = true ->
            path_split (h +:+ f)
            = (if String.eqb (rstrip "/" h) "" then h else rstrip "/" h, f)) as Hsplit.
  { intros h Hh. unfold path_split. now rewrite (rpartition_app "/" h f Hf Hh). }
  destruct (String.eqb d "") eqn:Ed; cbn [orb].
  - apply String.eqb_eq in Ed. subst d. exact (Hsplit "" (or_introl eq_refl)).
  - apply String.eqb_neq in Ed. destruct (endswith_char "/" d) eqn:Ee.
    + rewrite (Hsplit d (or_intror Ee)).
      destruct Hd as [Hd|Hd].
      * pose proof (endswith_rstrip "/" d) as H. rewrite Hd in H. congruence.
      * now rewrite Hd.
    + change (d +:+ "/" +:+ f) with (d +:+ String "/" f).
      replace (d +:+ String "/" f) with ((d +:+ "/") +:+ f)
        by (rewrite append_assoc; reflexivity).
      rewrite (Hsplit (d +:+ "/") (or_intror (endswith_app_char "/" d))).
      rewrite rstrip_app_char, (rstrip_fixed _ _ Ee).
      apply String.eqb_neq in Ed. now rewrite Ed.
Qed.
(** ** Rotation *)

Section Retention.

Variable h : handler.

Let dirName := fst (path_split (h_baseFilename h)).
Let baseName := snd (path_split (h_baseFilename h)).

Lemma entries_under_eq w :
  entries_under w dirName
  = omap (entry_of dirName) (map fst (map_to_list (w_names w)) ++ elements (w_dirs w)).
Proof. reflexivity. Qed.



Lemma retained_cons l p :
  filter (fun f => rotated_name h f = true) (omap (entry_of dirName) (p :: l))
  = rotated_entry h p ++ filter (fun f => rotated_name h f = true) (omap (entry_of dirName) l).
Proof.
  change (omap ?g (p :: ?t)) with (match g p with Some y => y :: omap g t | None => omap g t end).
  unfold rotated_entry; fold dirName. destruct (entry_of dirName p) as [f|]; [|reflexivity].
  rewrite filter_cons. destruct (decide _) as [E|E].
  - rewrite E. reflexivity.
  - destruct (rotated_name h f); [congruence|reflexivity].
Qed.

(** Unlinking a file takes it off the rotated files, if it is one. *)
Lemma retained_delete_perm w w' p ino :
  w_names w !! p = Some ino -> w_names w' = delete p (w_names w) -> w_dirs w' = w_dirs w ->
  retained h w ≡ₚ rotated_entry h p ++ retained h w'.
Proof.
  intros Hp N D. unfold retained. fold dirName. rewrite !entries_under_eq, N, D.
  assert (map fst (map_to_list (w_names w))
            ≡ₚ p :: map fst (map_to_list (delete p (w_names w)))) as Hperm.
  { rewrite <- (map_to_list_delete _ _ _ Hp). reflexivity. }
  rewrite Hperm. apply reflexive_eq. apply (retained_cons (_ ++ _)).
Qed.


(** A new file is one more rotated file, if its name is that of one. *)
Lemma retained_insert_perm w w' p ino :
  w_names w !! p = None -> w_names w' = <[p := ino]> (w_names w) -> w_dirs w' = w_dirs w ->
  retained h w' ≡ₚ rotated_entry h p ++ retained h w.
Proof.
  intros Hp N D. apply (retained_delete_perm w' w p ino).
  - rewrite N. apply lookup_insert_eq.
  - rewrite N, delete_insert_eq. symmetry. now apply delete_id.
  - now rewrite D.
Qed.


(** The names of the entries of a directory are file names. *)
Lemma entry_of_name d p f : entry_of d p = Some f -> contains "/" f = false /\ f <> "".
Proof.
  unfold entry_of. pose proof (path_split_tail p) as Ht.
  destruct (path_split p) as [head tail]. simpl in Ht.
  destruct (String.eqb head d); [|discriminate]. simpl.
  destruct (String.eqb tail "") eqn:E; [discriminate|].
  intros [= <-]. split; [exact Ht|]. now apply String.eqb_neq.
Qed.

Lemma retained_names w f :
  In f (retained h w) -> rotated_name h f = true /\ contains "/" f = false /\ f <> "".
Proof.
  unfold retained. intros Hin. apply list_elem_of_In in Hin.
  apply list_elem_of_filter in Hin as [Hr Hin]. split; [exact Hr|].
  unfold entries_under in Hin. apply list_elem_of_omap in Hin as (p & _ & Hp).
  exact (entry_of_name dirName p f Hp).
Qed.

Lemma rotated_path_entry p :
  rotated_path h p -> exists f, rotated_entry h p = [f] /\ p = path_join dirName f.
Proof.
  intros (f & -> & Hr & Hf & Hne). fold dirName. exists f. split; [|reflexivity].
  unfold rotated_entry; fold dirName; unfold entry_of.
  rewrite (path_split_join dirName f (path_split_head _) Hf Hne).
  rewrite String.eqb_refl. apply String.eqb_neq in Hne. rewrite Hne. simpl. now rewrite Hr.
Qed.

(** Removing rotated files, one by one: they are gone, and the other
    rotated files are left. *)
Lemma for_each_remove files : forall w w',
  Forall (rotated_path h) files ->
  for_each remove files w = (Ok tt, w') ->
  retained_paths h w ≡ₚ files ++ retained_paths h w' /\
  w_dirs w' = w_dirs w /\ w_handlers w' = w_handlers w /\
  (forall p, w_names w !! p = None -> w_names w' !! p = None) /\
  Forall (fun p => w_names w' !! p = None) files.
Proof.
  induction files as [|p files IH]; intros w w' Hall; simpl.
  - intros [= <-]. repeat split; auto.
  - intros Hrun. apply bind_Ok_inv in Hrun as ([] & w1 & Hrm & Hrest).
    apply Forall_cons_iff in Hall as [Hp Hall].
    destruct (rotated_path_entry p Hp) as (f & Hf & Hpf).
    unfold remove in Hrm. unfold is_file in Hrm.
    destruct (w_names w !! p) as [ino|] eqn:En.
    + rewrite bool_decide_eq_true_2 in Hrm by eauto. injection Hrm as <-.
      destruct (IH _ _ Hall Hrest) as (Hperm & Hd & Hh & Hn & Hgone).
      split; [|split; [exact Hd|split; [exact Hh|split]]].
      * unfold retained_paths in *. fold dirName in Hperm |- *.
        rewrite (retained_delete_perm w (set_names (delete p (w_names w)) w) p ino
                   En eq_refl eq_refl), Hf.
        cbn [app map]. rewrite <- Hpf. now apply Permutation_cons.
      * intros q Hq. apply Hn. cbn.
        destruct (decide (p = q)) as [->|Hne]; [apply lookup_delete_eq|].
        now rewrite lookup_delete_ne.
      * apply Forall_cons_iff. split; [|exact Hgone].
        apply Hn. cbn. apply lookup_delete_eq.
    + rewrite bool_decide_eq_false_2 in Hrm by (intros [? [=]]).
      destruct (is_dir w p); discriminate.
Qed.

(** getFilesToDelete in terms of the rotated files of the directory. *)
Lemma getFilesToDelete_eq w :
  getFilesToDelete h w =
  if is_dir w dirName then
    let result := map (path_join dirName) (retained h w) in
    (Ok (if Z.of_nat (length result) <? h_backupCount h then []
         else take (Z.to_nat (Z.of_nat (length result) - h_backupCount h))
                   (merge_sort String.le result)), w)
  else (Raise FileNotFoundError, w).
Proof.
  unfold getFilesToDelete. fold dirName baseName.
  rewrite (surjective_pairing (path_split (h_baseFilename h))). fold dirName baseName.
  rewrite bind_unfold. unfold listdir.
  destruct (is_dir w dirName); [|reflexivity].
  rewrite (surjective_pairing (splitext baseName)).
  set (prefix := fst (splitext baseName) +:+ ".").
  set (result := omap _ (entries_under w dirName)).
  assert (result = map (path_join dirName) (retained h w)) as Hres.
  { subst result. unfold retained. fold dirName.
    induction (entries_under w dirName) as [|f l IH]; [reflexivity|].
    rewrite filter_cons. unfold rotated_name at 1. fold baseName prefix.
    change (omap ?g (f :: l)) with (match g f with Some y => y :: omap g l | None => omap g l end).
    rewrite IH. clear IH.
    destruct (decide _) as [E|E].
    - apply andb_prop in E as [E E3]. apply andb_prop in E as [E1 E2].
      rewrite E1, E2, E3. reflexivity.
    - destruct (startswith baseName f); [|reflexivity]. simpl in *.
      destruct (_ && _); [congruence|reflexivity]. }
  rewrite Hres. cbv zeta. destruct (_ <? _); reflexivity.
Qed.

Lemma retained_paths_rotated w : Forall (rotated_path h) (retained_paths h w).
Proof.
  apply Forall_forall. intros p Hp. apply list_elem_of_In in Hp.
  unfold retained_paths in Hp. apply in_map_iff in Hp as (f & <- & Hf).
  destruct (retained_names w f Hf) as (Hr & Hs & Hne). exists f. auto.
Qed.

(** The files getFilesToDelete chooses: rotated files, as many as there are
    beyond backupCount, and the first ones in the order of their paths. *)
Lemma getFilesToDelete_spec w files w' :
  0 < h_backupCount h ->
  getFilesToDelete h w = (Ok files, w') ->
  w' = w /\ Forall (rotated_path h) files /\
  length files = (length (retained h w) - Z.to_nat (h_backupCount h))%nat /\
  exists keep,
    files ++ keep ≡ₚ retained_paths h w /\
    forall p q, In p files -> In q keep -> String.le p q.
Proof.
  intros Hbc. rewrite getFilesToDelete_eq. destruct (is_dir w dirName); [|discriminate].
  cbv zeta. pose proof (retained_paths_rotated w) as Hall.
  unfold retained_paths in Hall |- *. fold dirName in Hall |- *.
  set (result := map (path_join dirName) (retained h w)) in *.
  assert (length result = length (retained h w)) as Hlen by apply length_map.
  destruct (Z.of_nat (length result) <? h_backupCount h) eqn:Elt.
  - apply Z.ltb_lt in Elt. intros [= <- <-]. split; [reflexivity|].
    split; [constructor|]. split; [simpl; lia|].
    exists result. split; [reflexivity|]. intros p q [].
  - apply Z.ltb_ge in Elt. intros [= <- <-]. split; [reflexivity|].
    set (k := Z.to_nat (Z.of_nat (length result) - h_backupCount h)).
    split; [|split].
    + apply Forall_forall. intros p Hp. apply subseteq_take in Hp.
      rewrite merge_sort_Permutation in Hp.
      revert p Hp. apply Forall_forall. exact Hall.
    + rewrite length_take_le by (rewrite merge_sort_Permutation; lia). lia.
    + exists (drop k (merge_sort String.le result)). split.
      * rewrite take_drop. apply merge_sort_Permutation.
      * intros p q Hp Hq. apply list_elem_of_In in Hp, Hq.
        apply (StronglySorted_app_1_elem_of String.le (take k (merge_sort String.le result))
                 (drop k (merge_sort String.le result))); [|exact Hp|exact Hq].
        rewrite take_drop. apply StronglySorted_merge_sort; apply _.
Qed.

(** *** One rollover *)

Lemma int_time_eq w :
  int_time w = (Ok (Z.quot (w_clock w (w_ticks w)) 1000000), set_ticks (S (w_ticks w)) w).
Proof. reflexivity. Qed.

Lemma remove_inv p w w' :
  remove p w = (Ok tt, w') ->
  exists ino, w_names w !! p = Some ino /\ w' = set_names (delete p (w_names w)) w.
Proof.
  unfold remove, is_file. destruct (w_names w !! p) as [ino|] eqn:E.
  - rewrite bool_decide_eq_true_2 by eauto. intros [= <-]. eauto.
  - rewrite bool_decide_eq_false_2 by (intros [? [=]]).
    destruct (is_dir w p); discriminate.
Qed.

Lemma is_file_false w p : is_file w p = false -> w_names w !! p = None.
Proof.
  unfold is_file. intros H. apply bool_decide_eq_false in H.
  destruct (w_names w !! p) eqn:E; [|reflexivity]. destruct H. eauto.
Qed.

(** The live file of the handler is not one of its rotated files. *)
Hypothesis live_name : rotated_name h baseName = false.

Lemma entry_live : rotated_entry h (h_baseFilename h) = [].
Proof.
  unfold rotated_entry, entry_of. rewrite (surjective_pairing (path_split _)).
  fold dirName baseName. destruct (_ && _); [|reflexivity]. now rewrite live_name.
Qed.



End Retention.
(** ** The name of a channel's file *)

Lemma length_append (a b : string) :
  String.length (a +:+ b) = (String.length a + String.length b)%nat.
Proof. induction a as [|x a IH]; [reflexivity|]. cbn [String.append String.length]. now rewrite IH. Qed.














(** ** Daily rotation *)





(** Forty events logged in the example process, where every reading of the
    clock is a day, less a second, after the one before: a call reads the
    clock four times, so each call finds a rollover due and makes it without
    an error; the rotated files left are the last fourteen. *)
Lemma forty_events_rotated :
  let w := snd (repeat_call demo_self example_event 40 daily_world) in
  fst (repeat_call demo_self example_event 40 daily_world) = Ok tt /\
  w_stderr w = [] /\
  option_map (fun h => merge_sort String.le (retained h w)) (w_handlers w !! 0%nat)
  = Some ["events.jsonl.2024-04-10"; "events.jsonl.2024-04-14"; "events.jsonl.2024-04-18";
          "events.jsonl.2024-04-22"; "events.jsonl.2024-04-26"; "events.jsonl.2024-04-30";
          "events.jsonl.2024-05-04"; "events.jsonl.2024-05-08"; "events.jsonl.2024-05-12";
          "events.jsonl.2024-05-16"; "events.jsonl.2024-05-20"; "events.jsonl.2024-05-24";
          "events.jsonl.2024-05-28"; "events.jsonl.2024-06-01"].
Proof. intros w. split; [|split]; vm_compute; reflexivity. Qed.
(** * Further properties of the module *)

(** ** The masker *)

(** X1: masking is idempotent: the mask of a str is a str that the masker maps
    to itself. *)
Theorem mask_ip_idempotent (ip : string) :
  exists m, _mask_ip (VStr ip) = Ok (VStr m) /\ _mask_ip (VStr m) = Ok (VStr m).
Proof.
  pose proof (split_segments_free "." ip) as F.
  unfold _mask_ip at 1.
  destruct (split "." ip) as [|a [|b [|c [|d [|e t]]]]] eqn:E; simpl;
    try (exists "unknown"; split; reflexivity).
  apply Forall_cons_iff in F as [Ha F]. apply Forall_cons_iff in F as [Hb F].
  apply Forall_cons_iff in F as [Hc _].
  exists (a +:+ "." +:+ b +:+ "." +:+ c +:+ ".xxx"). split; [reflexivity|].
  unfold _mask_ip.
  rewrite (split_dotted_quad _ a b c "xxx"); [reflexivity|].
  repeat split; auto.
Qed.

(** ** The formatter *)



(** ** Keyword arguments *)


(** ** The fields of the records *)

(** Every line a call appends is the JSON text of the entry the formatter
    makes of the call's fields and message. *)
Lemma call_lines self c w r w' :
  handlers_ok w -> run_call self c w = (r, w') ->
  appended (fun line => exists E msg now,
              call_fields w c = Ok E /\ call_message w c = Ok msg /\
              json_dumps (VDict (log_entry_of now (call_level c) msg E)) = Ok line) w w'.
Proof.
  intros Hok Hrun. apply run_call_outcome in Hrun; [|exact Hok].
  eapply call_outcome_appended; [exact Hrun|].
  intros E msg line HE Hmsg (n & now & _ & _ & Hline). eauto 6.
Qed.

Lemma fixed_keys_NoDup (fixed kwargs : dict) :
  List.NoDup (dict_keys fixed) -> List.NoDup (dict_keys (dict_update fixed kwargs)).
Proof. apply dict_update_NoDup. Qed.

(** The fields of a network event. *)
Lemma network_record_fields et src dst port proto (kwargs E : dict) :
  List.NoDup (dict_keys kwargs) ->
  network_record et src dst port proto kwargs = Ok E ->
  List.NoDup (dict_keys E) /\
  exists ms md,
    _mask_ip (VStr src) = Ok ms /\ _mask_ip (VStr dst) = Ok md /\
    dict_get "src_ip" E = Some ms /\ dict_get "dst_ip" E = Some md /\
    dict_get "event_type" E = Some (VStr et) /\
    dict_get "port" E = Some (VInt port) /\
    dict_get "protocol" E = Some (VStr proto) /\
    dict_get "category" E = Some (default (VStr "network") (dict_get "category" kwargs)) /\
    forall k v, dict_get k kwargs = Some v -> dict_get k E = Some v.
Proof.
  intros Hnd HE. unfold network_record in HE.
  destruct (existsb _ (dict_keys kwargs)) eqn:Ek; [discriminate|].
  destruct (_mask_ip (VStr src)) as [ms|]; [|discriminate].
  destruct (_mask_ip (VStr dst)) as [md|]; [|discriminate].
  injection HE as <-. split.
  { apply dict_update_NoDup. simpl.
    repeat (constructor; [simpl; intuition discriminate|]). constructor. }
  exists ms, md. split; [reflexivity|]. split; [reflexivity|].
  rewrite !dict_get_update by exact Hnd.
  rewrite (kwargs_not_param _ _ "src_ip" Ek) by (simpl; tauto).
  rewrite (kwargs_not_param _ _ "dst_ip" Ek) by (simpl; tauto).
  rewrite (kwargs_not_param _ _ "event_type" Ek) by (simpl; tauto).
  rewrite (kwargs_not_param _ _ "port" Ek) by (simpl; tauto).
  rewrite (kwargs_not_param _ _ "protocol" Ek) by (simpl; tauto).
  repeat (split; [reflexivity|]). split.
  - now destruct (dict_get "category" kwargs).
  - intros k v Hk. rewrite dict_get_update by exact Hnd. now rewrite Hk.
Qed.

(** The fields of an API request. *)
Lemma api_record_fields m e src sc x (kwargs E : dict) :
  List.NoDup (dict_keys kwargs) ->
  api_record m e src sc x kwargs = Ok E ->
  List.NoDup (dict_keys E) /\
  exists ms rounded,
    _mask_ip (VStr src) = Ok ms /\ round x 2 = Ok rounded /\
    dict_get "src_ip" E = Some ms /\
    dict_get "method" E = Some (VStr m) /\
    dict_get "endpoint" E = Some (VStr e) /\
    dict_get "status_code" E = Some (VInt sc) /\
    dict_get "response_time_ms" E = Some (VFloat rounded) /\
    dict_get "category" E = Some (default (VStr "api") (dict_get "category" kwargs)) /\
    forall k v, dict_get k kwargs = Some v -> dict_get k E = Some v.
Proof.
  intros Hnd HE. unfold api_record in HE.
  destruct (existsb _ (dict_keys kwargs)) eqn:Ek; [discriminate|].
  destruct (_mask_ip (VStr src)) as [ms|]; [|discriminate].
  destruct (round x 2) as [rounded|]; [|discriminate].
  injection HE as <-. split.
  { apply dict_update_NoDup. simpl.
    repeat (constructor; [simpl; intuition discriminate|]). constructor. }
  exists ms, rounded. split; [reflexivity|]. split; [reflexivity|].
  rewrite !dict_get_update by exact Hnd.
  rewrite (kwargs_not_param _ _ "src_ip" Ek) by (simpl; tauto).
  rewrite (kwargs_not_param _ _ "method" Ek) by (simpl; tauto).
  rewrite (kwargs_not_param _ _ "endpoint" Ek) by (simpl; tauto).
  rewrite (kwargs_not_param _ _ "status_code" Ek) by (simpl; tauto).
  rewrite (kwargs_not_param _ _ "response_time_ms" Ek) by (simpl; tauto).
  repeat (split; [reflexivity|]). split.
  - now destruct (dict_get "category" kwargs).
  - intros k v Hk. rewrite dict_get_update by exact Hnd. now rewrite Hk.
Qed.

(** The fields of a threat. *)
Lemma threat_record_fields category (d E : dict) :
  List.NoDup (dict_keys d) ->
  threat_record category d = Ok E ->
  List.NoDup (dict_keys E) /\
  (forall k v, dict_get k d = Some v -> k <> "src_ip" ->
     (k = "src_ip_masked" -> dict_get "src_ip" d = None) -> dict_get k E = Some v) /\
  (forall k, k <> "src_ip" -> k <> "src_ip_masked" -> k <> "category" ->
     dict_get k E = dict_get k d).
Proof.
  intros Hnd HE. unfold threat_record in HE.
  set (td := dict_update [("category", VStr category)] d) in *.
  assert (List.NoDup (dict_keys td)) as Htd by now apply threat_fields_keys.
  assert (forall k, dict_get k td =
                    match dict_get k d with
                    | Some v => Some v
                    | None => if String.eqb "category" k then Some (VStr category) else None
                    end) as Hget.
  { intros k. unfold td. now rewrite dict_get_update by exact Hnd. }
  destruct (dict_mem "src_ip" td) eqn:Emem.
  - destruct (_mask_ip _) as [masked|]; [|discriminate]. injection HE as <-.
    assert (List.NoDup (dict_keys (dict_set "src_ip_masked" masked td))) as Hset
      by now apply dict_set_NoDup.
    assert (dict_get "src_ip" d <> None) as Hsrc.
    { unfold dict_mem in Emem. rewrite Hget in Emem.
      destruct (dict_get "src_ip" d); [discriminate|]. simpl in Emem. discriminate. }
    split; [now apply dict_del_NoDup|]. split.
    + intros k v Hk Hne Hm. rewrite dict_get_del by exact Hset.
      rewrite (eqb_neq_false "src_ip" k) by congruence.
      rewrite dict_get_set. destruct (String.eqb "src_ip_masked" k) eqn:Ek.
      * apply String.eqb_eq in Ek. subst k. now destruct Hsrc; apply Hm.
      * now rewrite Hget, Hk.
    + intros k H1 H2 H3. rewrite dict_get_del by exact Hset.
      rewrite (eqb_neq_false "src_ip" k) by congruence.
      rewrite dict_get_set, (eqb_neq_false "src_ip_masked" k) by congruence.
      rewrite Hget, (eqb_neq_false "category" k) by congruence.
      now destruct (dict_get k d).
  - injection HE as <-. split; [exact Htd|]. split.
    + intros k v Hk _ _. now rewrite Hget, Hk.
    + intros k _ _ H3. rewrite Hget, (eqb_neq_false "category" k) by congruence.
      now destruct (dict_get k d).
Qed.

(** X4: in every record [log_network_event] persists, src_ip and dst_ip are
    the masks of the addresses given (no keyword can replace them), the
    event type, port and protocol are the ones given, every keyword field
    is there with its value, and the category is network unless a keyword
    names another. *)
Theorem log_network_event_fields self et src dst port proto (kwargs : dict) w r w' :
  handlers_ok w -> List.NoDup (dict_keys kwargs) ->
  log_network_event self et src dst port proto kwargs w = (r, w') ->
  appended (fun line => exists entry ms md,
              json_dumps (VDict entry) = Ok line /\
              _mask_ip (VStr src) = Ok ms /\ _mask_ip (VStr dst) = Ok md /\
              dict_get "src_ip" entry = Some ms /\
              dict_get "dst_ip" entry = Some md /\
              dict_get "event_type" entry = Some (VStr et) /\
              dict_get "port" entry = Some (VInt port) /\
              dict_get "protocol" entry = Some (VStr proto) /\
              dict_get "category" entry
                = Some (default (VStr "network") (dict_get "category" kwargs)) /\
              forall k v, dict_get k kwargs = Some v -> dict_get k entry = Some v) w w'.
Proof.
  intros Hok Hnd Hrun.
  apply (call_lines self (NetworkEvent et src dst port proto kwargs)) in Hrun; [|exact Hok].
  eapply appended_impl; [|exact Hrun].
  intros line (E & msg & now & HE & _ & Hline). simpl in HE.
  destruct (network_record_fields _ _ _ _ _ _ _ Hnd HE)
    as (HndE & ms & md & Hms & Hmd & G1 & G2 & G3 & G4 & G5 & G6 & G7).
  exists (log_entry_of now "INFO" msg E), ms, md.
  split; [exact Hline|]. split; [exact Hms|]. split; [exact Hmd|].
  rewrite !log_entry_get by exact HndE.
  rewrite G1, G2, G3, G4, G5, G6. repeat (split; [reflexivity|]).
  intros k v Hk. rewrite log_entry_get by exact HndE. now rewrite (G7 k v Hk).
Qed.

Lemma log_network_event_fields_witness :
  appended (fun line => exists entry ms md,
              json_dumps (VDict entry) = Ok line /\
              _mask_ip (VStr "192.168.1.100") = Ok ms /\
              _mask_ip (VStr "192.168.1.10") = Ok md /\
              dict_get "src_ip" entry = Some ms /\
              dict_get "dst_ip" entry = Some md /\
              dict_get "event_type" entry = Some (VStr "connection") /\
              dict_get "port" entry = Some (VInt 554) /\
              dict_get "protocol" entry = Some (VStr "TCP") /\
              dict_get "category" entry
                = Some (default (VStr "network")
                          (dict_get "category" [("category", VStr "camera")])) /\
              forall k v, dict_get k [("category", VStr "camera")] = Some v ->
                          dict_get k entry = Some v)
    demo_world
    (snd (log_network_event demo_self "connection" "192.168.1.100" "192.168.1.10" 554 "TCP"
            [("category", VStr "camera")] demo_world)).
Proof.
  apply (log_network_event_fields demo_self "connection" "192.168.1.100" "192.168.1.10"
           554 "TCP" [("category", VStr "camera")] demo_world
           (fst (log_network_event demo_self "connection" "192.168.1.100" "192.168.1.10"
                   554 "TCP" [("category", VStr "camera")] demo_world))).
  - exact handlers_ok_demo.
  - repeat (constructor; [simpl; intuition discriminate|]). constructor.
  - apply surjective_pairing.
Defined.

(** X5: in every record [log_api_request] persists, src_ip is the mask of the
    address given, the method and the endpoint are the ones given, and the
    category is api unless a keyword names another. *)
Theorem log_api_request_fields self m e src sc x (kwargs : dict) w r w' :
  handlers_ok w -> List.NoDup (dict_keys kwargs) ->
  log_api_request self m e src sc x kwargs w = (r, w') ->
  appended (fun line => exists entry ms,
              json_dumps (VDict entry) = Ok line /\
              _mask_ip (VStr src) = Ok ms /\
              dict_get "src_ip" entry = Some ms /\
              dict_get "method" entry = Some (VStr m) /\
              dict_get "endpoint" entry = Some (VStr e) /\
              dict_get "category" entry
                = Some (default (VStr "api") (dict_get "category" kwargs))) w w'.
Proof.
  intros Hok Hnd Hrun.
  apply (call_lines self (ApiRequest m e src sc x kwargs)) in Hrun; [|exact Hok].
  eapply appended_impl; [|exact Hrun].
  intros line (E & msg & now & HE & _ & Hline). simpl in HE.
  destruct (api_record_fields _ _ _ _ _ _ _ Hnd HE)
    as (HndE & ms & rounded & Hms & _ & G1 & G2 & G3 & _ & _ & G6 & _).
  exists (log_entry_of now "INFO" msg E), ms.
  split; [exact Hline|]. split; [exact Hms|].
  rewrite !log_entry_get by exact HndE.
  rewrite G1, G2, G3, G6. repeat (split; [reflexivity|]). reflexivity.
Qed.

Lemma log_api_request_fields_witness :
  appended (fun line => exists entry ms,
              json_dumps (VDict entry) = Ok line /\
              _mask_ip (VStr "192.168.1.50") = Ok ms /\
              dict_get "src_ip" entry = Some ms /\
              dict_get "method" entry = Some (VStr "POST") /\
              dict_get "endpoint" entry = Some (VStr "/api/login") /\
              dict_get "category" entry
                = Some (default (VStr "api")
                          (dict_get "category" [("username", VStr "admin")])))
    demo_world
    (snd (log_api_request demo_self "POST" "/api/login" "192.168.1.50" 200 45.3
            [("username", VStr "admin")] demo_world)).
Proof.
  apply (log_api_request_fields demo_self "POST" "/api/login" "192.168.1.50" 200
           45.3%float [("username", VStr "admin")] demo_world
           (fst (log_api_request demo_self "POST" "/api/login" "192.168.1.50" 200 45.3
                   [("username", VStr "admin")] demo_world))).
  - exact handlers_ok_demo.
  - repeat (constructor; [simpl; intuition discriminate|]). constructor.
  - apply surjective_pairing.
Defined.

(** X6: a response time that is not a number or is infinite passes through
    round unchanged and is persisted as the token NaN, Infinity or
    -Infinity, which is no JSON number. *)
Theorem log_api_request_nonfinite self m e src sc x (kwargs : dict) w r w' :
  handlers_ok w -> List.NoDup (dict_keys kwargs) ->
  Prim2SF x = S754_nan \/ (exists s, Prim2SF x = S754_infinity s) ->
  log_api_request self m e src sc x kwargs w = (r, w') ->
  round x 2 = Ok x /\
  appended (fun line => exists entry token,
              json_dumps (VDict entry) = Ok line /\
              dict_get "response_time_ms" entry = Some (VFloat x) /\
              json_dumps (VFloat x) = Ok token /\
              In token ["NaN"; "Infinity"; "-Infinity"]) w w'.
Proof.
  intros Hok Hnd Hx Hrun.
  assert (round x 2 = Ok x) as Hround.
  { unfold round. destruct Hx as [->|[s ->]]; reflexivity. }
  split; [exact Hround|].
  apply (call_lines self (ApiRequest m e src sc x kwargs)) in Hrun; [|exact Hok].
  eapply appended_impl; [|exact Hrun].
  intros line (E & msg & now & HE & _ & Hline). simpl in HE.
  destruct (api_record_fields _ _ _ _ _ _ _ Hnd HE)
    as (HndE & ms & rounded & _ & Hr & _ & _ & _ & _ & G5 & _).
  rewrite Hround in Hr. injection Hr as <-.
  exists (log_entry_of now "INFO" msg E), (floatstr x).
  split; [exact Hline|]. split.
  - rewrite log_entry_get by exact HndE. now rewrite G5.
  - split; [reflexivity|]. unfold floatstr.
    destruct Hx as [->|[[] ->]]; simpl; auto.
Qed.

Lemma log_api_request_nonfinite_witness :
  round nan 2 = Ok nan /\
  appended (fun line => exists entry token,
              json_dumps (VDict entry) = Ok line /\
              dict_get "response_time_ms" entry = Some (VFloat nan) /\
              json_dumps (VFloat nan) = Ok token /\
              In token ["NaN"; "Infinity"; "-Infinity"])
    demo_world
    (snd (log_api_request demo_self "GET" "/api/health" "192.168.1.50" 200 nan []
            demo_world)).
Proof.
  apply (log_api_request_nonfinite demo_self "GET" "/api/health" "192.168.1.50" 200
           nan [] demo_world
           (fst (log_api_request demo_self "GET" "/api/health" "192.168.1.50" 200 nan []
                   demo_world))).
  - exact handlers_ok_demo.
  - constructor.
  - left. reflexivity.
  - apply surjective_pairing.
Defined.
(** ** Threats *)

Lemma handlers_ok_numeric : handlers_ok numeric_world.
Proof. unfold numeric_world. apply handlers_ok_set_heap, handlers_ok_demo. Qed.

Lemma handlers_ok_verbose : handlers_ok verbose_world.
Proof. unfold verbose_world. apply handlers_ok_set_heap, handlers_ok_demo. Qed.

(** X7: only src_ip is masked: every other field of the threat mapping is
    persisted with the value the mapping gives it, also another address
    such as dst_ip, and also src_ip_masked when the mapping has no src_ip. *)
Theorem log_threat_other_fields_raw self category threat (d : dict) w r w' :
  handlers_ok w -> w_heap w !! threat = Some d -> List.NoDup (dict_keys d) ->
  log_threat self category threat w = (r, w') ->
  appended (fun line => exists entry,
              json_dumps (VDict entry) = Ok line /\
              forall k v, dict_get k d = Some v -> k <> "src_ip" ->
                (k = "src_ip_masked" -> dict_get "src_ip" d = None) ->
                dict_get k entry = Some v) w w'.
Proof.
  intros Hok Hd Hnd Hrun.
  apply (call_lines self (Threat category threat)) in Hrun; [|exact Hok].
  eapply appended_impl; [|exact Hrun].
  intros line (E & msg & now & HE & _ & Hline). simpl in HE. rewrite Hd in HE.
  destruct (threat_record_fields _ _ _ Hnd HE) as (HndE & Hraw & _).
  exists (log_entry_of now "WARNING" msg E). split; [exact Hline|].
  intros k v Hk Hne Hm. rewrite log_entry_get by exact HndE.
  now rewrite (Hraw k v Hk Hne Hm).
Qed.

Lemma log_threat_other_fields_raw_witness :
  appended (fun line => exists entry,
              json_dumps (VDict entry) = Ok line /\
              forall k v,
                dict_get k [("dst_ip", VStr "192.168.1.10"); ("src_ip", VStr "10.0.0.5");
                            ("threat_type", VInt 7)] = Some v ->
                k <> "src_ip" ->
                (k = "src_ip_masked" ->
                 dict_get "src_ip" [("dst_ip", VStr "192.168.1.10");
                                    ("src_ip", VStr "10.0.0.5");
                                    ("threat_type", VInt 7)] = None) ->
                dict_get k entry = Some v)
    verbose_world (snd (log_threat demo_self "network" 8 verbose_world)).
Proof.
  apply (log_threat_other_fields_raw demo_self "network" 8
           [("dst_ip", VStr "192.168.1.10"); ("src_ip", VStr "10.0.0.5");
            ("threat_type", VInt 7)] verbose_world
           (fst (log_threat demo_self "network" 8 verbose_world))).
  - exact handlers_ok_verbose.
  - vm_compute. reflexivity.
  - repeat (constructor; [simpl; intuition discriminate|]). constructor.
  - apply surjective_pairing.
Defined.

(** X8: the message of a threat record is THREAT: followed by the str of the
    mapping's threat_type, whatever its type, or by UNKNOWN when the
    mapping has no such key, and its level is WARNING; each unless the
    mapping has a message or a level key of its own, which is persisted
    instead. *)
Theorem log_threat_message self category threat (d : dict) w r w' :
  handlers_ok w -> w_heap w !! threat = Some d -> List.NoDup (dict_keys d) ->
  log_threat self category threat w = (r, w') ->
  appended (fun line => exists entry t,
              json_dumps (VDict entry) = Ok line /\
              str (w_repr w) (default (VStr "UNKNOWN") (dict_get "threat_type" d)) = Ok t /\
              dict_get "message" entry
                = Some (default (VStr ("THREAT: " +:+ t)) (dict_get "message" d)) /\
              dict_get "level" entry
                = Some (default (VStr "WARNING") (dict_get "level" d))) w w'.
Proof.
  intros Hok Hd Hnd Hrun.
  apply (call_lines self (Threat category threat)) in Hrun; [|exact Hok].
  eapply appended_impl; [|exact Hrun].
  intros line (E & msg & now & HE & Hmsg & Hline). simpl in HE, Hmsg.
  rewrite Hd in HE, Hmsg.
  destruct (str (w_repr w) _) as [t|] eqn:Et; [|discriminate]. injection Hmsg as <-.
  destruct (threat_record_fields _ _ _ Hnd HE) as (HndE & _ & Hsame).
  exists (log_entry_of now "WARNING" ("THREAT: " +:+ t) E), t.
  split; [exact Hline|]. split; [reflexivity|].
  rewrite !log_entry_get by exact HndE.
  rewrite !Hsame by discriminate.
  split; [now destruct (dict_get "message" d)|now destruct (dict_get "level" d)].
Qed.

Lemma log_threat_message_witness :
  appended (fun line => exists entry t,
              json_dumps (VDict entry) = Ok line /\
              str (w_repr verbose_world)
                (default (VStr "UNKNOWN")
                   (dict_get "threat_type"
                      [("dst_ip", VStr "192.168.1.10"); ("src_ip", VStr "10.0.0.5");
                       ("threat_type", VInt 7)])) = Ok t /\
              dict_get "message" entry
                = Some (default (VStr ("THREAT: " +:+ t))
                          (dict_get "message"
                             [("dst_ip", VStr "192.168.1.10"); ("src_ip", VStr "10.0.0.5");
                              ("threat_type", VInt 7)])) /\
              dict_get "level" entry
                = Some (default (VStr "WARNING")
                          (dict_get "level"
                             [("dst_ip", VStr "192.168.1.10"); ("src_ip", VStr "10.0.0.5");
                              ("threat_type", VInt 7)])))
    verbose_world (snd (log_threat demo_self "network" 8 verbose_world)).
Proof.
  apply (log_threat_message demo_self "network" 8
           [("dst_ip", VStr "192.168.1.10"); ("src_ip", VStr "10.0.0.5");
            ("threat_type", VInt 7)] verbose_world
           (fst (log_threat demo_self "network" 8 verbose_world))).
  - exact handlers_ok_verbose.
  - vm_compute. reflexivity.
  - repeat (constructor; [simpl; intuition discriminate|]). constructor.
  - apply surjective_pairing.
Defined.

(** X9: a threat whose src_ip is not a str but None, a bool, a number, a
    list or a dict makes the masker fail: the call raises AttributeError,
    no file is written to, and the dicts the caller holds are as they
    were. *)
Theorem log_threat_src_ip_not_str self category threat (d : dict) v w r w' :
  handlers_ok w -> w_heap w !! threat = Some d -> List.NoDup (dict_keys d) ->
  dict_get "src_ip" d = Some v ->
  (forall s, v <> VStr s) -> (forall tag, v <> VObj tag) ->
  log_threat self category threat w = (r, w') ->
  r = Raise AttributeError /\
  (forall ino, data w' ino = data w ino) /\
  (forall l x, w_heap w !! l = Some x -> w_heap w' !! l = Some x).
Proof.
  intros Hok Hd Hnd Hsrc Hv _ Hrun.
  apply log_threat_outcome in Hrun; [|exact Hok].
  destruct Hrun as (_ & _ & _ & _ & Hheap & Hout).
  assert (call_fields w (Threat category threat) = Raise AttributeError) as HE.
  { simpl. rewrite Hd. unfold threat_record.
    assert (dict_get "src_ip" (dict_update [("category", VStr category)] d) = Some v) as Hg.
    { rewrite dict_get_update by exact Hnd. now rewrite Hsrc. }
    unfold dict_mem. rewrite Hg. simpl.
    destruct v; try reflexivity. now destruct (Hv s). }
  rewrite HE in Hout. destruct Hout as [-> Hdata]. auto.
Qed.

Lemma log_threat_src_ip_not_str_witness :
  fst (log_threat demo_self "network" 8 numeric_world) = Raise AttributeError /\
  (forall ino, data (snd (log_threat demo_self "network" 8 numeric_world)) ino
               = data numeric_world ino) /\
  (forall l x, w_heap numeric_world !! l = Some x ->
               w_heap (snd (log_threat demo_self "network" 8 numeric_world)) !! l = Some x).
Proof.
  apply (log_threat_src_ip_not_str demo_self "network" 8
           [("threat_type", VStr "PORT_SCAN"); ("src_ip", VInt 167772165)]
           (VInt 167772165) numeric_world
           (fst (log_threat demo_self "network" 8 numeric_world))
           (snd (log_threat demo_self "network" 8 numeric_world))).
  - exact handlers_ok_numeric.
  - vm_compute. reflexivity.
  - repeat (constructor; [simpl; intuition discriminate|]). constructor.
  - reflexivity.
  - intros s. discriminate.
  - intros tag. discriminate.
  - apply surjective_pairing.
Defined.
(** ** create_logger, step by step *)

Lemma makedirs_raise name w e w1 : makedirs name w = (Raise e, w1) -> w1 = w.
Proof.
  unfold makedirs.
  repeat match goal with |- context [if ?c then _ else _] => destruct c end;
    intros [=]; congruence.
Qed.

Lemma open_append_raise p w e w1 : open_append p w = (Raise e, w1) -> w1 = w.
Proof.
  unfold open_append.
  repeat match goal with |- context [if ?c then _ else _] => destruct c end;
    try (intros [=]; congruence).
  destruct (w_names w !! p); discriminate.
Qed.

Lemma open_append_is_file p w sid w1 :
  open_append p w = (Ok sid, w1) ->
  is_file w1 p = true /\ w_handlers w1 = w_handlers w /\ w_loggers w1 = w_loggers w /\
  w_cwd w1 = w_cwd w.
Proof.
  unfold open_append.
  repeat match goal with |- context [if ?c then _ else _] => destruct c end;
    try discriminate.
  unfold is_file. destruct (w_names w !! p) as [ino|] eqn:E; intros [= <- <-]; cbn.
  - rewrite E. split; [apply bool_decide_eq_true_2; eauto|auto].
  - rewrite lookup_insert_eq. split; [apply bool_decide_eq_true_2; eauto|auto].
Qed.

Lemma with_logger_twice key n hs n' hs' w :
  with_logger key n' hs' (with_logger key n hs w) = with_logger key n' hs' w.
Proof. unfold with_logger. cbn. now rewrite insert_insert_eq. Qed.

Lemma with_logger_registered name n hs w :
  with_logger (logger_key name) n hs (snd (getLogger name w))
  = with_logger (logger_key name) n hs w.
Proof.
  rewrite getLogger_spec. cbn [snd].
  destruct (w_loggers w !! logger_key name); [reflexivity|].
  unfold with_logger. cbn. now rewrite insert_insert_eq.
Qed.

Lemma stat_mtime_eq p w :
  is_file w p = true -> stat_mtime p w = (Ok (mtime w p), w).
Proof.
  unfold is_file, stat_mtime, mtime. intros H. apply bool_decide_eq_true in H.
  destruct (w_names w !! p); [reflexivity|]. destruct H as [? [=]].
Qed.

(** create_logger is the composition of its steps. *)
Lemma create_logger_eq name log_dir level w :
  create_logger name log_dir level w = create_logger_steps name log_dir level w.
Proof.
  unfold create_logger, create_logger_steps.
  rewrite bind_unfold.
  destruct (makedirs log_dir w) as [[[]|e] w1] eqn:E1.
  2:{ now rewrite (makedirs_raise _ _ _ _ E1). }
  apply makedirs_ok in E1 as (L1 & F1 & S1 & N1 & C1).
  rewrite bind_unfold, getLogger_spec. cbn [snd].
  set (key := logger_key name).
  set (w2 := match w_loggers w1 !! key with Some _ => w1 | None => _ end).
  rewrite bind_unfold. unfold lift at 1.
  destruct (getattr_logging (upper level)) as [v|e]; [|reflexivity].
  rewrite bind_unfold. unfold setLevel. rewrite bind_unfold. unfold lift at 1.
  destruct (_checkLevel v) as [n|e]; [|reflexivity].
  unfold modify at 1. rewrite bind_unfold. unfold handlers_clear, modify at 1.
  match goal with |- _ ?x = _ => set (w4' := x) end.
  assert (w4' = with_logger key n [] w1) as ->.
  { subst w4'. unfold the_logger. cbn [w_loggers set_loggers].
    rewrite lookup_insert_eq. cbn [l_level].
    change (set_loggers (<[key := ?lg]> (w_loggers (set_loggers ?L w2))) (set_loggers ?L w2))
      with (set_loggers (<[key := lg]> L) w2).
    rewrite insert_insert_eq.
    transitivity (with_logger key n [] w2); [reflexivity|].
    subst w2. destruct (w_loggers w1 !! key); [reflexivity|].
    unfold with_logger. cbn. now rewrite insert_insert_eq. }
  set (w4 := with_logger key n [] w1).
  rewrite bind_unfold. unfold TimedRotatingFileHandler_D.
  rewrite bind_unfold. unfold gets at 1.
  change (w_cwd w4) with (w_cwd w1).
  rewrite C1. fold (channel_file w log_dir name).
  set (base := channel_file w log_dir name).
  rewrite bind_unfold.
  destruct (open_append base w4) as [[sid|e] w5] eqn:Eo.
  2:{ now rewrite (open_append_raise _ _ _ _ Eo). }
  destruct (open_append_is_file _ _ _ _ Eo) as (Hf & F5 & L5 & _).
  rewrite bind_unfold. unfold path_exists, gets at 1. rewrite Hf. cbn [orb].
  rewrite bind_unfold, (stat_mtime_eq _ _ Hf).
  cbv [mbind M_bind mret M_ret new_handler setFormatter update_handler addHandler modify].
  unfold the_logger, with_logger.
  cbn [w_clock w_ticks w_zone w_repr w_cwd w_dirs w_names w_inodes w_streams w_heap
       w_loggers w_handlers w_stderr set_loggers set_handlers].
  rewrite F5, L5. cbn [w_handlers w_loggers w4 with_logger set_loggers].
  rewrite F1, alter_insert_eq, lookup_insert_eq. cbn [l_handlers l_level].
  rewrite bool_decide_eq_false_2 by apply not_elem_of_nil.
  cbn [w_clock w_ticks w_zone w_repr w_cwd w_dirs w_names w_inodes w_streams w_heap
       w_loggers w_handlers w_stderr set_loggers set_handlers app].
  reflexivity.
Qed.

Lemma makedirs_inv name w w1 :
  makedirs name w = (Ok tt, w1) ->
  exists ds, w1 = set_dirs ds w /\ w_dirs w ⊆ ds /\ abspath (w_cwd w) name ∈ ds.
Proof.
  unfold makedirs.
  repeat match goal with |- context [if ?c then _ else _] => destruct c end;
    try discriminate.
  intros [= <-]. eexists. split; [reflexivity|]. split; [set_solver|].
  apply elem_of_union_l, elem_of_list_to_set.
  destruct (String.length (abspath (w_cwd w) name)); simpl; [left|].
  destruct (_ || _); left.
Qed.

Lemma level_accepted s v n :
  getattr_logging s = Ok v -> _checkLevel v = Ok n -> _nameToLevel s = Some n.
Proof.
  unfold getattr_logging. destruct (_nameToLevel s) as [m|].
  - intros [= <-]. simpl. congruence.
  - destruct (String.eqb s "BASIC_FORMAT"); [intros [= <-]; discriminate|].
    destruct (String.eqb s "_STYLES"); [intros [= <-]; discriminate|discriminate].
Qed.


Lemma level_refused s :
  _nameToLevel s = None ->
  exists e, In e [AttributeError; ValueError; TypeError] /\
    match getattr_logging s with
    | Raise e' => e' = e
    | Ok v => _checkLevel v = Raise e
    end.
Proof.
  unfold getattr_logging. intros ->.
  destruct (String.eqb s "BASIC_FORMAT").
  - exists ValueError. split; [simpl; auto|reflexivity].
  - destruct (String.eqb s "_STYLES").
    + exists TypeError. split; [simpl; auto|reflexivity].
    + exists AttributeError. split; [simpl; auto|reflexivity].
Qed.

(** X10: the level is looked up by its name in upper case among the level
    constants of logging: a successful create_logger leaves the logger at
    the level so named (WARN is WARNING, FATAL is CRITICAL, NOTSET is 0),
    and no other name is accepted. *)
Theorem create_logger_level name log_dir level w key w' :
  create_logger name log_dir level w = (Ok key, w') ->
  key = logger_key name /\
  exists n, _nameToLevel (upper level) = Some n /\ l_level (the_logger w' key) = n.
Proof.
  rewrite create_logger_eq. unfold create_logger_steps.
  destruct (makedirs log_dir w) as [[[]|e] w1]; [|discriminate].
  destruct (getattr_logging (upper level)) as [v|e] eqn:Ev; [|discriminate].
  destruct (_checkLevel v) as [n|e] eqn:En; [|discriminate].
  destruct (open_append _ _) as [[sid|e] w5]; [|discriminate].
  intros [= <- <-]. split; [reflexivity|]. exists n.
  split; [exact (level_accepted _ _ _ Ev En)|].
  unfold the_logger, with_logger. cbn. now rewrite lookup_insert_eq.
Qed.

Lemma create_logger_level_witness :
  "events" = logger_key "events" /\
  exists n, _nameToLevel (upper "warn") = Some n /\
    l_level (the_logger (snd (create_logger "events" "./data/logs" "warn" init_world))
               "events") = n.
Proof.
  apply (create_logger_level "events" "./data/logs" "warn" init_world "events"
           (snd (create_logger "events" "./data/logs" "warn" init_world))).
  assert (fst (create_logger "events" "./data/logs" "warn" init_world) = Ok "events")
    as H by (vm_compute; reflexivity).
  rewrite <- H. apply surjective_pairing.
Defined.

(** X11: a level that names no level constant makes create_logger raise, but
    only after the directory was made and the logger registered: these
    stay, and nothing else has changed; in particular the handlers the
    logger had are still attached. *)
Theorem create_logger_level_refused name log_dir level w w1 :
  makedirs log_dir w = (Ok tt, w1) ->
  _nameToLevel (upper level) = None ->
  exists e,
    In e [AttributeError; ValueError; TypeError] /\
    create_logger name log_dir level w = (Raise e, snd (getLogger name w1)) /\
    is_Some (w_loggers (snd (getLogger name w1)) !! logger_key name) /\
    (forall k lg, w_loggers w !! k = Some lg ->
                  w_loggers (snd (getLogger name w1)) !! k = Some lg) /\
    w_handlers (snd (getLogger name w1)) = w_handlers w /\
    abspath (w_cwd w) log_dir ∈ w_dirs (snd (getLogger name w1)).
Proof.
  intros Hmk Hlv. destruct (level_refused _ Hlv) as (e & He & Hget).
  exists e. split; [exact He|].
  rewrite create_logger_eq. unfold create_logger_steps. rewrite Hmk.
  destruct (makedirs_inv _ _ _ Hmk) as (ds & -> & Hsub & Hin).
  split.
  { destruct (getattr_logging (upper level)) as [v|e']; [now rewrite Hget|now subst]. }
  rewrite getLogger_spec. cbn [snd].
  destruct (w_loggers (set_dirs ds w) !! logger_key name) as [lg0|] eqn:Elg;
    cbn in Elg |- *.
  - split; [rewrite Elg; eauto|]. auto.
  - split; [rewrite lookup_insert_eq; eauto|]. split; [|auto].
    intros k lg Hk. rewrite lookup_insert_ne; [exact Hk|].
    intros <-. congruence.
Qed.

Lemma create_logger_level_refused_witness :
  exists e,
    In e [AttributeError; ValueError; TypeError] /\
    create_logger "events" "./data/logs" "verbose" demo_world
    = (Raise e, snd (getLogger "events" demo_world)) /\
    is_Some (w_loggers (snd (getLogger "events" demo_world)) !! logger_key "events") /\
    (forall k lg, w_loggers demo_world !! k = Some lg ->
                  w_loggers (snd (getLogger "events" demo_world)) !! k = Some lg) /\
    w_handlers (snd (getLogger "events" demo_world)) = w_handlers demo_world /\
    abspath (w_cwd demo_world) "./data/logs"
      ∈ w_dirs (snd (getLogger "events" demo_world)).
Proof.
  apply (create_logger_level_refused "events" "./data/logs" "verbose" demo_world demo_world).
  - assert (fst (makedirs "./data/logs" demo_world) = Ok tt) as H1
      by (vm_compute; reflexivity).
    assert (w_dirs (snd (makedirs "./data/logs" demo_world)) = w_dirs demo_world) as H2
      by (vm_compute; reflexivity).
    destruct (makedirs "./data/logs" demo_world) as [r w1] eqn:E. simpl in H1, H2. subst r.
    destruct (makedirs_inv _ _ _ E) as (ds & -> & _). simpl in H2. rewrite H2.
    now destruct demo_world.
  - vm_compute. reflexivity.
Defined.





Lemma open_append_keeps p w sid w5 :
  open_append p w = (Ok sid, w5) ->
  (forall ino, data w5 ino = data w ino) /\
  (forall q ino, w_names w !! q = Some ino -> w_names w5 !! q = Some ino) /\
  (forall s ino, w_streams w !! s = Some ino -> w_streams w5 !! s = Some ino) /\
  w_dirs w5 = w_dirs w /\
  mtime w5 p = (if is_file w p then mtime w p else fs_now w) /\
  w_streams w !! sid = None /\ is_Some (w_streams w5 !! sid).
Proof.
  intros H. unfold open_append in H.
  destruct (is_dir w p); [discriminate|].
  destruct (is_file w (fst (path_split p))); [discriminate|].
  destruct (negb _); [discriminate|].
  assert (forall s ino v, w_streams w !! s = Some ino ->
            <[fresh (dom (w_streams w)) := v]> (w_streams w) !! s = Some ino) as Hs.
  { intros s ino v Hs. rewrite lookup_insert_ne; [exact Hs|].
    intros <-. apply (is_fresh (dom (w_streams w))). apply elem_of_dom. eauto. }
  assert (w_streams w !! fresh (dom (w_streams w)) = None) as Hfresh
    by apply not_elem_of_dom, is_fresh.
  unfold is_file, mtime.
  destruct (w_names w !! p) as [ino|] eqn:E; injection H as <- <-; cbn.
  - try rewrite E.
    split; [reflexivity|]. split; [auto|]. split; [intros s i Hi; apply Hs; exact Hi|].
    split; [reflexivity|]. split; [reflexivity|]. split; [exact Hfresh|].
    rewrite lookup_insert_eq. eauto.
  - assert (w_inodes w !! fresh (dom (w_inodes w)) = None) as Hino
      by apply not_elem_of_dom, is_fresh.
    split; [|split; [|split; [|split; [|split; [|split]]]]].
    + intros ino. unfold data. cbn.
      destruct (decide (ino = fresh (dom (w_inodes w)))) as [->|Hne].
      * now rewrite lookup_insert_eq, Hino.
      * now rewrite lookup_insert_ne.
    + intros q ino Hq. rewrite lookup_insert_ne; [exact Hq|]. intros <-. congruence.
    + intros s i Hi. apply Hs. exact Hi.
    + reflexivity.
    + now rewrite !lookup_insert_eq.
    + exact Hfresh.
    + rewrite lookup_insert_eq. eauto.
Qed.



(** X15: the first rollover of the handler create_logger makes is due one day
    after the last modification of the channel's file when the file was
    there, and one day after the present time when the file is new (not
    one day after the start of the process): the record after a restart
    that comes a day after the last one written starts a new file. *)
Theorem create_logger_first_rollover name log_dir level w key w' :
  create_logger name log_dir level w = (Ok key, w') ->
  exists hid h,
    l_handlers (the_logger w' key) = [hid] /\
    w_handlers w' !! hid = Some h /\
    h_baseFilename h = channel_file w log_dir name /\
    h_rolloverAt h =
      (if is_file w (channel_file w log_dir name)
       then mtime w (channel_file w log_dir name) else fs_now w) + 86400.
Proof.
  rewrite create_logger_eq. unfold create_logger_steps.
  destruct (makedirs log_dir w) as [[[]|e] w1] eqn:Hmk; [|discriminate].
  destruct (makedirs_inv _ _ _ Hmk) as (ds & -> & _).
  destruct (getattr_logging (upper level)) as [v|e]; [|discriminate].
  destruct (_checkLevel v) as [n|e]; [|discriminate].
  destruct (open_append _ _) as [[sid|e] w5] eqn:Eo; [|discriminate].
  destruct (open_append_keeps _ _ _ _ Eo) as (_ & _ & _ & _ & Hm & _).
  intros [= <- <-].
  exists (fresh (dom (w_handlers w))), (daily_handler (channel_file w log_dir name) sid
                                          (mtime w5 (channel_file w log_dir name) + 86400)).
  unfold the_logger, with_logger. cbn. rewrite !lookup_insert_eq.
  split; [reflexivity|]. split; [reflexivity|]. split; [reflexivity|].
  now rewrite Hm.
Qed.

Lemma create_logger_first_rollover_witness :
  exists hid h,
    l_handlers (the_logger (snd (create_logger "events" "./data/logs" "INFO" init_world))
                  "events") = [hid] /\
    w_handlers (snd (create_logger "events" "./data/logs" "INFO" init_world)) !! hid
    = Some h /\
    h_baseFilename h = channel_file init_world "./data/logs" "events" /\
    h_rolloverAt h =
      (if is_file init_world (channel_file init_world "./data/logs" "events")
       then mtime init_world (channel_file init_world "./data/logs" "events")
       else fs_now init_world) + 86400.
Proof.
  apply (create_logger_first_rollover "events" "./data/logs" "INFO" init_world "events"
           (snd (create_logger "events" "./data/logs" "INFO" init_world))).
  assert (fst (create_logger "events" "./data/logs" "INFO" init_world) = Ok "events")
    as H by (vm_compute; reflexivity).
  rewrite <- H. apply surjective_pairing.
Defined.
(** ** The facade object *)

Lemma open_append_frame p w sid w5 :
  open_append p w = (Ok sid, w5) ->
  w_cwd w5 = w_cwd w /\ w_clock w5 = w_clock w /\ w_ticks w5 = w_ticks w /\
  w_heap w5 = w_heap w /\ w_stderr w5 = w_stderr w /\ w_zone w5 = w_zone w /\
  w_repr w5 = w_repr w.
Proof.
  intros H. unfold open_append in H.
  destruct (is_dir w p); [discriminate|].
  destruct (is_file w (fst (path_split p))); [discriminate|].
  destruct (negb _); [discriminate|].
  destruct (w_names w !! p); injection H as <- <-; repeat split.
Qed.

(** What a successful create_logger leaves, field by field. *)
Lemma create_logger_success name log_dir level w key w' :
  create_logger name log_dir level w = (Ok key, w') ->
  key = logger_key name /\
  exists n sid ino due,
    w_loggers w' = <[key := {| l_level := n;
                               l_handlers := [fresh (dom (w_handlers w))] |}]> (w_loggers w) /\
    w_handlers w' = <[fresh (dom (w_handlers w))
                      := daily_handler (channel_file w log_dir name) sid due]>
                      (w_handlers w) /\
    w_handlers w !! fresh (dom (w_handlers w)) = None /\
    w_streams w !! sid = None /\
    w_streams w' = <[sid := ino]> (w_streams w) /\
    w_names w' !! channel_file w log_dir name = Some ino /\
    (forall i, data w' i = data w i) /\
    (forall p i, w_names w !! p = Some i -> w_names w' !! p = Some i) /\
    abspath (w_cwd w) log_dir ∈ w_dirs w' /\
    due = (if is_file w (channel_file w log_dir name)
           then mtime w (channel_file w log_dir name) else fs_now w) + 86400 /\
    w_cwd w' = w_cwd w /\ w_clock w' = w_clock w /\ w_ticks w' = w_ticks w /\
    w_heap w' = w_heap w /\ w_stderr w' = w_stderr w.
Proof.
  rewrite create_logger_eq. unfold create_logger_steps.
  destruct (makedirs log_dir w) as [[[]|e] w1] eqn:Hmk; [|discriminate].
  destruct (makedirs_inv _ _ _ Hmk) as (ds & -> & _ & Hdir).
  destruct (getattr_logging (upper level)) as [v|e]; [|discriminate].
  destruct (_checkLevel v) as [n|e]; [|discriminate].
  destruct (open_append _ _) as [[sid|e] w5] eqn:Eo; [|discriminate].
  destruct (open_append_keeps _ _ _ _ Eo) as (D & N & S & Dd & Hm & Hsid & _).
  destruct (open_append_frame _ _ _ _ Eo) as (C1 & C2 & C3 & C4 & C5 & _).
  destruct (open_append_ok _ _ _ _ Eo) as (L5 & F5 & _ & ino & S5 & N5).
  intros [= <- <-]. split; [reflexivity|].
  exists n, sid, ino, (mtime w5 (channel_file w log_dir name) + 86400).
  unfold with_logger. cbn.
  rewrite L5. cbn. rewrite insert_insert_eq.
  split; [reflexivity|]. split; [reflexivity|].
  split; [apply not_elem_of_dom, is_fresh|].
  split; [exact Hsid|]. split; [exact S5|]. split; [exact N5|].
  split; [exact D|]. split; [exact N|].
  split; [rewrite Dd; exact Hdir|]. split; [now rewrite Hm|].
  auto.
Qed.

Lemma logger_key_events : logger_key "events" = "events".
Proof. reflexivity. Qed.

Lemma logger_key_threats : logger_key "threats" = "threats".
Proof. reflexivity. Qed.

(** X16: [CCTVLogger(log_dir, level)] makes the two channels events and
    threats: when it succeeds each of the two loggers has exactly one
    handler, the two handlers are different objects, each is open on its
    channel's file in the directory, which exists by then as a regular
    file, and no file has lost a byte. *)
Theorem CCTVLogger_init_ready log_dir level w self w' :
  CCTVLogger_init log_dir level w = (Ok self, w') ->
  self = {| Logger.log_dir := log_dir; event_logger := "events";
            threat_logger := "threats" |} /\
  (forall i, data w' i = data w i) /\
  exists he ht h_e h_t sid_e sid_t ino_e ino_t,
    he <> ht /\
    l_handlers (the_logger w' "events") = [he] /\
    l_handlers (the_logger w' "threats") = [ht] /\
    w_handlers w' !! he = Some h_e /\ w_handlers w' !! ht = Some h_t /\
    h_baseFilename h_e = channel_file w log_dir "events" /\
    h_baseFilename h_t = channel_file w log_dir "threats" /\
    h_stream h_e = Some sid_e /\ h_stream h_t = Some sid_t /\ sid_e <> sid_t /\
    w_streams w' !! sid_e = Some ino_e /\ w_streams w' !! sid_t = Some ino_t /\
    w_names w' !! channel_file w log_dir "events" = Some ino_e /\
    w_names w' !! channel_file w log_dir "threats" = Some ino_t.
Proof.
  unfold CCTVLogger_init. intros H.
  apply bind_Ok_inv in H as (k1 & w1 & H1 & H).
  apply bind_Ok_inv in H as (k2 & w2 & H2 & H).
  injection H as <- <-.
  apply create_logger_success in H1
    as (-> & n1 & s1 & i1 & d1 & L1 & F1 & Hf1 & Hs1 & S1 & N1 & D1 & P1 & _ & _ & C1 & _).
  apply create_logger_success in H2
    as (-> & n2 & s2 & i2 & d2 & L2 & F2 & Hf2 & Hs2 & S2 & N2 & D2 & P2 & _ & _ & C2 & _).
  rewrite logger_key_events, logger_key_threats in *.
  split; [reflexivity|]. split; [intros i; now rewrite D2|].
  set (he := fresh (dom (w_handlers w))) in *.
  set (ht := fresh (dom (w_handlers w1))) in *.
  assert (he <> ht) as Hne.
  { intros E. rewrite <- E, F1, lookup_insert_eq in Hf2. discriminate. }
  assert (s1 <> s2) as Hsne.
  { intros E. rewrite <- E, S1, lookup_insert_eq in Hs2. discriminate. }
  exists he, ht, (daily_handler (channel_file w log_dir "events") s1 d1),
    (daily_handler (channel_file w1 log_dir "threats") s2 d2), s1, s2, i1, i2.
  unfold the_logger. rewrite L2, F2, S2, L1, F1, S1.
  rewrite lookup_insert_eq, (lookup_insert_ne _ "threats" "events") by discriminate.
  rewrite lookup_insert_eq, (lookup_insert_ne _ ht he) by congruence.
  rewrite !lookup_insert_eq, (lookup_insert_ne _ s2 s1) by congruence.
  rewrite lookup_insert_eq.
  unfold channel_file in *. rewrite C1 in *.
  repeat (split; [first [reflexivity|assumption]|]).
  split; [apply P2; exact N1|exact N2].
Qed.

Lemma CCTVLogger_init_ready_witness :
  demo_self = {| Logger.log_dir := "./data/logs"; event_logger := "events";
                 threat_logger := "threats" |} /\
  (forall i, data demo_world i = data init_world i) /\
  exists he ht h_e h_t sid_e sid_t ino_e ino_t,
    he <> ht /\
    l_handlers (the_logger demo_world "events") = [he] /\
    l_handlers (the_logger demo_world "threats") = [ht] /\
    w_handlers demo_world !! he = Some h_e /\ w_handlers demo_world !! ht = Some h_t /\
    h_baseFilename h_e = channel_file init_world "./data/logs" "events" /\
    h_baseFilename h_t = channel_file init_world "./data/logs" "threats" /\
    h_stream h_e = Some sid_e /\ h_stream h_t = Some sid_t /\ sid_e <> sid_t /\
    w_streams demo_world !! sid_e = Some ino_e /\
    w_streams demo_world !! sid_t = Some ino_t /\
    w_names demo_world !! channel_file init_world "./data/logs" "events" = Some ino_e /\
    w_names demo_world !! channel_file init_world "./data/logs" "threats" = Some ino_t.
Proof.
  apply (CCTVLogger_init_ready "./data/logs" "INFO" init_world demo_self demo_world).
  exact demo_run.
Defined.

(** X17: the loggers belong to the process, not to the facade object: a second
    [CCTVLogger] names the same two loggers, so every call made through
    the first object does what the same call through the second does, and
    after the second was made the events logger writes through the handler
    the second construction attached, to the file in the second
    directory. *)
Theorem facade_objects_share_loggers dir1 level1 w0 self1 w1 dir2 level2 w1' self2 w2 :
  CCTVLogger_init dir1 level1 w0 = (Ok self1, w1) ->
  CCTVLogger_init dir2 level2 w1' = (Ok self2, w2) ->
  (forall c w, run_call self1 c w = run_call self2 c w) /\
  exists he h_e ht h_t,
    l_handlers (the_logger w2 (event_logger self1)) = [he] /\
    w_handlers w2 !! he = Some h_e /\
    h_baseFilename h_e = channel_file w1' dir2 "events" /\
    w_handlers w1' !! he = None /\
    l_handlers (the_logger w2 (threat_logger self1)) = [ht] /\
    w_handlers w2 !! ht = Some h_t /\
    h_baseFilename h_t = channel_file w1' dir2 "threats" /\
    w_handlers w1' !! ht = None.
Proof.
  intros H1 H2.
  apply CCTVLogger_init_ready in H1 as (-> & _ & _).
  pose proof H2 as H2'.
  apply CCTVLogger_init_ready in H2
    as (-> & _ & he & ht & h_e & h_t & se & st & ie & it
        & Hne & Le & Lt & He & Ht & Be & Bt & _).
  split; [intros [] w; reflexivity|].
  exists he, h_e, ht, h_t. cbn [event_logger threat_logger].
  split; [exact Le|]. split; [exact He|]. split; [exact Be|].
  unfold CCTVLogger_init in H2'.
  apply bind_Ok_inv in H2' as (k1 & wa & Ha & H2').
  apply bind_Ok_inv in H2' as (k2 & wb & Hb & H2').
  assert (wb = w2) as -> by (injection H2'; auto).
  apply create_logger_success in Ha
    as (-> & n1 & s1 & i1 & d1 & L1 & F1 & Hf1 & _).
  apply create_logger_success in Hb
    as (-> & n2 & s2 & i2 & d2 & L2 & F2 & Hf2 & _).
  rewrite logger_key_events, logger_key_threats in *.
  pose proof Lt as Lt0.
  unfold the_logger in Le, Lt. rewrite L2, L1 in Le, Lt.
  rewrite lookup_insert_eq in Lt.
  rewrite (lookup_insert_ne _ "threats" "events"), lookup_insert_eq in Le by discriminate.
  injection Le as <-. injection Lt as Elt. subst ht.
  assert (w_handlers w1' !! fresh (dom (w_handlers wa)) = None) as Hf2'.
  { pose proof (f_equal (fun m => m !! fresh (dom (w_handlers wa))) F1) as G.
    cbn beta in G. rewrite lookup_insert_ne in G by exact Hne. congruence. }
  cbn [event_logger threat_logger].
  split; [exact Hf1|]. split; [exact Lt0|]. split; [exact Ht|]. split; [exact Bt|exact Hf2'].
Qed.

Lemma facade_objects_share_loggers_witness :
  let w2 := snd (CCTVLogger_init "/var/log/cctv" "DEBUG" demo_world) in
  let self2 := {| Logger.log_dir := "/var/log/cctv"; event_logger := "events";
                  threat_logger := "threats" |} in
  (forall c w, run_call demo_self c w = run_call self2 c w) /\
  exists he h_e ht h_t,
    l_handlers (the_logger w2 (event_logger demo_self)) = [he] /\
    w_handlers w2 !! he = Some h_e /\
    h_baseFilename h_e = channel_file demo_world "/var/log/cctv" "events" /\
    w_handlers demo_world !! he = None /\
    l_handlers (the_logger w2 (threat_logger demo_self)) = [ht] /\
    w_handlers w2 !! ht = Some h_t /\
    h_baseFilename h_t = channel_file demo_world "/var/log/cctv" "threats" /\
    w_handlers demo_world !! ht = None.
Proof.
  intros w2 self2.
  apply (facade_objects_share_loggers "./data/logs" "INFO" init_world demo_self demo_world
           "/var/log/cctv" "DEBUG" demo_world self2 w2).
  - exact demo_run.
  - assert (fst (CCTVLogger_init "/var/log/cctv" "DEBUG" demo_world) = Ok self2)
      as H by (vm_compute; reflexivity).
    rewrite <- H. apply surjective_pairing.
Defined.
(** ** What a call writes *)

(** Each method comes to making the record and handing it to the logger,
    with the fields in a new dict of the heap. *)
Lemma run_call_normal self c w (E : dict) msg :
  call_fields w c = Ok E -> call_message w c = Ok msg ->
  run_call self c w =
  (record ← makeRecord (call_logger self c) (call_levelno c) msg;
   handle Formatter_format (call_logger self c)
     (set_extra_data record (fresh (dom (w_heap w)))))
    (set_heap (<[fresh (dom (w_heap w)) := E]> (w_heap w)) w).
Proof.
  destruct c as [et src dst port proto kwargs|m e src sc x kwargs|cat threat];
    cbn [run_call call_fields call_message call_logger call_levelno].
  - unfold network_record, log_network_event, bind_kwargs.
    destruct (existsb _ (dict_keys kwargs)); [discriminate|].
    destruct (_mask_ip (VStr src)) as [ms|] eqn:Es; [|discriminate].
    destruct (_mask_ip (VStr dst)) as [md|] eqn:Ed; [|discriminate].
    intros [= <-] [= <-].
    rewrite bind_unfold. unfold mret at 1, M_ret at 1.
    rewrite bind_unfold. unfold lift at 1. try rewrite Es.
    rewrite bind_unfold. unfold lift at 1. try rewrite Ed.
    rewrite bind_unfold. unfold alloc at 1. reflexivity.
  - unfold api_record, log_api_request, bind_kwargs.
    destruct (existsb _ (dict_keys kwargs)); [discriminate|].
    destruct (_mask_ip (VStr src)) as [ms|] eqn:Es; [|discriminate].
    destruct (round x 2) as [rounded|] eqn:Er; [|discriminate].
    intros [= <-] [= <-].
    rewrite bind_unfold. unfold mret at 1, M_ret at 1.
    rewrite bind_unfold. unfold lift at 1. try rewrite Es.
    rewrite bind_unfold. unfold lift at 1. try rewrite Er.
    rewrite bind_unfold. unfold alloc at 1. reflexivity.
  - destruct (w_heap w !! threat) as [d|] eqn:Hd; [|discriminate].
    destruct (str (w_repr w) _) as [t|] eqn:Et; [|discriminate].
    intros HE [= <-]. unfold log_threat.
    rewrite bind_unfold. unfold deref at 1. rewrite Hd.
    rewrite bind_unfold. unfold alloc at 1.
    rewrite bind_unfold. unfold deref at 1. cbn [w_heap set_heap].
    rewrite lookup_insert_eq.
    set (l := fresh (dom (w_heap w))).
    assert (threat <> l) as Hne by exact (fresh_heap_keeps _ _ _ Hd).
    unfold threat_record in HE.
    set (td := dict_update [("category", VStr cat)] d) in *.
    assert (forall heap',
      heap' !! threat = Some d ->
      (d0 ← deref threat;
       repr ← gets w_repr;
       threat_type ← lift (str repr (default (VStr "UNKNOWN") (dict_get "threat_type" d0)));
       record ← makeRecord (threat_logger self) WARNING ("THREAT: " +:+ threat_type);
       handle Formatter_format (threat_logger self) (set_extra_data record l))
        (set_heap heap' w)
      = (record ← makeRecord (threat_logger self) WARNING ("THREAT: " +:+ t);
         handle Formatter_format (threat_logger self) (set_extra_data record l))
          (set_heap heap' w)) as Hrest.
    { intros heap' Hh. rewrite bind_unfold. unfold deref at 1. cbn [w_heap set_heap].
      rewrite Hh. rewrite bind_unfold. unfold gets at 1.
      rewrite bind_unfold. unfold lift at 1. cbn [w_repr set_heap]. now rewrite Et. }
    rewrite bind_unfold.
    destruct (dict_mem "src_ip" td).
    + destruct (_mask_ip _) as [masked|] eqn:Em; [|discriminate]. injection HE as <-.
      rewrite bind_unfold. unfold lift at 1. try rewrite Em.
      rewrite bind_unfold. unfold store at 1, modify at 1. cbn [w_heap set_heap].
      rewrite bind_unfold. unfold deref at 1. cbn [w_heap set_heap].
      rewrite lookup_insert_eq.
      unfold store at 1, modify at 1. cbn [w_heap set_heap].
      rewrite !insert_insert_eq.
      change (set_heap ?h (set_heap _ (set_heap _ w))) with (set_heap h w).
      apply Hrest. now rewrite lookup_insert_ne.
    + injection HE as <-. unfold mret at 1, M_ret at 1.
      apply Hrest. now rewrite lookup_insert_ne.
Qed.

Lemma JsonFormatter_format_eval record ref (E : dict) w now line :
  r_extra_data record = Some ref -> w_heap w !! ref = Some E ->
  utcfromtimestamp (w_clock w (w_ticks w)) = Ok now ->
  json_dumps (VDict (log_entry_of now (r_levelname record) (r_msg record) E)) = Ok line ->
  JsonFormatter_format record w = (Ok line, set_ticks (S (w_ticks w)) w).
Proof.
  intros Href Hheap Hnow Hline. unfold JsonFormatter_format.
  rewrite bind_unfold. cbn [time_us].
  rewrite bind_unfold. unfold lift at 1. rewrite Hnow, Href.
  rewrite bind_unfold, bind_unfold. unfold deref. cbn [w_heap set_ticks].
  rewrite Hheap. unfold mret, M_ret, lift. unfold log_entry_of, getMessage in *.
  now rewrite Hline.
Qed.



(** ** One call, one line *)

Lemma call_level_name c : getLevelName (call_levelno c) = call_level c.
Proof. now destruct c. Qed.



(** ** The facade, from construction to the file *)





(** ** A logger without handler *)

(** X20: when the logger of a call reaches no handler (as after a create_logger
    that failed while it opened the file), the call still returns
    normally and no file is written to: a network event or an API request
    is dropped without a trace, and of a threat the message alone, without
    its fields, is printed on stderr by logging's handler of last
    resort. *)
Theorem call_without_handler self c w (E : dict) msg :
  call_fields w c = Ok E -> call_message w c = Ok msg ->
  handlers_of w (call_logger self c) = [] ->
  exists w',
    run_call self c w = (Ok tt, w') /\
    (forall i, data w' i = data w i) /\ w_names w' = w_names w /\
    w_stderr w' = w_stderr w ++ match c with
                                | Threat _ _ => [LastResort msg]
                                | _ => []
                                end.
Proof.
  intros HE Hmsg Hhs.
  rewrite (run_call_normal self c w E msg HE Hmsg).
  rewrite bind_unfold. unfold makeRecord. rewrite bind_unfold. cbn [time_us].
  unfold mret at 1, M_ret at 1. unfold handle, callHandlers.
  rewrite bind_unfold. unfold gets at 1.
  match goal with |- context [for_each _ ?l] =>
    change l with (handlers_of w (call_logger self c)) end.
  rewrite Hhs. cbn [for_each length Nat.eqb].
  rewrite bind_unfold. unfold mret at 1, M_ret at 1.
  cbn [r_levelno set_extra_data getMessage r_msg].
  destruct c; cbn [call_levelno];
    (eexists; split; [reflexivity|]); cbn; rewrite ?app_nil_r; auto.
Qed.

Lemma call_without_handler_witness :
  exists w',
    run_call demo_self example_event detached_world = (Ok tt, w') /\
    (forall i, data w' i = data detached_world i) /\
    w_names w' = w_names detached_world /\
    w_stderr w' = w_stderr detached_world ++ [].
Proof.
  apply (call_without_handler demo_self example_event detached_world
           [("category", VStr "network"); ("event_type", VStr "connection");
            ("src_ip", VStr "192.168.1.xxx"); ("dst_ip", VStr "10.0.0.xxx");
            ("port", VInt 443); ("protocol", VStr "TCP")]
           "NETWORK: connection").
  - reflexivity.
  - reflexivity.
  - vm_compute. reflexivity.
Defined.
(** ** What a rollover does to the files *)

Lemma append_not_self (a b : string) : b <> "" -> a +:+ b <> a.
Proof.
  intros Hb E. apply (f_equal String.length) in E. rewrite length_append in E.
  destruct b; [now destruct Hb|]. simpl in E. lia.
Qed.

(** Removing files one by one: each is gone and every other name stays. *)
Lemma for_each_remove_names files : forall w w',
  for_each remove files w = (Ok tt, w') ->
  w_inodes w' = w_inodes w /\ w_streams w' = w_streams w /\
  w_ticks w' = w_ticks w /\ w_clock w' = w_clock w /\
  forall p, (In p files /\ w_names w' !! p = None) \/
            (~ In p files /\ w_names w' !! p = w_names w !! p).
Proof.
  induction files as [|f files IH]; intros w w'; simpl.
  - intros [= <-]. repeat (split; [reflexivity|]). intros p. right. auto.
  - intros Hrun. apply bind_Ok_inv in Hrun as ([] & w1 & Hrm & Hrest).
    apply remove_inv in Hrm as (ino & Hino & ->).
    destruct (IH _ _ Hrest) as (I & S & T & C & N).
    repeat (split; [assumption|]). intros p.
    destruct (N p) as [[Hin Hp]|[Hin Hp]]; [left; auto|].
    cbn [w_names set_names] in Hp.
    destruct (decide (f = p)) as [->|Hne].
    + left. rewrite Hp, lookup_delete_eq. auto.
    + right. rewrite Hp, lookup_delete_ne by exact Hne. split; [|reflexivity].
      intros [?|?]; auto.
Qed.

(** A successful rollover of a handler whose live file is there: the live
    file goes to the dated path, then the rotated files [files] beyond
    backupCount are removed, then the live path is opened anew. *)
Lemma doRollover_files h hid w w' ino :
  rotated_name h (snd (path_split (h_baseFilename h))) = false ->
  w_handlers w !! hid = Some h -> 0 < h_backupCount h ->
  w_names w !! h_baseFilename h = Some ino ->
  doRollover hid w = (Ok tt, w') ->
  exists s m files,
    w_ticks w' = S (w_ticks w) /\
    w_inodes w'
    = <[fresh (dom (w_inodes w)) := {| f_data := ""; f_mtime := m |}]> (w_inodes w) /\
    w_names w' !! h_baseFilename h = Some (fresh (dom (w_inodes w))) /\
    w_handlers w' !! hid
    = Some (with_rolloverAt (Z.quot (w_clock w (w_ticks w)) 1000000 + h_interval h)
              (with_stream (Some s) h)) /\
    w_streams w' !! s = Some (fresh (dom (w_inodes w))) /\
    Forall (rotated_path h) files /\
    (forall p, p <> h_baseFilename h ->
       (In p files /\ w_names w' !! p = None) \/
       (~ In p files /\
        w_names w' !! p = <[rollover_path h w := ino]> (w_names w) !! p)) /\
    (files = [] \/ length (retained h w') = Z.to_nat (h_backupCount h)) /\
    (forall p q, In p files -> In q (retained_paths h w') -> String.le p q).
Proof.
  intros Hlive Hh Hbc Hino Hrun. unfold doRollover in Hrun.
  apply bind_Ok_inv in Hrun as (h0 & w0 & Hget & Hrun).
  unfold get_handler in Hget. rewrite Hh in Hget. injection Hget as <- <-.
  apply bind_Ok_inv in Hrun as ([] & w1 & Hclose & Hrun).
  assert (w_names w1 = w_names w /\ w_dirs w1 = w_dirs w /\ w_clock w1 = w_clock w /\
          w_ticks w1 = w_ticks w /\ w_zone w1 = w_zone w /\ w_inodes w1 = w_inodes w /\
          exists h1, w_handlers w1 !! hid = Some h1 /\
                     forall s, with_stream s h1 = with_stream s h)
    as (N1 & D1 & C1 & T1 & Z1 & I1 & h1 & H1 & E1).
  { destruct (h_stream h) as [sid|].
    - apply bind_Ok_inv in Hclose as ([] & wc & Hc & Hu).
      injection Hc as <-. injection Hu as <-. cbn.
      repeat (split; [reflexivity|]). exists (with_stream None h).
      split; [|reflexivity]. now rewrite lookup_alter_eq, Hh.
    - injection Hclose as <-. repeat (split; [reflexivity|]). eauto. }
  apply bind_Ok_inv in Hrun as (currentTime & w2 & Htime & Hrun).
  rewrite int_time_eq in Htime. injection Htime as <- <-.
  apply bind_Ok_inv in Hrun as (zone & w2 & Hzone & Hrun). injection Hzone as <- <-.
  cbv zeta in Hrun.
  match type of Hrun with context [path_exists (?a +:+ ?b)] => set (dfn := a +:+ b) in * end.
  assert (dfn = rollover_path h w) as Hdfn.
  { subst dfn. unfold rollover_path. cbn [w_zone set_ticks]. now rewrite Z1, C1, T1. }
  assert (dfn <> h_baseFilename h) as Hne.
  { subst dfn. apply append_not_self. discriminate. }
  apply bind_Ok_inv in Hrun as (ex1 & w2 & Hex & Hrun). injection Hex as <- <-.
  apply bind_Ok_inv in Hrun as ([] & w3 & Hrm & Hrun).
  assert (w_dirs w3 = w_dirs w /\ w_handlers w3 = w_handlers w1 /\
          w_inodes w3 = w_inodes w /\ w_streams w3 = w_streams w1 /\
          w_ticks w3 = S (w_ticks w) /\ w_clock w3 = w_clock w /\
          w_names w3 = delete dfn (w_names w)) as (D3 & H3 & I3 & S3 & T3 & C3 & N3).
  { cbn [w_names w_dirs set_ticks] in Hrm.
    destruct (is_file _ dfn || is_dir _ dfn) eqn:Eex.
    - apply remove_inv in Hrm as (i & Hi & ->). cbn.
      now rewrite D1, I1, T1, C1, N1.
    - injection Hrm as <-. apply orb_false_elim in Eex as [Ef _].
      apply is_file_false in Ef. cbn in *.
      rewrite D1, I1, T1, C1. repeat (split; [reflexivity|]).
      rewrite N1 in Ef |- *. symmetry. now apply delete_id. }
  apply bind_Ok_inv in Hrun as (ex2 & w4 & Hex & Hrun). injection Hex as <- <-.
  apply bind_Ok_inv in Hrun as ([] & w4 & Hrn & Hrun).
  assert (w_names w3 !! h_baseFilename h = Some ino) as Hb3.
  { rewrite N3, lookup_delete_ne by exact Hne. exact Hino. }
  assert (is_file w3 (h_baseFilename h) = true) as Hf3.
  { unfold is_file. apply bool_decide_eq_true. eauto. }
  rewrite Hf3 in Hrn. cbn [orb] in Hrn.
  unfold rename in Hrn. rewrite Hb3 in Hrn.
  destruct (is_dir w3 dfn); [discriminate|].
  destruct (negb _); [discriminate|]. injection Hrn as <-.
  apply bind_Ok_inv in Hrun as ([] & w5 & Hdel & Hrun).
  assert ((h_backupCount h >? 0) = true) as Hb by (apply Z.gtb_lt; exact Hbc).
  rewrite Hb in Hdel.
  apply bind_Ok_inv in Hdel as (files & w4' & Hfiles & Hdel).
  apply getFilesToDelete_spec in Hfiles as (-> & Hall & Hlen & keep & Hkeep & Hord); [|lia].
  match type of Hdel with for_each remove files ?x = _ => set (w4 := x) in * end.
  destruct (for_each_remove h files w4 w5 Hall Hdel) as (Hperm & D5 & H5 & Hnone & Hgone).
  destruct (for_each_remove_names files w4 w5 Hdel) as (I5 & S5 & T5 & C5 & N5).
  assert (keep ≡ₚ retained_paths h w5) as Hleft.
  { apply (Permutation_app_inv_l files). now rewrite Hkeep, Hperm. }
  assert (length (retained h w4) = (length files + length (retained h w5))%nat) as L5.
  { apply Permutation_length in Hperm. rewrite length_app in Hperm.
    unfold retained_paths in Hperm. now rewrite !length_map in Hperm. }
  assert (w_names w5 !! h_baseFilename h = None) as Hb5.
  { apply Hnone. subst w4. cbn [w_names set_names].
    rewrite lookup_insert_ne by exact Hne. apply lookup_delete_eq. }
  apply bind_Ok_inv in Hrun as (s & w6 & Hopen & Hrun).
  unfold open_append in Hopen.
  destruct (is_dir w5 _); [discriminate|].
  destruct (is_file w5 _); [discriminate|].
  destruct (negb _); [discriminate|].
  rewrite Hb5 in Hopen. injection Hopen as <- <-.
  apply bind_Ok_inv in Hrun as ([] & w7 & Hup & Hrun).
  injection Hup as <-. injection Hrun as <-.
  assert (w_inodes w5 = w_inodes w) as I5' by (rewrite I5; subst w4; cbn; exact I3).
  assert (w_handlers w5 !! hid = Some h1) as H5'
    by (rewrite H5; subst w4; cbn; rewrite H3; exact H1).
  match goal with |- context [w_inodes ?x = _] => set (wn := x) end.
  assert (retained h wn ≡ₚ retained h w5) as L6.
  { rewrite (retained_insert_perm h w5 wn (h_baseFilename h) (fresh (dom (w_inodes w5)))
               Hb5 eq_refl eq_refl).
    now rewrite (entry_live h Hlive). }
  exists (fresh (dom (w_streams w5))), (fs_now w5), files. subst wn.
  cbn [w_inodes w_names w_handlers w_streams w_ticks set_handlers set_streams set_inodes
       set_names].
  split; [rewrite T5; subst w4; cbn; exact T3|].
  split; [now rewrite I5'|].
  split; [now rewrite lookup_insert_eq, I5'|].
  split.
  { rewrite !lookup_alter_eq, H5'. cbn. rewrite T1, C1.
    unfold computeRollover. f_equal. f_equal. apply E1. }
  split; [now rewrite lookup_insert_eq, I5'|].
  split; [exact Hall|].
  split; [|split].
  - intros p Hp. rewrite lookup_insert_ne by congruence.
    destruct (N5 p) as [[Hin Hn]|[Hin Hn]]; [left; auto|right].
    split; [exact Hin|]. rewrite Hn. subst w4. cbn [w_names set_names].
    rewrite <- Hdfn. destruct (decide (dfn = p)) as [->|Hd].
    + now rewrite !lookup_insert_eq.
    + rewrite !lookup_insert_ne by exact Hd. rewrite lookup_delete_ne by congruence.
      rewrite N3. now rewrite lookup_delete_ne by exact Hd.
  - destruct files as [|f fs]; [now left|right].
    rewrite (Permutation_length L6). cbn [length] in Hlen, L5. lia.
  - intros p q Hp Hq. apply (Hord p q Hp).
    apply list_elem_of_In. rewrite Hleft. apply list_elem_of_In.
    unfold retained_paths in *. now rewrite L6 in Hq.
Qed.


(** ** A call that finds the rollover due *)

(** A rollover writes nothing to stderr, whether it succeeds or fails. *)
Lemma doRollover_stderr hid w r w' :
  doRollover hid w = (r, w') -> w_stderr w' = w_stderr w.
Proof.
  assert (forall w1 w2 w3 : world,
            w_stderr w2 = w_stderr w1 -> w_stderr w3 = w_stderr w2 ->
            w_stderr w3 = w_stderr w1) as Rt by (intros; congruence).
  assert (forall (A : Type) (m : M A),
            (forall w r w', m w = (r, w') -> w_stderr w' = w_stderr w) ->
            steps (fun _ => True) (fun w w' => w_stderr w' = w_stderr w) m) as leaf.
  { intros A m H w0 r0 w0' _ E. split; [exact Logic.I|exact (H _ _ _ E)]. }
  assert (forall p, steps (fun _ => True) (fun w w' => w_stderr w' = w_stderr w) (remove p))
    as Hremove.
  { intros p. apply leaf. intros w0 r0 w0'. unfold remove.
    repeat match goal with |- context [if ?c then _ else _] => destruct c end;
      now intros [= <- <-]. }
  assert (steps (fun _ => True) (fun w w' => w_stderr w' = w_stderr w) (doRollover hid)) as H.
  { unfold doRollover.
    apply steps_bind; [exact Rt| |intros h].
    { apply leaf. intros w0 r0 w0'. unfold get_handler.
      destruct (w_handlers w0 !! hid); now intros [= <- <-]. }
    apply steps_bind; [exact Rt| |intros _].
    { destruct (h_stream h); [|apply leaf; now intros w0 r0 w0' [= <- <-]].
      apply steps_bind; [exact Rt| |intros _]; apply leaf; now intros w0 r0 w0' [= <- <-]. }
    apply steps_bind; [exact Rt| |intros t].
    { apply leaf. now intros w0 r0 w0' [= <- <-]. }
    apply steps_bind; [exact Rt| |intros z].
    { apply leaf. now intros w0 r0 w0' [= <- <-]. }
    cbv zeta.
    apply steps_bind; [exact Rt| |intros ex1].
    { apply leaf. now intros w0 r0 w0' [= <- <-]. }
    apply steps_bind; [exact Rt| |intros _].
    { destruct ex1; [apply Hremove|apply leaf; now intros w0 r0 w0' [= <- <-]]. }
    apply steps_bind; [exact Rt| |intros ex2].
    { apply leaf. now intros w0 r0 w0' [= <- <-]. }
    apply steps_bind; [exact Rt| |intros _].
    { destruct ex2; [|apply leaf; now intros w0 r0 w0' [= <- <-]].
      apply leaf. intros w0 r0 w0'. unfold rename.
      destruct (w_names w0 !! _); [|now intros [= <- <-]].
      repeat match goal with |- context [if ?c then _ else _] => destruct c end;
        now intros [= <- <-]. }
    apply steps_bind; [exact Rt| |intros _].
    { destruct (_ >? _); [|apply leaf; now intros w0 r0 w0' [= <- <-]].
      apply steps_bind; [exact Rt| |intros files].
      - apply leaf. intros w0 r0 w0'. rewrite getFilesToDelete_eq.
        destruct (is_dir w0 _); now intros [= <- <-].
      - apply steps_for_each; [reflexivity|exact Rt|]. intros p _. apply Hremove. }
    apply steps_bind; [exact Rt| |intros s].
    { apply leaf. intros w0 r0 w0'. unfold open_append.
      repeat match goal with |- context [if ?c then _ else _] => destruct c end;
        try now intros [= <- <-].
      destruct (w_names w0 !! _); now intros [= <- <-]. }
    apply steps_bind; [exact Rt| |intros _]; apply leaf; now intros w0 r0 w0' [= <- <-]. }
  intros E. exact (proj2 (H w r w' Logic.I E)).
Qed.

(** A rollover is found due when the time read has reached rolloverAt and
    the live path names a regular file. *)
Lemma shouldRollover_is_due hid h ino w :
  w_handlers w !! hid = Some h -> w_names w !! h_baseFilename h = Some ino ->
  h_rolloverAt h <= Z.quot (w_clock w (w_ticks w)) 1000000 ->
  shouldRollover hid w = (Ok true, set_ticks (S (w_ticks w)) w).
Proof.
  intros Hh Hino Hdue. unfold shouldRollover.
  rewrite bind_unfold, int_time_eq, bind_unfold.
  unfold get_handler. cbn [w_handlers set_ticks]. rewrite Hh.
  destruct (_ >=? _) eqn:Ege; [|lia].
  rewrite bind_unfold. unfold path_exists at 1, gets at 1.
  rewrite bind_unfold. unfold path_isfile at 1, gets at 1.
  assert (is_file (set_ticks (S (w_ticks w)) w) (h_baseFilename h) = true) as ->.
  { unfold is_file. apply bool_decide_eq_true. cbn. eauto. }
  reflexivity.
Qed.

(** The handler, given a record when the rollover is due and the live
    file is there: either the rollover fails, the error goes to stderr
    and the record is lost, or the record is the first line of the new
    live file. *)
Lemma emit_rolls hid h ino record ref (E : dict) w now line :
  w_handlers w !! hid = Some h -> h_formatter h = Some JsonFormatter ->
  rotated_name h (snd (path_split (h_baseFilename h))) = false ->
  0 < h_backupCount h ->
  w_names w !! h_baseFilename h = Some ino ->
  h_rolloverAt h <= Z.quot (w_clock w (w_ticks w)) 1000000 ->
  r_extra_data record = Some ref -> w_heap w !! ref = Some E ->
  utcfromtimestamp (w_clock w (S (S (w_ticks w)))) = Ok now ->
  json_dumps (VDict (log_entry_of now (r_levelname record) (r_msg record) E)) = Ok line ->
  exists w',
    emit Formatter_format hid record w = (Ok tt, w') /\
    (forall i, w_inodes w !! i <> None -> data w' i = data w i) /\
    ((exists e, w_stderr w' = w_stderr w ++ [LoggingError e] /\
                forall i, data w' i = data w i) \/
     (w_stderr w' = w_stderr w /\
      exists new,
        w_inodes w !! new = None /\
        w_names w' !! h_baseFilename h = Some new /\
        data w' new = line +:+ String "010"%char "" /\
        (w_names w' !! rollover_path h (set_ticks (S (w_ticks w)) w) = Some ino \/
         (w_names w' !! rollover_path h (set_ticks (S (w_ticks w)) w) = None /\
          length (retained h w') = Z.to_nat (h_backupCount h))))).
Proof.
  intros Hh Hf Hlive Hbc Hino Hdue Href Hheap Hnow Hline.
  unfold emit, try_except.
  rewrite bind_unfold, (shouldRollover_is_due hid h ino w Hh Hino Hdue).
  rewrite bind_unfold.
  set (w2 := set_ticks (S (w_ticks w)) w).
  destruct (doRollover hid w2) as [[[]|e] w3] eqn:Hroll.
  - pose proof (doRollover_stderr _ _ _ _ Hroll) as Herr.
    destruct (silent_quiet _ _ _ _ (silent_doRollover hid) Hroll)
      as [(C & Hp & L & T & F) D].
    destruct (doRollover_files h hid w2 w3 ino Hlive Hh Hbc Hino Hroll)
      as (s & m & files & T3 & HI & HN & HH & HS & Hall & Hnames & Hlen & Hord).
    unfold FileHandler_emit. rewrite bind_unfold. unfold get_handler at 1. rewrite HH.
    cbn [h_stream with_rolloverAt with_stream].
    rewrite bind_unfold. unfold mret at 1, M_ret at 1.
    unfold StreamHandler_emit, try_except.
    rewrite bind_unfold. unfold get_handler at 1. rewrite HH.
    rewrite bind_unfold. unfold Handler_format.
    cbn [h_formatter with_rolloverAt with_stream]. rewrite Hf. unfold Formatter_format.
    assert (w_heap w3 !! ref = Some E) as Hheap3 by (rewrite Hp; exact Hheap).
    assert (utcfromtimestamp (w_clock w3 (w_ticks w3)) = Ok now) as Hnow3
      by (rewrite C, T3; exact Hnow).
    rewrite (JsonFormatter_format_eval record ref E w3 now line Href Hheap3 Hnow3 Hline).
    unfold write. cbn [w_streams w_inodes set_ticks]. rewrite HS.
    assert (w_inodes w !! fresh (dom (w_inodes w)) = None) as Hfresh.
    { apply not_elem_of_dom. apply is_fresh. }
    assert (rollover_path h w2 <> h_baseFilename h) as Hne.
    { unfold rollover_path. cbv zeta. apply append_not_self. discriminate. }
    change (w_inodes w2) with (w_inodes w) in *.
    eexists. split; [reflexivity|]. split.
    { intros i Hi. unfold data at 1. cbn [w_inodes set_inodes set_ticks].
      rewrite lookup_insert_ne by (intros <-; congruence). apply (D i). }
    right. split; [exact Herr|].
    exists (fresh (dom (w_inodes w))). split; [exact Hfresh|].
    split; [exact HN|]. split.
    { unfold data. cbn [w_inodes set_inodes set_ticks].
      rewrite lookup_insert_eq. cbn [f_data]. now rewrite HI, lookup_insert_eq. }
    cbn [w_names set_inodes set_ticks].
    destruct (Hnames _ Hne) as [[Hin Hn]|[Hin Hn]].
    + right. split; [exact Hn|]. destruct Hlen as [->|Hlen]; [destruct Hin|].
      exact Hlen.
    + left. now rewrite Hn, lookup_insert_eq.
  - unfold handleError, stderr_write, modify.
    pose proof (doRollover_stderr _ _ _ _ Hroll) as Herr.
    destruct (silent_quiet _ _ _ _ (silent_doRollover hid) Hroll) as [_ D].
    eexists. split; [reflexivity|]. split; [intros i _; apply (D i)|].
    left. exists e. cbn [w_stderr set_stderr]. rewrite Herr. split; [reflexivity|].
    intros i. apply (D i).
Qed.

(** X22: a call that finds the rollover of its handler due never writes
    its record into the old file.  When the logger of the call reaches
    exactly one handler, whose live file is there, and the second reading
    of the clock has reached the handler's rolloverAt, the call returns
    normally and no file that existed has its content changed; either
    the rollover failed, the error is reported on stderr and the record
    is lost, or the live path names a new file whose whole content is the
    record's line, stamped with the fourth reading of the clock, while
    the file that was live is under the dated path (or was removed as one
    of the oldest, exactly backupCount rotated files being left). *)
Theorem call_rolls_over self c w (E : dict) msg hid h ino now line :
  call_fields w c = Ok E -> call_message w c = Ok msg ->
  handlers_of w (call_logger self c) = [hid] ->
  w_handlers w !! hid = Some h -> h_formatter h = Some JsonFormatter ->
  h_level h <= call_levelno c ->
  rotated_name h (snd (path_split (h_baseFilename h))) = false ->
  0 < h_backupCount h ->
  w_names w !! h_baseFilename h = Some ino ->
  h_rolloverAt h <= Z.quot (w_clock w (S (w_ticks w))) 1000000 ->
  utcfromtimestamp (w_clock w (S (S (S (w_ticks w))))) = Ok now ->
  json_dumps (VDict (log_entry_of now (call_level c) msg E)) = Ok line ->
  exists w',
    run_call self c w = (Ok tt, w') /\
    (forall i, w_inodes w !! i <> None -> data w' i = data w i) /\
    ((exists e, w_stderr w' = w_stderr w ++ [LoggingError e] /\
                forall i, data w' i = data w i) \/
     (w_stderr w' = w_stderr w /\
      exists new,
        w_inodes w !! new = None /\
        w_names w' !! h_baseFilename h = Some new /\
        data w' new = line +:+ String "010"%char "" /\
        (w_names w' !! rollover_path h (set_ticks (S (S (w_ticks w))) w) = Some ino \/
         (w_names w' !! rollover_path h (set_ticks (S (S (w_ticks w))) w) = None /\
          length (retained h w') = Z.to_nat (h_backupCount h))))).
Proof.
  intros HE Hmsg Hhs Hh Hf Hlvl Hlive Hbc Hino Hdue Hnow Hline.
  rewrite <- call_level_name in Hline.
  rewrite (run_call_normal self c w E msg HE Hmsg).
  set (ref := fresh (dom (w_heap w))).
  set (w1 := set_heap (<[ref := E]> (w_heap w)) w).
  rewrite bind_unfold. unfold makeRecord. rewrite bind_unfold. cbn [time_us].
  unfold mret at 1, M_ret at 1. unfold handle, callHandlers.
  rewrite bind_unfold. unfold gets at 1.
  change (concat (map (fun n => l_handlers (the_logger (set_ticks (S (w_ticks w1)) w1) n))
                    (lineage (set_ticks (S (w_ticks w1)) w1) (call_logger self c))))
    with (handlers_of w (call_logger self c)).
  rewrite Hhs. cbn [for_each length Nat.eqb].
  rewrite bind_unfold, bind_unfold, bind_unfold. unfold get_handler at 1.
  cbn [w_handlers set_ticks]. change (w_handlers w1) with (w_handlers w). rewrite Hh.
  cbn [r_levelno set_extra_data].
  assert ((call_levelno c >=? h_level h) = true) as -> by (apply Z.geb_le; lia).
  match goal with |- context [emit Formatter_format hid ?r ?x] =>
    destruct (emit_rolls hid h ino r ref E x now line Hh Hf Hlive Hbc Hino Hdue eq_refl
                (lookup_insert_eq _ _ _) Hnow Hline) as (w' & Hemit & Hold & Hcases);
    rewrite Hemit
  end.
  exists w'. split; [reflexivity|]. split; [exact Hold|exact Hcases].
Qed.

(** The example process at the second reading of a clock that advances a
    day, less a second, at every reading. *)
Lemma call_rolls_over_witness :
  let w := set_ticks 1 daily_world in
  let h := daily_handler "/app/data/logs/events.jsonl" 0 1704153600 in
  let line := json_text (VDict [("timestamp", VStr "2024-01-04T23:59:56Z");
                                ("level", VStr "INFO");
                                ("message", VStr "NETWORK: connection");
                                ("category", VStr "network");
                                ("event_type", VStr "connection");
                                ("src_ip", VStr "192.168.1.xxx");
                                ("dst_ip", VStr "10.0.0.xxx");
                                ("port", VInt 443); ("protocol", VStr "TCP")]) in
  exists w',
    run_call demo_self example_event w = (Ok tt, w') /\
    (forall i, w_inodes w !! i <> None -> data w' i = data w i) /\
    ((exists e, w_stderr w' = w_stderr w ++ [LoggingError e] /\
                forall i, data w' i = data w i) \/
     (w_stderr w' = w_stderr w /\
      exists new,
        w_inodes w !! new = None /\
        w_names w' !! h_baseFilename h = Some new /\
        data w' new = line +:+ String "010"%char "" /\
        (w_names w' !! rollover_path h (set_ticks (S (S (w_ticks w))) w) = Some 0%nat \/
         (w_names w' !! rollover_path h (set_ticks (S (S (w_ticks w))) w) = None /\
          length (retained h w') = Z.to_nat (h_backupCount h))))).
Proof.
  intros w h line.
  apply (call_rolls_over demo_self example_event w
           [("category", VStr "network"); ("event_type", VStr "connection");
            ("src_ip", VStr "192.168.1.xxx"); ("dst_ip", VStr "10.0.0.xxx");
            ("port", VInt 443); ("protocol", VStr "TCP")]
           "NETWORK: connection" 0%nat h 0%nat
           {| year := 2024; month := 1; day := 4; hour := 23; minute := 59; second := 56;
              microsecond := 0 |} line).
  - reflexivity.
  - reflexivity.
  - vm_compute. reflexivity.
  - vm_compute. reflexivity.
  - reflexivity.
  - vm_compute. discriminate.
  - vm_compute. reflexivity.
  - reflexivity.
  - vm_compute. reflexivity.
  - vm_compute. discriminate.
  - vm_compute. reflexivity.
  - vm_compute. reflexivity.
Defined.

(** Two events logged in that process from its start: the first call finds
    no rollover due and writes to the live file; the second finds it due,
    so the first line is then in the file dated 2024-01-01 and the second
    line alone in the new live file. *)
Lemma second_call_rolls_over :
  let w := snd (repeat_call demo_self example_event 2 daily_world) in
  w_stderr w = [] /\
  option_map (data w) (w_names w !! "/app/data/logs/events.jsonl.2024-01-01")
  = Some (json_text (VDict [("timestamp", VStr "2024-01-02T23:59:58Z");
                            ("level", VStr "INFO");
                            ("message", VStr "NETWORK: connection");
                            ("category", VStr "network");
                            ("event_type", VStr "connection");
                            ("src_ip", VStr "192.168.1.xxx");
                            ("dst_ip", VStr "10.0.0.xxx");
                            ("port", VInt 443); ("protocol", VStr "TCP")])
          +:+ String "010"%char "") /\
  option_map (data w) (w_names w !! "/app/data/logs/events.jsonl")
  = Some (json_text (VDict [("timestamp", VStr "2024-01-06T23:59:54Z");
                            ("level", VStr "INFO");
                            ("message", VStr "NETWORK: connection");
                            ("category", VStr "network");
                            ("event_type", VStr "connection");
                            ("src_ip", VStr "192.168.1.xxx");
                            ("dst_ip", VStr "10.0.0.xxx");
                            ("port", VInt 443); ("protocol", VStr "TCP")])
          +:+ String "010"%char "").
Proof. intros w. split; [|split]; vm_compute; reflexivity. Qed.
